(** * Session lifecycle manager and bulk dispatch pipeline

    A shallow embedding of [src/utils/sessionManager.js] (the
    [SessionManager] class) and of the [POST /send-messages] handler of
    [src/index.js], with the properties of the specification stated and
    proved over it.  The session endpoints, the label and group
    endpoints and the shutdown handler of [src/index.js] follow, with
    further properties of the code.

    Conventions of the embedding.
    - JavaScript [Map]s whose iteration order is observed ([lastActivity])
      are insertion-ordered association lists ([JsMap]); the other maps are
      [gmap]s keyed by the session id.
    - Timestamps ([Date.now()]) are integers, read from a clock that is part
      of the world; the clock only moves between operations.
    - Code that can throw runs in a state-and-exception monad [M]; [try],
      [catch] and [finally] are combinators of that monad.
    - Calls that leave the process (the messaging client, the file system,
      the HTTP response, the logger) are appended to a chronological
      [trace]; what the outside answers is read from an oracle [Env] that
      may depend on the whole trace so far.
    - An [async] method that is awaited runs to completion as one step:
      the interleavings that [await] allows between two requests are not
      part of the model.  Where the code does not await, or where what
      happens during an [await] matters, the method is split at its
      [await]s: [destroySession], which the handlers of [auth_failure] and
      [disconnected] call and do not await, into [destroySession_begin] and
      [destroySession_resume]; [createSession], around
      [await client.initialize()], into [create_new_begin] and
      [create_new_resume].
    - [fs.rm] is asynchronous: a call is a request, noted in the trace, and
      the directory is still on disk when the call returns; the removal
      itself is a later step ([fs_rm_done]).  [fs.unlinkSync] may throw.
    - Paths are built as [path.join] builds them on POSIX: the segments
      are joined and normalised, so that two ids can name the same
      directory.
    - Queries on the client that the later endpoints make ([getState],
      [getLabels], [getChats]) are answered by oracles of their own and
      leave no entry in the trace.
    - Where the code walks a map that is a [gmap] here ([getStats], the
      shutdown handler), the order of the walk is a parameter, and the
      properties hold for every order. *)

From Stdlib Require Import ZArith String Ascii List Bool Lia.
From stdpp Require Import base gmap strings list fin_maps.

Open Scope string_scope.
Open Scope Z_scope.

(** ** JavaScript strings *)

Module JsString.

(** [\d]: the ASCII digits. *)
Definition is_digit (c : ascii) : bool :=
  let n := nat_of_ascii c in ((48 <=? n) && (n <=? 57))%nat.

(** [s.replace(/\D/g, '')] *)
Fixpoint strip_non_digits (s : string) : string :=
  match s with
  | EmptyString => EmptyString
  | String c r =>
      if is_digit c then String c (strip_non_digits r) else strip_non_digits r
  end.

(** [s.includes(c)] for a one-character needle. *)
Fixpoint includes_char (c : ascii) (s : string) : bool :=
  match s with
  | EmptyString => false
  | String d r => if Ascii.eqb d c then true else includes_char c r
  end.

(** [s.startsWith(p)] *)
Definition startsWith (p s : string) : bool := String.prefix p s.

(** Truthiness of a string: only the empty string is falsy. *)
Definition truthy (s : string) : bool :=
  match s with EmptyString => false | _ => true end.

(** Every character of the string is a digit. *)
Fixpoint all_digits (s : string) : bool :=
  match s with
  | EmptyString => true
  | String c r => is_digit c && all_digits r
  end.

End JsString.

(** ** Insertion-ordered maps (JavaScript [Map]) *)

Module JsMap.

Section Ops.
Context {V : Type}.

Fixpoint get (k : string) (m : list (string * V)) : option V :=
  match m with
  | [] => None
  | (k', v) :: r => if String.eqb k' k then Some v else get k r
  end.

(** [m.set(k, v)]: an existing key keeps its place, a new one goes last. *)
Fixpoint set (k : string) (v : V) (m : list (string * V)) : list (string * V) :=
  match m with
  | [] => [(k, v)]
  | (k', v') :: r =>
      if String.eqb k' k then (k', v) :: r else (k', v') :: set k v r
  end.

(** [m.delete(k)] *)
Fixpoint delete (k : string) (m : list (string * V)) : list (string * V) :=
  match m with
  | [] => []
  | (k', v') :: r =>
      if String.eqb k' k then delete k r else (k', v') :: delete k r
  end.

End Ops.

End JsMap.

(** ** Paths *)

Module Path.

(** The segments of a path: what stands between two separators. *)
Fixpoint split (s : string) : list string :=
  match s with
  | EmptyString => [EmptyString]
  | String c r =>
      if Ascii.eqb c "/" then EmptyString :: split r
      else
        match split r with
        | seg :: rest => String c seg :: rest
        | [] => [String c EmptyString]
        end
  end.

(** One segment read by the normalisation of an absolute path, kept as
    the list of the segments so far, last one first: an empty segment
    and ["."] are skipped, [".."] drops the segment before it and is
    dropped itself at the root; any other segment is kept. *)
Definition step (stack : list string) (seg : string) : list string :=
  if String.eqb seg "" || String.eqb seg "." then stack
  else if String.eqb seg ".." then tail stack
  else seg :: stack.

(** The segments of [path.join(...parts)], where the first part is an
    absolute path. *)
Definition segments (parts : list string) : list string :=
  rev (fold_left step (flat_map split parts) []).

Definition render (segs : list string) : string :=
  match segs with
  | [] => "/"
  | _ => String.concat "" (map (fun seg => "/" +:+ seg) segs)
  end.

(** The directory that POSIX [path.join(...parts)] names, for a first
    part that is absolute.  The separator that [path.join] leaves at the
    end of the text when the last part ends in one is dropped: with or
    without it the text names the same directory. *)
Definition join (parts : list string) : string := render (segments parts).

End Path.

(** ** Data model *)

(** Session status labels.  [init_error] and [no_session] only occur in
    results, never in the status map. *)
Inductive Status :=
| initializing | needs_scan | ready | authenticated
| auth_failure | disconnected | init_error | no_session.

Definition Status_eqb (a b : Status) : bool :=
  match a, b with
  | initializing, initializing | needs_scan, needs_scan | ready, ready
  | authenticated, authenticated | auth_failure, auth_failure
  | disconnected, disconnected | init_error, init_error
  | no_session, no_session => true
  | _, _ => false
  end.

Definition Status_to_string (s : Status) : string :=
  match s with
  | initializing => "initializing" | needs_scan => "needs_scan"
  | ready => "ready" | authenticated => "authenticated"
  | auth_failure => "auth_failure" | disconnected => "disconnected"
  | init_error => "init_error" | no_session => "no_session"
  end.

(** [list.includes(status)], where [status] may be [undefined]. *)
Definition status_includes (l : list Status) (s : option Status) : bool :=
  match s with
  | Some x => existsb (Status_eqb x) l
  | None => false
  end.

(** A client handle: the identity of one [Client] object. *)
Definition Client := nat.

(** The lifecycle signals of the client. *)
Inductive ClientEvent :=
| ev_qr (qr : string)
| ev_ready
| ev_authenticated
| ev_auth_failure
| ev_disconnected.

(** Where a [destroySession] that its caller does not await stands when
    the caller goes on: at one of its two [await]s, the call on the
    client made and not yet settled. *)
Inductive Pause :=
| at_logout (c : Client)
| at_destroy (c : Client).

(** Values produced by [JSON.parse]. *)
#[local] Set Warnings "-register-all".
Inductive Json :=
| JNull
| JBool (b : bool)
| JNum (z : Z)
| JStr (s : string)
| JArr (l : list Json)
| JObj (l : list (string * Json)).

Module Js.

(** Truthiness. *)
Definition truthy (v : Json) : bool :=
  match v with
  | JNull => false
  | JBool b => b
  | JNum z => negb (z =? 0)
  | JStr s => JsString.truthy s
  | JArr _ | JObj _ => true
  end.

(** [a || b] *)
Definition or (a b : Json) : Json := if truthy a then a else b.

(** [o || b], where [o] may be [undefined]. *)
Definition or_undef (o : option Json) (b : Json) : Json :=
  match o with Some a => or a b | None => b end.

(** [s || d], for a string that may be [undefined]. *)
Definition str_or (o : option string) (d : string) : string :=
  match o with
  | Some s => if JsString.truthy s then s else d
  | None => d
  end.

(** Truthiness of a string that may be [undefined]. *)
Definition opt_truthy (o : option string) : bool :=
  match o with Some s => JsString.truthy s | None => false end.

End Js.

(** The five maps of the [SessionManager] instance. *)
Record SessionManager := mkSessionManager {
  sessions : gmap string Client;
  qrCodes : gmap string (option string);
  sessionStatus : gmap string Status;
  lastActivity : list (string * Z);
  sessionLocks : gmap string Z
}.

(** [config.sessions]; [timeoutMinutes] is absent from the unified
    configuration file, hence optional. *)
Record SessionsConfig := mkSessionsConfig {
  maxSessions : Z;
  timeoutMinutes : option Z;
  cleanupIntervalMinutes : Z
}.

(** [config.messages.defaultDelay] *)
Record MessagesConfig := mkMessagesConfig {
  defaultDelay : Z
}.

Record Config := mkConfig {
  cfg_sessions : SessionsConfig;
  cfg_messages : MessagesConfig
}.

(** The uploaded file, as multer describes it. *)
Record MediaFile := mkMediaFile {
  mf_path : string;
  mf_mimetype : string;
  mf_originalname : string
}.

(** [new MessageMedia(mimetype, data, filename)] *)
Record MessageMedia := mkMessageMedia {
  mm_mimetype : string;
  mm_data : string;
  mm_filename : string
}.

(** What is handed to [client.sendMessage]. *)
Inductive Payload :=
| MediaWithCaption (m : MessageMedia) (caption : option Json)
| Content (c : Json).

(** One entry of [failedNumbers]. *)
Record FailedNumber := mkFailedNumber {
  fn_number : string;
  fn_reason : string
}.

Inductive LogLevel := LInfo | LWarn | LError.

(** Bodies of the responses of [POST /send-messages]. *)
Inductive ResponseBody :=
| RError (error : string) (status : option Status)
| RInitiated (total : nat).

(** Everything that leaves the process, in the order it happens; the
    release of a session lock is noted too, so that it can be placed among
    the rest.  [ERm] and [EUnlink] are requests made to [fs.rm] and
    [fs.unlink], which do their work later; [EUnlinkSync] is a call of
    [fs.unlinkSync]; [ESleep ms] is a timer awaited,
    [await new Promise(resolve => setTimeout(resolve, ms))]. *)
Inductive Effect :=
| ENewClient (userId : string) (c : Client)
| EInitialize (c : Client)
| ELogout (c : Client)
| EDestroy (c : Client)
| EGetNumberId (c : Client) (number : string)
| ESendMessage (c : Client) (chatId : string) (p : Payload)
| ERm (path : string)
| EUnlinkSync (path : string)
| EUnlink (path : string)
| EReadFileSync (path : string)
| ERespond (code : nat) (body : ResponseBody)
| ESleep (ms : Z)
| ELockReleased (userId : string)
| ELog (lvl : LogLevel) (msg : string)
| EReport (enviados fallidos : nat) (total : nat) (failed : list FailedNumber).

(** The process and its surroundings. *)
Record World := mkWorld {
  sm : SessionManager;
  disk : gset string;
  trace : list Effect;
  clock : Z;
  next_client : Client
}.

(** How a statement completes. *)
Inductive Completion (A : Type) :=
| Normal (a : A)
| Thrown (message : string).
Arguments Normal {A} a.
Arguments Thrown {A} message.

(** The outside world's answers.  An [option string] answer is [None] when
    the call succeeds and [Some msg] when it throws (or rejects with) an
    error whose message is [msg].  [dirname] is the [__dirname] of
    [sessionManager.js], an absolute path. *)
Record Env := mkEnv {
  client_ctor : list Effect -> string -> option string;
  client_initialize : list Effect -> Client -> option string;
  client_logout : list Effect -> Client -> option string;
  client_destroy : list Effect -> Client -> option string;
  client_getNumberId : list Effect -> Client -> string -> Completion (option string);
  client_sendMessage : list Effect -> Client -> string -> Payload -> option string;
  fs_readFileSync : list Effect -> string -> Completion string;
  JSON_parse : string -> Completion Json;
  parseInt10 : option string -> option Z;
  fs_unlinkSync : list Effect -> string -> option string;
  dirname : string
}.

(** ** The monad of statements *)

Definition M (A : Type) : Type := World -> Completion A * World.

Definition ret {A} (a : A) : M A := fun w => (Normal a, w).

Definition bind {A B} (m : M A) (k : A -> M B) : M B :=
  fun w =>
    match m w with
    | (Normal a, w') => k a w'
    | (Thrown e, w') => (Thrown e, w')
    end.

Definition throw {A} (e : string) : M A := fun w => (Thrown e, w).

(** [try { body } catch (e) { handler }] *)
Definition try_catch {A} (body : M A) (handler : string -> M A) : M A :=
  fun w =>
    match body w with
    | (Normal a, w') => (Normal a, w')
    | (Thrown e, w') => handler e w'
    end.

(** [try { body } finally { fin }] *)
Definition try_finally {A} (body : M A) (fin : M unit) : M A :=
  fun w =>
    match body w with
    | (r, w') =>
        match fin w' with
        | (Normal _, w'') => (r, w'')
        | (Thrown e, w'') => (Thrown e, w'')
        end
    end.

Declare Scope js_scope.
Delimit Scope js_scope with js.
Notation "'let*' x ':=' m 'in' k" := (bind m (fun x => k))
  (at level 10, x name, m at level 100, k at level 200) : js_scope.
Notation "m ';;;' k" := (bind m (fun _ => k))
  (at level 100, k at level 200, right associativity) : js_scope.
Open Scope js_scope.

Definition gets {A} (f : SessionManager -> A) : M A :=
  fun w => (Normal (f (sm w)), w).

Definition set_sm (s : SessionManager) (w : World) : World :=
  mkWorld s (disk w) (trace w) (clock w) (next_client w).

Definition modify (f : SessionManager -> SessionManager) : M unit :=
  fun w => (Normal tt, set_sm (f (sm w)) w).

Definition add_effect (e : Effect) (w : World) : World :=
  mkWorld (sm w) (disk w) (trace w ++ [e]) (clock w) (next_client w).

Definition emit (e : Effect) : M unit :=
  fun w => (Normal tt, add_effect e w).

(** A call to the outside: it is recorded, then it returns or throws as
    the oracle says for the trace before the call. *)
Definition external (e : Effect) (answer : list Effect -> option string) : M unit :=
  fun w =>
    match answer (trace w) with
    | None => (Normal tt, add_effect e w)
    | Some msg => (Thrown msg, add_effect e w)
    end.

(** [Date.now()] *)
Definition Date_now : M Z := fun w => (Normal (clock w), w).

(** [logger.info/warn/error(msg, ...)] *)
Definition logger (lvl : LogLevel) (msg : string) : M unit := emit (ELog lvl msg).

(** [for (const x of l) { body(x) }] *)
Fixpoint for_of {A} (l : list A) (body : A -> M unit) : M unit :=
  match l with
  | [] => ret tt
  | x :: r => body x ;;; for_of r body
  end.

(** ** [SessionManager] (src/utils/sessionManager.js) *)

Section Program.

Context (cfg : Config) (env : Env).

(** *** Setters for the five maps *)

Definition sessions_set (k : string) (c : Client) (s : SessionManager) :=
  mkSessionManager (<[k := c]> (sessions s)) (qrCodes s) (sessionStatus s)
    (lastActivity s) (sessionLocks s).

Definition qrCodes_set (k : string) (q : option string) (s : SessionManager) :=
  mkSessionManager (sessions s) (<[k := q]> (qrCodes s)) (sessionStatus s)
    (lastActivity s) (sessionLocks s).

Definition sessionStatus_set (k : string) (st : Status) (s : SessionManager) :=
  mkSessionManager (sessions s) (qrCodes s) (<[k := st]> (sessionStatus s))
    (lastActivity s) (sessionLocks s).

Definition lastActivity_set (k : string) (t : Z) (s : SessionManager) :=
  mkSessionManager (sessions s) (qrCodes s) (sessionStatus s)
    (JsMap.set k t (lastActivity s)) (sessionLocks s).

Definition sessionLocks_set (k : string) (t : Z) (s : SessionManager) :=
  mkSessionManager (sessions s) (qrCodes s) (sessionStatus s)
    (lastActivity s) (<[k := t]> (sessionLocks s)).

Definition sessionLocks_delete (k : string) (s : SessionManager) :=
  mkSessionManager (sessions s) (qrCodes s) (sessionStatus s)
    (lastActivity s) (delete k (sessionLocks s)).

(** The five [delete] calls of [destroySession]. *)
Definition purge (k : string) (s : SessionManager) :=
  mkSessionManager (delete k (sessions s)) (delete k (qrCodes s))
    (delete k (sessionStatus s)) (JsMap.delete k (lastActivity s))
    (delete k (sessionLocks s)).

(** *** Collaborators *)

(** [path.join(__dirname, '..', '.wwebjs_auth', `session-${userId}`)] *)
Definition sessionAuthPath (userId : string) : string :=
  Path.join [dirname env; ".."; ".wwebjs_auth"; "session-" +:+ userId].

(** [path.join(__dirname, '..', `.wwebjs_cache_${userId}`)] *)
Definition sessionCachePath (userId : string) : string :=
  Path.join [dirname env; ".."; ".wwebjs_cache_" +:+ userId].

(** [new Client({...})]: a fresh handle, unless the constructor throws. *)
Definition new_Client (userId : string) : M Client :=
  fun w =>
    match client_ctor env (trace w) userId with
    | Some msg => (Thrown msg, w)
    | None =>
        let c := next_client w in
        (Normal c,
         mkWorld (sm w) (disk w) (trace w ++ [ENewClient userId c]) (clock w)
           (S c))
    end.

(** [fs.existsSync(dirPath)] *)
Definition fs_existsSync (dirPath : string) : M bool :=
  fun w => (Normal (bool_decide (dirPath ∈ disk w)), w).

(** [fs.rm(dirPath, { recursive: true, force: true }, cb)]: the removal
    is requested.  The call returns at once; the directory goes, and [cb]
    runs, later ([fs_rm_done]). *)
Definition fs_rm (dirPath : string) : M unit := emit (ERm dirPath).

(** [p] is the directory [dirPath] or lies below it. *)
Definition below (dirPath p : string) : bool :=
  String.eqb p dirPath
  || String.eqb dirPath "/"
  || String.prefix (dirPath +:+ "/") p.

(** A removal that [fs.rm] was asked for comes to its end: the
    directory is gone with all that is below it ([recursive: true]), or
    the callback of [removeDir] logs the error (lines 180-186). *)
Definition fs_rm_done (dirPath dirName : string) (err : option string) : M unit :=
  match err with
  | None =>
      fun w =>
        (Normal tt,
         mkWorld (sm w) (filter (fun p => below dirPath p = false) (disk w))
           (trace w) (clock w) (next_client w))
  | Some _ => logger LError ("Error removing " +:+ dirName +:+ " folder")
  end.

(** The local [removeDir] of [destroySession]. *)
Definition removeDir (dirPath dirName : string) : M unit :=
  let* there := fs_existsSync dirPath in
  if there then fs_rm dirPath else ret tt.

(** *** Methods *)

(** [async destroySession(userId)] (lines 145-191) *)
Definition destroySession (userId : string) : M unit :=
  let* client := gets (fun s => sessions s !! userId) in
  match client with
  | Some c =>
      try_catch
        (let* status := gets (fun s => sessionStatus s !! userId) in
         if status_includes [ready; authenticated] status
         then external (ELogout c) (fun t => client_logout env t c)
         else ret tt)
        (fun _ => logger LWarn "Error during logout") ;;;
      try_catch
        (external (EDestroy c) (fun t => client_destroy env t c))
        (fun _ => logger LError "Error destroying client")
  | None => ret tt
  end ;;;
  modify (purge userId) ;;;
  removeDir (sessionAuthPath userId) "Session auth" ;;;
  removeDir (sessionCachePath userId) "Session cache".

(** [destroySession(userId)] called and not awaited (lines 135 and 141):
    the part that runs before the caller goes on.  With a client it runs
    up to the first [await], where the call on the client has been made;
    without one the function has no [await] and runs to its end. *)
Definition destroySession_begin (userId : string) : M (option Pause) :=
  let* client := gets (fun s => sessions s !! userId) in
  match client with
  | Some c =>
      let* status := gets (fun s => sessionStatus s !! userId) in
      if status_includes [ready; authenticated] status
      then emit (ELogout c) ;;; ret (Some (at_logout c))
      else emit (EDestroy c) ;;; ret (Some (at_destroy c))
  | None =>
      modify (purge userId) ;;;
      removeDir (sessionAuthPath userId) "Session auth" ;;;
      removeDir (sessionCachePath userId) "Session cache" ;;;
      ret None
  end.

(** The same call going on from a pause, once the call it awaits has
    settled: up to the next [await], or to the end. *)
Definition destroySession_resume (userId : string) (p : Pause)
    (outcome : option string) : M (option Pause) :=
  match p with
  | at_logout c =>
      match outcome with
      | Some _ => logger LWarn "Error during logout"
      | None => ret tt
      end ;;;
      emit (EDestroy c) ;;;
      ret (Some (at_destroy c))
  | at_destroy c =>
      match outcome with
      | Some _ => logger LError "Error destroying client"
      | None => ret tt
      end ;;;
      modify (purge userId) ;;;
      removeDir (sessionAuthPath userId) "Session auth" ;;;
      removeDir (sessionCachePath userId) "Session cache" ;;;
      ret None
  end.

(** [getSession(userId)] *)
Definition getSession (userId : string) : M (option Client) :=
  gets (fun s => sessions s !! userId).

(** [getSessionStatus(userId)] *)
Definition getSessionStatus (userId : string) : M Status :=
  gets (fun s => default no_session (sessionStatus s !! userId)).

(** [getQRCode(userId)]: [undefined], [null] or the payload. *)
Definition getQRCode (userId : string) : M (option (option string)) :=
  gets (fun s => qrCodes s !! userId).

(** [updateActivity(userId)] *)
Definition updateActivity (userId : string) : M unit :=
  let* now := Date_now in
  modify (lastActivity_set userId now).

(** The loop of [getOldestSession]: the pair
    [(oldestUserId, oldestTime)] after the entries of [l]. *)
Definition oldest_step (acc : option string * Z) (e : string * Z) : option string * Z :=
  if snd e <? snd acc then (Some (fst e), snd e) else acc.

(** [getOldestSession()] (lines 209-221) *)
Definition getOldestSession : M (option string) :=
  let* now := Date_now in
  let* la := gets lastActivity in
  ret (fst (fold_left oldest_step la (None, now))).

(** The status list of the short-circuit of [createSession]. *)
Definition live_statuses : list Status :=
  [ready; initializing; needs_scan; authenticated].

(** What [createSession] resolves to. *)
Record CreateResult := mkCreateResult {
  cr_success : bool;
  cr_message : option string;
  cr_error : option string;
  cr_status : option Status
}.

(** What the [catch] of [createSession] returns (lines 102-106). *)
Definition init_failed (message : string) : CreateResult :=
  mkCreateResult false None (Some ("Failed to initialize session: " +:+ message))
    (Some init_error).

(** The [catch] of [createSession] (lines 99-107). *)
Definition create_failed (userId message : string) : M CreateResult :=
  logger LError "Error creating session" ;;;
  destroySession userId ;;;
  ret (init_failed message).

(** The [try { ... } catch (error) { ... }] of [createSession]
    (lines 66-107), with nothing happening between the call of
    [client.initialize()] and its settling. *)
Definition create_new (userId : string) : M CreateResult :=
  try_catch
    (modify (sessionStatus_set userId initializing) ;;;
     modify (qrCodes_set userId None) ;;;
     (let* now := Date_now in modify (lastActivity_set userId now)) ;;;
     let* client := new_Client userId in
     modify (sessions_set userId client) ;;;
     external (EInitialize client) (fun t => client_initialize env t client) ;;;
     let* status := gets (fun s => sessionStatus s !! userId) in
     ret (mkCreateResult true (Some "Session initialization finished.") None
            status))
    (create_failed userId).

(** The same [try], split at [await client.initialize()] (line 91).
    Up to the [await]: the call on the client has been made and is
    pending ([inr]), unless the constructor threw and the [catch] has
    run ([inl]). *)
Definition create_new_begin (userId : string) : M (CreateResult + Client) :=
  try_catch
    (modify (sessionStatus_set userId initializing) ;;;
     modify (qrCodes_set userId None) ;;;
     (let* now := Date_now in modify (lastActivity_set userId now)) ;;;
     let* client := new_Client userId in
     modify (sessions_set userId client) ;;;
     emit (EInitialize client) ;;;
     ret (inr client))
    (fun message =>
       let* result := create_failed userId message in
       ret (inl result)).

(** From the moment [initialize] settles, resolved ([None]) or rejected
    with a message (lines 91-107).  It runs in the world as it is by
    then: the handlers of the client, and other requests, may have run
    while the call was pending. *)
Definition create_new_resume (userId : string) (outcome : option string)
    : M CreateResult :=
  try_catch
    (match outcome with
     | Some message => throw message
     | None => ret tt
     end ;;;
     let* status := gets (fun s => sessionStatus s !! userId) in
     ret (mkCreateResult true (Some "Session initialization finished.") None
            status))
    (create_failed userId).

(** The first [if] of [createSession] (lines 43-52): at the session
    limit, the oldest session is destroyed. *)
Definition enforce_limit : M unit :=
  let* size := gets (fun s => size (sessions s)) in
  if maxSessions (cfg_sessions cfg) <=? Z.of_nat size then
    let* oldestSession := getOldestSession in
    match oldestSession with
    | Some o => if JsString.truthy o then destroySession o else ret tt
    | None => ret tt
    end
  else ret tt.

(** [async createSession(userId)] (lines 41-108) *)
Definition createSession (userId : string) : M CreateResult :=
  enforce_limit ;;;
  let* client := gets (fun s => sessions s !! userId) in
  match client with
  | Some _ =>
      let* status := gets (fun s => sessionStatus s !! userId) in
      if status_includes live_statuses status then
        ret (mkCreateResult true
               (Some ("Session already " +:+
                      match status with
                      | Some st => Status_to_string st
                      | None => "undefined"
                      end))
               None status)
      else destroySession userId ;;; create_new userId
  | None => create_new userId
  end.

(** *** The event handlers wired by [setupEventHandlers] (lines 110-143) *)

Definition on_qr (userId qr : string) : M unit :=
  modify (qrCodes_set userId (Some qr)) ;;;
  modify (sessionStatus_set userId needs_scan) ;;;
  updateActivity userId.

Definition on_ready (userId : string) : M unit :=
  modify (sessionStatus_set userId ready) ;;;
  modify (qrCodes_set userId None) ;;;
  updateActivity userId.

Definition on_authenticated (userId : string) : M unit :=
  modify (sessionStatus_set userId authenticated) ;;;
  modify (qrCodes_set userId None) ;;;
  updateActivity userId.

(** The handlers of [auth_failure] and [disconnected] call
    [destroySession] and do not await it: they return where it pauses. *)
Definition on_auth_failure (userId : string) : M (option Pause) :=
  logger LError "Authentication failed" ;;;
  modify (sessionStatus_set userId auth_failure) ;;;
  destroySession_begin userId.

Definition on_disconnected (userId : string) : M (option Pause) :=
  modify (sessionStatus_set userId disconnected) ;;;
  destroySession_begin userId.

(** The dispatch of the lifecycle signals to the handlers above. *)
Definition handle_event (userId : string) (ev : ClientEvent)
    : M (option Pause) :=
  match ev with
  | ev_qr qr => on_qr userId qr ;;; ret None
  | ev_ready => on_ready userId ;;; ret None
  | ev_authenticated => on_authenticated userId ;;; ret None
  | ev_auth_failure => on_auth_failure userId
  | ev_disconnected => on_disconnected userId
  end.

(** The status a handler writes. *)
Definition event_status (ev : ClientEvent) : Status :=
  match ev with
  | ev_qr _ => needs_scan
  | ev_ready => ready
  | ev_authenticated => authenticated
  | ev_auth_failure => auth_failure
  | ev_disconnected => disconnected
  end.

(** *** Idle cleanup (lines 223-261) *)

(** [now - lastActivity > timeoutMs], where
    [timeoutMs = config.sessions.timeoutMinutes * 60 * 1000] is [NaN]
    when the configuration has no [timeoutMinutes]: every comparison
    with [NaN] is false. *)
Definition idle (now : Z) (e : string * Z) : bool :=
  match timeoutMinutes (cfg_sessions cfg) with
  | Some m => m * 60 * 1000 <? now - snd e
  | None => false
  end.

(** [async cleanupInactiveSessions()] *)
Definition cleanupInactiveSessions : M unit :=
  let* now := Date_now in
  let* la := gets lastActivity in
  let sessionsToRemove := map fst (filter (fun e => idle now e = true) la) in
  for_of sessionsToRemove destroySession.

(** The callback [startCleanupScheduler] hands to [setInterval]. *)
Definition cleanup_tick : M unit :=
  try_catch cleanupInactiveSessions
    (fun _ => logger LError "Error during cleanup").

(** *** Locks (lines 279-290) *)

(** [async acquireLock(userId)] *)
Definition acquireLock (userId : string) : M bool :=
  let* held := gets (fun s => bool_decide (is_Some (sessionLocks s !! userId))) in
  if held then ret false
  else
    let* now := Date_now in
    modify (sessionLocks_set userId now) ;;;
    ret true.

(** [releaseLock(userId)]; the release is also noted in the trace, so
    that it can be ordered against what leaves the process. *)
Definition releaseLock (userId : string) : M unit :=
  modify (sessionLocks_delete userId) ;;;
  emit (ELockReleased userId).

(** ** Bulk dispatch: [POST /send-messages] (src/index.js, lines 363-526) *)

(** The multipart form fields ([req.body]) and the upload ([req.file]). *)
Record Request := mkRequest {
  req_userId : option string;
  req_message : option string;
  req_delay : option string;
  req_numbers : option string;
  req_mensajesPorNumero : option string;
  req_file : option MediaFile
}.

(** The counters and the failure list of one job. *)
Record Tally := mkTally {
  enviados : nat;
  fallidos : nat;
  failedNumbers : list FailedNumber
}.

(** [enviados++] *)
Definition count_sent (t : Tally) : Tally :=
  mkTally (S (enviados t)) (fallidos t) (failedNumbers t).

(** [failedNumbers.push({ number, reason }); fallidos++] *)
Definition count_failed (number reason : string) (t : Tally) : Tally :=
  mkTally (enviados t) (S (fallidos t))
    (failedNumbers t ++ [mkFailedNumber number reason]).

(** The reason recorded when [getNumberId] finds no id (line 489). *)
Definition not_valid_reason : string := "Not a valid WhatsApp number".

(** Lines 464-470: from the raw recipient to the number that is resolved. *)
Definition normalizeNumber (originalNumber : string) : string :=
  let numberOnly := JsString.strip_non_digits originalNumber in
  if negb (JsString.includes_char "+" originalNumber)
     && (String.length numberOnly =? 8)%nat
     && negb (JsString.startsWith "591" numberOnly)
  then "591" +:+ numberOnly
  else if JsString.includes_char "+" originalNumber
       then JsString.strip_non_digits originalNumber
       else numberOnly.

Definition lift {A} (c : Completion A) : M A := fun w => (c, w).

Definition respond (code : nat) (body : ResponseBody) : M unit :=
  emit (ERespond code body).

(** [if (mediaFile) fs.unlinkSync(mediaFile.path)] *)
Definition unlink_upload_sync (mediaFile : option MediaFile) : M unit :=
  match mediaFile with
  | Some f =>
      external (EUnlinkSync (mf_path f))
        (fun t => fs_unlinkSync env t (mf_path f))
  | None => ret tt
  end.

(** [if (mediaFile) fs.unlink(mediaFile.path, cb)] *)
Definition unlink_upload (mediaFile : option MediaFile) : M unit :=
  match mediaFile with
  | Some f => emit (EUnlink (mf_path f))
  | None => ret tt
  end.

(** [mensajesPorNumero[i] || message || ""] *)
Definition message_for (mensajesPorNumero : list Json) (message : option string)
    (i : nat) : Json :=
  Js.or_undef (mensajesPorNumero !! i) (JStr (Js.str_or message "")).

(** The body of the [try] of lines 395-402. *)
Definition parse_lists (req : Request) : M (list Json * list Json) :=
  let* numbersRaw := lift (JSON_parse env (Js.str_or (req_numbers req) "[]")) in
  let* mensajesPorNumero :=
    lift (JSON_parse env (Js.str_or (req_mensajesPorNumero req) "[]")) in
  match numbersRaw with
  | JArr numbers =>
      let mensajes1 :=
        match mensajesPorNumero with
        | JArr l => l
        | _ => map (fun _ => JStr (Js.str_or (req_message req) "")) numbers
        end in
      let mensajes2 :=
        if (length mensajes1 =? length numbers)%nat then mensajes1
        else imap (fun index _ => message_for mensajes1 (req_message req) index)
               numbers in
      ret (numbers, mensajes2)
  | _ => throw "Invalid 'numbers' array."
  end.

(** Lines 422-440: the upload as a [MessageMedia], or [null] when it
    cannot be read.  The oracle gives the content already in base64. *)
Definition load_media (mediaFile : option MediaFile) : M (option MessageMedia) :=
  match mediaFile with
  | Some f =>
      try_catch
        (let* fileContent :=
           (fun w =>
              (fs_readFileSync env (trace w) (mf_path f),
               add_effect (EReadFileSync (mf_path f)) w)) in
         logger LInfo "Media file processed" ;;;
         ret (Some (mkMessageMedia (mf_mimetype f) fileContent
                      (mf_originalname f))))
        (fun _ =>
           logger LError "Error processing media file" ;;;
           emit (EUnlink (mf_path f)) ;;;
           ret None)
  | None => ret None
  end.

(** [await client.getNumberId(numberOnly)] *)
Definition getNumberId (client : Client) (numberOnly : string) : M (option string) :=
  fun w =>
    (client_getNumberId env (trace w) client numberOnly,
     add_effect (EGetNumberId client numberOnly) w).

(** [await client.sendMessage(chatId, ...)] *)
Definition sendMessage (client : Client) (chatId : string) (p : Payload) : M unit :=
  external (ESendMessage client chatId p)
    (fun t => client_sendMessage env t client chatId p).

Section Job.

Context (userId : string) (client : Client) (message : option string)
        (media : option MessageMedia) (mensajesPorNumero : list Json)
        (total : nat) (sendDelay : Z).

(** The [try { ... } catch (err) { ... }] of lines 472-496 for one
    recipient.  The counters only change as the last thing either
    branch does, so the handler sees them as they were on entry. *)
Definition attempt (originalNumber numberOnly : string) (currentMessage : Json)
    (t : Tally) : M Tally :=
  try_catch
    (let* recipientWID := getNumberId client numberOnly in
     match recipientWID with
     | Some chatId =>
         match media with
         | Some m =>
             sendMessage client chatId
               (MediaWithCaption m
                  (if Js.truthy currentMessage then Some currentMessage
                   else None)) ;;;
             logger LInfo "Media sent successfully"
         | None =>
             if Js.truthy currentMessage then
               sendMessage client chatId (Content currentMessage) ;;;
               logger LInfo "Message sent successfully"
             else ret tt
         end ;;;
         ret (count_sent t)
     | None =>
         logger LWarn "Number not registered" ;;;
         ret (count_failed originalNumber not_valid_reason t)
     end)
    (fun err_message =>
       logger LError "Error sending message" ;;;
       ret (count_failed originalNumber
              (Js.str_or (Some err_message) "Send failed") t)).

(** One turn of the [for] loop (lines 462-501).  A recipient that is
    not a string has no [replace] method: line 464 throws a
    [TypeError], outside the per-recipient [try]. *)
Definition send_one (i : nat) (raw : Json) (t : Tally) : M Tally :=
  let currentMessage := message_for mensajesPorNumero message i in
  match raw with
  | JStr originalNumber =>
      let* t' := attempt originalNumber (normalizeNumber originalNumber)
                   currentMessage t in
      (if Z.of_nat i <? Z.of_nat total - 1 then emit (ESleep sendDelay)
       else ret tt) ;;;
      ret t'
  | JNull => throw "Cannot read properties of null (reading 'replace')"
  | _ => throw "originalNumber.replace is not a function"
  end.

(** The [for] loop from index [i] on, over the recipients left. *)
Fixpoint send_loop (i : nat) (rest : list Json) (t : Tally) : M Tally :=
  match rest with
  | [] => ret t
  | raw :: r =>
      let* t' := send_one i raw t in
      send_loop (S i) r t'
  end.

(** The detached [async] function (lines 457-525). *)
Definition background (mediaFile : option MediaFile) (numbersRaw : list Json)
    : M unit :=
  try_finally
    (try_catch
       (updateActivity userId ;;;
        let* t := send_loop 0 numbersRaw (mkTally 0 0 []) in
        emit (EReport (enviados t) (fallidos t) total (failedNumbers t)))
       (fun _ => logger LError "Error in message sending process"))
    (unlink_upload mediaFile ;;;
     releaseLock userId).

End Job.

(** What follows a successful [acquireLock] (lines 393-526). *)
Definition dispatch_locked (req : Request) (userId : string) (client : Client)
    : M unit :=
  let mediaFile := req_file req in
  let message := req_message req in
  let* parsed :=
    try_catch
      (let* p := parse_lists req in ret (Some p))
      (fun _ =>
         unlink_upload_sync mediaFile ;;;
         releaseLock userId ;;;
         respond 400
           (RError "Invalid JSON in numbers or mensajesPorNumero field." None) ;;;
         ret None) in
  match parsed with
  | None => ret tt
  | Some (numbersRaw, mensajesPorNumero) =>
      if negb (Js.opt_truthy message) && negb (bool_decide (is_Some mediaFile))
      then
        unlink_upload_sync mediaFile ;;;
        releaseLock userId ;;;
        respond 400 (RError "Message or media file is required." None)
      else if (length numbersRaw =? 0)%nat then
        unlink_upload_sync mediaFile ;;;
        releaseLock userId ;;;
        respond 400 (RError "No numbers selected to send to." None)
      else
        let sendDelay :=
          match parseInt10 env (req_delay req) with
          | Some d => if d =? 0 then defaultDelay (cfg_messages cfg) else d
          | None => defaultDelay (cfg_messages cfg)
          end in
        let* media := load_media mediaFile in
        let total := length numbersRaw in
        logger LInfo "Starting to send messages" ;;;
        respond 200 (RInitiated total) ;;;
        background userId client message media mensajesPorNumero total
          sendDelay mediaFile numbersRaw
  end.

(** The handler of [POST /send-messages], followed by the job it
    detaches. *)
Definition send_messages (req : Request) : M unit :=
  let mediaFile := req_file req in
  logger LInfo "Starting message send process" ;;;
  match req_userId req with
  | Some userId =>
      if JsString.truthy userId then
        let* client := getSession userId in
        let* status := getSessionStatus userId in
        match client with
        | Some c =>
            if Status_eqb status ready then
              let* locked := acquireLock userId in
              if locked then dispatch_locked req userId c
              else
                unlink_upload_sync mediaFile ;;;
                respond 429
                  (RError "Session is busy, please try again later." None)
            else
              unlink_upload_sync mediaFile ;;;
              respond 400 (RError "WhatsApp session not ready." (Some status))
        | None =>
            unlink_upload_sync mediaFile ;;;
            respond 400 (RError "WhatsApp session not ready." (Some status))
        end
      else
        unlink_upload_sync mediaFile ;;;
        respond 400 (RError "Missing userId" None)
  | None =>
      unlink_upload_sync mediaFile ;;;
      respond 400 (RError "Missing userId" None)
  end.

End Program.

(** ** Concrete worlds, configurations and oracles for the examples *)

Definition empty_manager : SessionManager := mkSessionManager ∅ ∅ ∅ [] ∅.

Definition world_at (t : Z) : World := mkWorld empty_manager ∅ [] t 0%nat.

(** The text [["70000001"]]. *)
Definition one_number_json : string :=
  "[" +:+ String (ascii_of_nat 34) "70000001" +:+ String (ascii_of_nat 34) "]".

(** [JSON.parse] on the texts of the examples: [[]], [[1,2]] and
    [["70000001"]] are arrays; the one other text used, [[70000001], is
    not JSON. *)
Definition JSON_parse_examples (text : string) : Completion Json :=
  if String.eqb text "[]" then Normal (JArr [])
  else if String.eqb text "[1,2]" then Normal (JArr [JNum 1; JNum 2])
  else if String.eqb text one_number_json then Normal (JArr [JStr "70000001"])
  else Thrown "Unexpected end of JSON input".

(** Where [sessionManager.js] lives in the examples. *)
Definition app_dirname : string := "/app/src/utils".

(** Every outside call succeeds; every number resolves to its [@c.us]
    id. *)
Definition env_ok : Env :=
  mkEnv (fun _ _ => None) (fun _ _ => None) (fun _ _ => None) (fun _ _ => None)
    (fun _ _ number => Normal (Some (number +:+ "@c.us")))
    (fun _ _ _ _ => None)
    (fun _ _ => Normal "aGVsbG8=")
    JSON_parse_examples
    (fun _ => None)
    (fun _ _ => None) app_dirname.

(** One session, ["a"], ready since time 100, seen at time 200. *)
Definition world_ready_a : World :=
  mkWorld
    (mkSessionManager {["a" := 0%nat]} {["a" := None]} {["a" := ready]}
       [("a", 100)] ∅)
    {[sessionAuthPath env_ok "a"; sessionCachePath env_ok "a"]} [] 200 1%nat.

(** As [env_ok], but every [logout] and every [destroy] of a client
    throws. *)
Definition env_teardown_throws : Env :=
  mkEnv (fun _ _ => None) (fun _ _ => None)
    (fun _ _ => Some "Protocol error") (fun _ _ => Some "Target closed")
    (fun _ _ number => Normal (Some (number +:+ "@c.us")))
    (fun _ _ _ _ => None)
    (fun _ _ => Normal "aGVsbG8=")
    JSON_parse_examples
    (fun _ => None)
    (fun _ _ => None) app_dirname.

(** Sessions are capped at [n]; idle sessions go after 20 minutes. *)
Definition config_max (n : Z) : Config :=
  mkConfig (mkSessionsConfig n (Some 20) 5) (mkMessagesConfig 8000).

(** Three sessions at time 2000000: ["a"] and ["b"] idle for more than
    twenty minutes, ["c"] seen a minute ago. *)
Definition world_three : World :=
  mkWorld
    (mkSessionManager
       {["a" := 0%nat; "b" := 1%nat; "c" := 2%nat]}
       {["a" := None; "b" := None; "c" := None]}
       {["a" := ready; "b" := needs_scan; "c" := ready]}
       [("a", 100); ("b", 200); ("c", 1940000)] ∅)
    ∅ [] 2000000 3%nat.

(** As [env_ok], but the number 59170000002 is not registered. *)
Definition env_second_unknown : Env :=
  mkEnv (fun _ _ => None) (fun _ _ => None) (fun _ _ => None) (fun _ _ => None)
    (fun _ _ number =>
       if String.eqb number "59170000002" then Normal None
       else Normal (Some (number +:+ "@c.us")))
    (fun _ _ _ _ => None)
    (fun _ _ => Normal "aGVsbG8=")
    JSON_parse_examples
    (fun _ => None)
    (fun _ _ => None) app_dirname.

(** Three local numbers, and the same text for each. *)
Definition three_numbers : list string := ["70000001"; "70000002"; "70000003"].

Definition three_messages : list Json := [JStr "hola"; JStr "hola"; JStr "hola"].

(** A request for session ["a"] whose [numbers] field holds two JSON
    numbers instead of strings, with an upload. *)
Definition request_numbers_not_strings : Request :=
  mkRequest (Some "a") (Some "hola") None (Some "[1,2]") None
    (Some (mkMediaFile "uploads/media-1.png" "image/png" "logo.png")).

(** A request for session ["a"] whose [numbers] field is not JSON. *)
Definition request_bad_json : Request :=
  mkRequest (Some "a") (Some "hola") None (Some "[70000001") None
    (Some (mkMediaFile "uploads/media-2.png" "image/png" "logo.png")).

(** As [env_ok], but every [sendMessage] throws. *)
Definition env_send_throws : Env :=
  mkEnv (fun _ _ => None) (fun _ _ => None) (fun _ _ => None) (fun _ _ => None)
    (fun _ _ number => Normal (Some (number +:+ "@c.us")))
    (fun _ _ _ _ => Some "Evaluation failed")
    (fun _ _ => Normal "aGVsbG8=")
    JSON_parse_examples
    (fun _ => None)
    (fun _ _ => None) app_dirname.

(** As [env_ok], but [fs.unlinkSync] throws on every file: the process
    may not remove what is in the upload directory. *)
Definition env_unlink_throws : Env :=
  mkEnv (fun _ _ => None) (fun _ _ => None) (fun _ _ => None) (fun _ _ => None)
    (fun _ _ number => Normal (Some (number +:+ "@c.us")))
    (fun _ _ _ _ => None)
    (fun _ _ => Normal "aGVsbG8=")
    JSON_parse_examples
    (fun _ => None)
    (fun _ _ => Some "EPERM: operation not permitted, unlink") app_dirname.

(** A request for session ["a"] with no recipient: the [numbers] field
    is the empty list, and there is an upload. *)
Definition request_no_numbers : Request :=
  mkRequest (Some "a") (Some "hola") None (Some "[]") None
    (Some (mkMediaFile "uploads/media-4.png" "image/png" "logo.png")).

(** A process that has just started: nothing in the registry, and the
    directories session ["a"] left on disk in an earlier run. *)
Definition world_restarted : World :=
  mkWorld empty_manager
    {[sessionAuthPath env_ok "a"; sessionCachePath env_ok "a"]} [] 300 0%nat.

(** ** Closed forms used in the proofs *)

(** What the guarded [logout] and [destroy] calls of [destroySession]
    add to the trace. *)
Definition teardown_effects (env : Env) (userId : string) (w : World) : list Effect :=
  match sessions (sm w) !! userId with
  | Some c =>
      let logout :=
        if status_includes [ready; authenticated] (sessionStatus (sm w) !! userId)
        then ELogout c ::
             match client_logout env (trace w) c with
             | Some _ => [ELog LWarn "Error during logout"]
             | None => []
             end
        else [] in
      logout ++
      EDestroy c ::
      match client_destroy env (trace w ++ logout) c with
      | Some _ => [ELog LError "Error destroying client"]
      | None => []
      end
  | None => []
  end.

(** What [removeDir] adds to the trace. *)
Definition rm_effects (dirPath : string) (d : gset string) : list Effect :=
  if bool_decide (dirPath ∈ d) then [ERm dirPath] else [].

(** The world [destroySession] leaves. *)
Definition destroyed (env : Env) (userId : string) (w : World) : World :=
  mkWorld (purge userId (sm w)) (disk w)
    (trace w ++ teardown_effects env userId w
       ++ rm_effects (sessionAuthPath env userId) (disk w)
       ++ rm_effects (sessionCachePath env userId) (disk w))
    (clock w) (next_client w).

(** An id the registry does not know: no record in any of the five
    maps. *)
Definition no_record (userId : string) (s : SessionManager) : Prop :=
  sessions s !! userId = None /\
  qrCodes s !! userId = None /\
  sessionStatus s !! userId = None /\
  JsMap.get userId (lastActivity s) = None /\
  sessionLocks s !! userId = None.

(** An id of which nothing is left: no record, and no directory of its
    own on disk. *)
Definition unknown_id (env : Env) (userId : string) (w : World) : Prop :=
  sessions (sm w) !! userId = None /\
  qrCodes (sm w) !! userId = None /\
  sessionStatus (sm w) !! userId = None /\
  JsMap.get userId (lastActivity (sm w)) = None /\
  sessionLocks (sm w) !! userId = None /\
  (sessionAuthPath env userId ∉ disk w) /\
  (sessionCachePath env userId ∉ disk w).

(** The world after [destroySession] on each id of [l], in order. *)
Definition destroyed_all (env : Env) (l : list string) (w : World) : World :=
  fold_left (fun w0 u => destroyed env u w0) l w.

(** The two worlds hold the same records for the id: the same entry, or
    none, in each of the five maps, and the same directories. *)
Definition same_records (env : Env) (userId : string) (w w' : World) : Prop :=
  sessions (sm w) !! userId = sessions (sm w') !! userId /\
  qrCodes (sm w) !! userId = qrCodes (sm w') !! userId /\
  sessionStatus (sm w) !! userId = sessionStatus (sm w') !! userId /\
  JsMap.get userId (lastActivity (sm w)) = JsMap.get userId (lastActivity (sm w')) /\
  sessionLocks (sm w) !! userId = sessionLocks (sm w') !! userId /\
  (sessionAuthPath env userId ∈ disk w <-> sessionAuthPath env userId ∈ disk w') /\
  (sessionCachePath env userId ∈ disk w <-> sessionCachePath env userId ∈ disk w').

(** The two registries hold the same entry, or none, for the id in each
    of the five maps. *)
Definition same_entries (userId : string) (s s' : SessionManager) : Prop :=
  sessions s !! userId = sessions s' !! userId /\
  qrCodes s !! userId = qrCodes s' !! userId /\
  sessionStatus s !! userId = sessionStatus s' !! userId /\
  JsMap.get userId (lastActivity s) = JsMap.get userId (lastActivity s') /\
  sessionLocks s !! userId = sessionLocks s' !! userId.

(** The removals [fs.rm] was asked for, in order. *)
Definition removals (tr : list Effect) : list string :=
  omap (fun e => match e with ERm p => Some p | _ => None end) tr.

(** The directories of an id that are on disk, in the order in which
    [destroySession] looks for them. *)
Definition dirs_on_disk (env : Env) (userId : string) (d : gset string)
    : list string :=
  filter (fun p => p ∈ d) [sessionAuthPath env userId; sessionCachePath env userId].

(** The numbers [getNumberId] has been called on, in the order of the
    calls. *)
Definition resolved_numbers (tr : list Effect) : list string :=
  omap (fun e => match e with EGetNumberId _ n => Some n | _ => None end) tr.

(** The [sendMessage] calls of a trace: chat id and payload. *)
Definition send_calls (tr : list Effect) : list (string * Payload) :=
  omap (fun e => match e with ESendMessage _ c p => Some (c, p) | _ => None end) tr.

(** What is handed to [sendMessage] for a resolved recipient, if
    anything (lines 478-484). *)
Definition payload_for (media : option MessageMedia) (currentMessage : Json)
    : option Payload :=
  match media with
  | Some m =>
      Some (MediaWithCaption m
              (if Js.truthy currentMessage then Some currentMessage else None))
  | None =>
      if Js.truthy currentMessage then Some (Content currentMessage) else None
  end.

(** The counters before the first recipient. *)
Definition tally0 : Tally := mkTally 0 0 [].

(** A statement only ever adds to the trace. *)
Definition grows {A} (m : M A) : Prop :=
  forall w, exists more, trace (snd (m w)) = (trace w ++ more)%list.

(** What removing the upload adds to the trace: synchronously on the
    rejection paths, through a callback after the job. *)
Definition unlink_sync_effects (mediaFile : option MediaFile) : list Effect :=
  match mediaFile with Some f => [EUnlinkSync (mf_path f)] | None => [] end.

Definition unlink_effects (mediaFile : option MediaFile) : list Effect :=
  match mediaFile with Some f => [EUnlink (mf_path f)] | None => [] end.

(** Whether [fs.unlinkSync] throws when it is called on the upload after
    the trace [t], and with what message; without an upload it is not
    called. *)
Definition unlink_fails (env : Env) (mediaFile : option MediaFile)
    (t : list Effect) : option string :=
  match mediaFile with
  | Some f => fs_unlinkSync env t (mf_path f)
  | None => None
  end.

(** The world after [if (mediaFile) fs.unlinkSync(mediaFile.path)]. *)
Definition unlinked (mediaFile : option MediaFile) (w : World) : World :=
  mkWorld (sm w) (disk w) (trace w ++ unlink_sync_effects mediaFile) (clock w)
    (next_client w).

(** How a call that may throw completes. *)
Definition completion_of (outcome : option string) : Completion unit :=
  match outcome with
  | None => Normal tt
  | Some msg => Thrown msg
  end.

(** The registry as a sequence of [createSession] calls leaves it: the
    session map and the activity map have the same ids, the cap holds, and
    every activity stamp is older than the current time by at least
    [slack], on an id that is not the empty string. *)
Definition registry_ok (cfg : Config) (slack : Z) (w : World) : Prop :=
  (forall u, is_Some (sessions (sm w) !! u) <->
             is_Some (JsMap.get u (lastActivity (sm w)))) /\
  Z.of_nat (size (sessions (sm w))) <= maxSessions (cfg_sessions cfg) /\
  (forall u t, (u, t) ∈ lastActivity (sm w) ->
     t + slack <= clock w /\ JsString.truthy u = true).

(** Time passes. *)
Definition advance (d : Z) (w : World) : World :=
  mkWorld (sm w) (disk w) (trace w) (clock w + d) (next_client w).


(** The maps after the three writes that open the [try] of
    [createSession]. *)
Definition touched (userId : string) (w : World) : SessionManager :=
  lastActivity_set userId (clock w)
    (qrCodes_set userId None (sessionStatus_set userId initializing (sm w))).

(** A client whose answers do not depend on what happened before:
    [getNumberId] resolves a number as [resolve] says and never throws, and
    [sendMessage] always succeeds. *)
Definition steady (env : Env) (resolve : string -> option string) : Prop :=
  (forall tr c n, client_getNumberId env tr c n = Normal (resolve n)) /\
  (forall tr c chatId p, client_sendMessage env tr c chatId p = None).

(** The recipients of [l] that [resolve] does not know. *)
Definition unresolved (resolve : string -> option string) (l : list string)
    : list string :=
  filter (fun s => resolve (normalizeNumber s) = None) l.

(** ** Readings of the trace *)

(** What the loop over the recipients may add to the trace: resolutions
    and sends on the client of the job, log lines and timers.  A send
    carries the media of the job if it has one and plain content if it
    has none. *)
Definition loop_effect (client : Client) (media : option MessageMedia)
    (e : Effect) : Prop :=
  match e with
  | EGetNumberId c _ => c = client
  | ESendMessage c _ (MediaWithCaption m _) => c = client /\ media = Some m
  | ESendMessage c _ (Content _) => c = client /\ media = None
  | ELog _ _ | ESleep _ => True
  | _ => False
  end.


(** What reading and wrapping the upload may add to the trace. *)
Definition upload_effect (e : Effect) : Prop :=
  match e with
  | EReadFileSync _ | ELog _ _ | EUnlink _ => True
  | _ => False
  end.

(** The request is one for which the handler takes the session lock:
    it names a session that exists, is [ready] and is not locked. *)
Definition takes_lock (req : Request) (w : World) : bool :=
  match req_userId req with
  | Some userId =>
      JsString.truthy userId
      && bool_decide (is_Some (sessions (sm w) !! userId))
      && Status_eqb (default no_session (sessionStatus (sm w) !! userId)) ready
      && negb (bool_decide (is_Some (sessionLocks (sm w) !! userId)))
  | None => false
  end.





(** The answers given on the HTTP response, in order. *)
Definition responses (tr : list Effect) : list (nat * ResponseBody) :=
  omap (fun e => match e with ERespond c b => Some (c, b) | _ => None end) tr.

(** The reports logged at the end of a job. *)
Definition reports (tr : list Effect) : list (nat * nat) :=
  omap (fun e => match e with EReport s f _ _ => Some (s, f) | _ => None end) tr.

(** The asynchronous removals of an upload that were asked for. *)
Definition unlinks (tr : list Effect) : list string :=
  omap (fun e => match e with EUnlink p => Some p | _ => None end) tr.

(** The calls made on a client: constructor apart, everything that
    reaches it. *)
Definition client_calls (tr : list Effect) : list Effect :=
  omap (fun e =>
          match e with
          | EInitialize _ | ELogout _ | EDestroy _ | EGetNumberId _ _
          | ESendMessage _ _ _ => Some e
          | _ => None
          end) tr.

(** A statement adds to the trace, and adds only effects that satisfy
    [P]. *)
Definition adds_only {A} (P : Effect -> Prop) (m : M A) : Prop :=
  forall w, exists more,
    trace (snd (m w)) = (trace w ++ more)%list /\ Forall P more.

(** What the detached job may add to the trace: what its loop adds, its
    report, the removal of its upload and the release of its lock. *)
Definition job_effect (userId : string) (client : Client)
    (media : option MessageMedia) (mediaFile : option MediaFile) (e : Effect)
    : Prop :=
  match e with
  | EReport _ _ _ _ => True
  | EUnlink p => mf_path <$> mediaFile = Some p
  | ELockReleased u => u = userId
  | _ => loop_effect client media e
  end.

(** Anything but an answer on the HTTP response. *)
Definition no_response (e : Effect) : Prop :=
  match e with
  | ERespond _ _ => False
  | _ => True
  end.

(** Two worlds that differ in their trace at most. *)
Definition same_store (w w' : World) : Prop :=
  sm w' = sm w /\ disk w' = disk w /\ clock w' = clock w /\
  next_client w' = next_client w.

(** A statement that changes the trace at most. *)
Definition keeps_store {A} (m : M A) : Prop :=
  forall w, same_store w (snd (m w)).

(** [parseInt(delay, 10) || config.messages.defaultDelay] (line 421) *)
Definition chosen_delay (cfg : Config) (env : Env) (req : Request) : Z :=
  match parseInt10 env (req_delay req) with
  | Some d => if d =? 0 then defaultDelay (cfg_messages cfg) else d
  | None => defaultDelay (cfg_messages cfg)
  end.

(** The code and the body of the refusal of a request that does not get
    as far as the lock. *)
Definition refusal (req : Request) (w : World) : nat * ResponseBody :=
  match req_userId req with
  | Some userId =>
      if JsString.truthy userId then
        let status := default no_session (sessionStatus (sm w) !! userId) in
        if bool_decide (is_Some (sessions (sm w) !! userId))
           && Status_eqb status ready
        then (429%nat, RError "Session is busy, please try again later." None)
        else (400%nat, RError "WhatsApp session not ready." (Some status))
      else (400%nat, RError "Missing userId" None)
  | None => (400%nat, RError "Missing userId" None)
  end.

(** The request passes the checks that follow the lock: both lists
    parse, there is a message or an upload, and there is a recipient. *)
Definition passes_checks (env : Env) (req : Request) (w : World) : bool :=
  match fst (parse_lists env req w) with
  | Normal (numbersRaw, _) =>
      (Js.opt_truthy (req_message req)
       || bool_decide (is_Some (req_file req)))
      && negb (length numbersRaw =? 0)%nat
  | Thrown _ => false
  end.

(** The request is one the handler accepts: it takes the lock and
    passes the checks. *)
Definition accepts (env : Env) (req : Request) (w : World) : bool :=
  takes_lock req w && passes_checks env req w.

(** Whether the [unlinkSync] of a request that is not accepted throws.
    On every such path it is the first call after the opening log
    line. *)
Definition refusal_unlink (env : Env) (req : Request) (w : World)
    : option string :=
  unlink_fails env (req_file req)
    (trace w ++ [ELog LInfo "Starting message send process"]).

(** The sends of a trace that carry a media. *)
Definition media_sends (tr : list Effect) : list MessageMedia :=
  omap (fun e =>
          match e with
          | ESendMessage _ _ (MediaWithCaption m _) => Some m
          | _ => None
          end) tr.

(** As [env_ok], on a disk on which no upload can be read. *)
Definition env_unreadable : Env :=
  mkEnv (fun _ _ => None) (fun _ _ => None) (fun _ _ => None) (fun _ _ => None)
    (fun _ _ number => Normal (Some (number +:+ "@c.us")))
    (fun _ _ _ _ => None)
    (fun _ _ => Thrown "ENOENT: no such file or directory")
    JSON_parse_examples
    (fun _ => None)
    (fun _ _ => None) app_dirname.

(** A request for session ["a"]: one recipient, a text and an upload. *)
Definition request_with_upload : Request :=
  mkRequest (Some "a") (Some "hola") None (Some one_number_json) None
    (Some (mkMediaFile "uploads/media-3.png" "image/png" "logo.png")).

(** [world_ready_a] while a job holds the lock of ["a"]. *)
Definition world_busy_a : World :=
  set_sm (sessionLocks_set "a" 150 (sm world_ready_a)) world_ready_a.

(** A client that knows every number but 59170000002. *)
Definition resolve_but_second (n : string) : option string :=
  if String.eqb n "59170000002" then None else Some (n +:+ "@c.us").

(** The session the limit check of [createSession] destroys, if any
    (lines 43-52). *)
Definition evicted (cfg : Config) (w : World) : option string :=
  if maxSessions (cfg_sessions cfg) <=? Z.of_nat (size (sessions (sm w)))
  then
    match fst (fold_left oldest_step (lastActivity (sm w)) (None, clock w)) with
    | Some o => if JsString.truthy o then Some o else None
    | None => None
    end
  else None.

(** ** The unified configuration (src/unnamed/part_001) *)

(** [parseInt(v) || d]: [None] stands for [NaN]. *)
Definition int_or (v : option Z) (d : Z) : Z :=
  match v with
  | Some z => if z =? 0 then d else z
  | None => d
  end.

(** [config.sessions] and [config.messages.defaultDelay], from what
    [parseInt] makes of the variables [MAX_SESSIONS] and
    [CLEANUP_INTERVAL_MINUTES].  The object has no [timeoutMinutes]. *)
Definition config_unified (MAX_SESSIONS CLEANUP_INTERVAL_MINUTES : option Z)
    : Config :=
  mkConfig
    (mkSessionsConfig (int_or MAX_SESSIONS 50) None
       (int_or CLEANUP_INTERVAL_MINUTES 1440))
    (mkMessagesConfig 8000).

(** [config.sessions] and [config.messages.defaultDelay] of the
    configuration for the professional plan (src/config-render-pro.js),
    which is not the one the program requires.  It reads
    [SESSION_TIMEOUT_MINUTES] too. *)
Definition config_render_pro
    (MAX_SESSIONS SESSION_TIMEOUT_MINUTES CLEANUP_INTERVAL_MINUTES : option Z)
    : Config :=
  mkConfig
    (mkSessionsConfig (int_or MAX_SESSIONS 50)
       (Some (int_or SESSION_TIMEOUT_MINUTES 60))
       (int_or CLEANUP_INTERVAL_MINUTES 15))
    (mkMessagesConfig 5000).

(** ** [getStats] (src/utils/sessionManager.js, lines 263-277) *)

(** The object [getStats] returns, [memoryUsage] apart. *)
Record Stats := mkStats {
  totalSessions : nat;
  stats_maxSessions : Z;
  sessionsByStatus : gmap string nat
}.

(** [stats.sessionsByStatus[status] =
     (stats.sessionsByStatus[status] || 0) + 1] *)
Definition count_status (acc : gmap string nat) (status : Status)
    : gmap string nat :=
  <[Status_to_string status :=
      S (default 0%nat (acc !! Status_to_string status))]> acc.

(** [getStats()], where [values] are the statuses in the order in which
    [this.sessionStatus.values()] yields them. *)
Definition getStats (cfg : Config) (values : list Status) (s : SessionManager)
    : Stats :=
  mkStats (size (sessions s)) (maxSessions (cfg_sessions cfg))
    (foldl count_status ∅ values).

(** The number of ids recorded with the status. *)
Definition with_status (status : Status) (s : SessionManager) : nat :=
  List.length
    (filter (fun kv => Status_eqb (snd kv) status = true)
       (map_to_list (sessionStatus s))).

(** ** Shutdown (src/index.js, lines 602-616) *)

(** The [SIGTERM] handler up to [process.exit(0)], where [ids] are the
    keys in the order in which [Array.from(sessionManager.sessions.keys())]
    yields them. *)
Definition shutdown (env : Env) (ids : list string) : M unit :=
  logger LInfo "SIGTERM received, shutting down gracefully" ;;;
  for_of ids
    (fun userId =>
       try_catch (destroySession env userId)
         (fun _ => logger LError "Error destroying session during shutdown")).

(** ** The session endpoints (src/index.js, lines 108-209) *)

(** What a handler answers: the HTTP status, and the fields of the JSON
    body that these handlers set.  The answer is the value the handler
    returns. *)
Record Reply := mkReply {
  rp_code : nat;
  rp_success : bool;
  rp_status : option Status;
  rp_qrCode : option (option string);
  rp_message : option string;
  rp_error : option string
}.

(** [res.status(400).json({ success: false, error: 'Missing userId' })] *)
Definition missing_userId : Reply :=
  mkReply 400 false None None None (Some "Missing userId").

(** [res.json(result)] for a result of [createSession]. *)
Definition reply_of_result (result : CreateResult) : Reply :=
  mkReply 200 (cr_success result) (cr_status result) None (cr_message result)
    (cr_error result).

(** [POST /start-session] (lines 108-127); [userId] is [req.body.userId]. *)
Definition start_session (cfg : Config) (env : Env) (userId : option string)
    : M Reply :=
  match userId with
  | Some u =>
      if JsString.truthy u then
        logger LInfo "Starting session request" ;;;
        try_catch
          (let* result := createSession cfg env u in
           ret (reply_of_result result))
          (fun _ =>
             logger LError "Error starting session" ;;;
             ret (mkReply 500 false (Some init_error) None None
                    (Some "Internal server error")))
      else ret missing_userId
  | None => ret missing_userId
  end.




(** Truthiness of what [getQRCode] returns: [undefined], [null] or a
    string. *)
Definition qr_truthy (qr : option (option string)) : bool :=
  match qr with
  | Some (Some s) => JsString.truthy s
  | _ => false
  end.

(** The four answers of [GET /get-qr/:userId] to a request with an id. *)
Definition qr_ready : Reply :=
  mkReply 200 true (Some ready) (Some None) (Some "Client already ready") None.

Definition qr_code (qr : option (option string)) : Reply :=
  mkReply 200 true (Some needs_scan) qr None None.

Definition qr_pending (status : Status) : Reply :=
  mkReply 202 false (Some status) None None
    (Some "QR code not generated yet or session is authenticating/ready.").

Definition qr_not_found (status : Status) : Reply :=
  mkReply 404 false (Some status) None None
    (Some "No session found, QR not generated, session error, or disconnected.").

(** [GET /get-qr/:userId] (lines 166-192) *)
Definition get_qr (userId : string) : M Reply :=
  if JsString.truthy userId then
    let* qr := getQRCode userId in
    let* status := getSessionStatus userId in
    if Status_eqb status ready then ret qr_ready
    else if qr_truthy qr && Status_eqb status needs_scan then ret (qr_code qr)
    else if Status_eqb status initializing || Status_eqb status authenticated
    then ret (qr_pending status)
    else ret (qr_not_found status)
  else ret missing_userId.

(** [res.json({ success: true, message: 'Session closed successfully.',
    status: 'no_session' })] *)
Definition session_closed : Reply :=
  mkReply 200 true (Some no_session) None (Some "Session closed successfully.")
    None.

(** [POST /close-session] (lines 194-209); [userId] is
    [req.body.userId]. *)
Definition close_session (env : Env) (userId : option string) : M Reply :=
  match userId with
  | Some u =>
      if JsString.truthy u then
        logger LInfo "Closing session request" ;;;
        try_catch
          (destroySession env u ;;; ret session_closed)
          (fun _ =>
             logger LError "Error closing session" ;;;
             ret (mkReply 500 false None None None (Some "Internal server error")))
      else ret missing_userId
  | None => ret missing_userId
  end.


(** What [GET /get-qr/:userId] answers once the handler of a lifecycle
    event of the client of that id has returned; [registered] says
    whether the registry held a client for the id when the event
    fired. *)
Definition qr_after (ev : ClientEvent) (registered : bool) : Reply :=
  match ev with
  | ev_qr qr =>
      if JsString.truthy qr then qr_code (Some (Some qr))
      else qr_not_found needs_scan
  | ev_ready => qr_ready
  | ev_authenticated => qr_pending authenticated
  | ev_auth_failure | ev_disconnected =>
      qr_not_found (if registered then event_status ev else no_session)
  end.

(** ** Labels and groups (src/index.js, lines 213-321) *)

(** A label of the account, as far as the handler reads it. *)
Record Label := mkLabel {
  label_id : string;
  label_name : option string
}.

(** [{ id: label.id, name: ... }] *)
Record LabelItem := mkLabelItem {
  li_id : string;
  li_name : string
}.

(** A chat of the account, as far as the handler reads it:
    [chat.isGroup], [chat.id._serialized], [chat.name]. *)
Record Chat := mkChat {
  chat_isGroup : bool;
  chat_serialized : string;
  chat_name : option string
}.

(** [{ id: chat.id._serialized, name: ... }] *)
Record GroupItem := mkGroupItem {
  gi_id : string;
  gi_name : string
}.

(** [labels.map(label => ({ id: label.id,
      name: label.name || `Etiqueta ${label.id}` }))] *)
Definition label_list (labels : list Label) : list LabelItem :=
  map (fun label =>
         mkLabelItem (label_id label)
           (Js.str_or (label_name label) ("Etiqueta " +:+ label_id label)))
    labels.

(** [chats.filter(chat => chat.isGroup).map(chat => ({ id: ..., name:
      chat.name || 'Grupo sin nombre' }))] *)
Definition group_list (chats : list Chat) : list GroupItem :=
  map (fun chat =>
         mkGroupItem (chat_serialized chat)
           (Js.str_or (chat_name chat) "Grupo sin nombre"))
    (filter (fun chat => chat_isGroup chat = true) chats).

(** The answers of [GET /labels/:userId]: 400, or 200 with a list and,
    when the list is empty, a message. *)
Inductive LabelsReply :=
| LabelsNotReady
| LabelsList (labels : list LabelItem) (message : option string).

(** [GET /labels/:userId] (lines 213-255).  [client_getLabels] is [None]
    when the client has no [getLabels] method; otherwise it is what
    [client.getLabels()] answers: the labels, [null] or [undefined], or
    it throws.  The call is a query and is not recorded in the trace. *)
Definition labels
    (client_getLabels :
       option (list Effect -> Client -> Completion (option (list Label))))
    (userId : string) : M LabelsReply :=
  let* client := getSession userId in
  let* status := getSessionStatus userId in
  match client with
  | Some c =>
      if Status_eqb status ready then
        try_catch
          (updateActivity userId ;;;
           match client_getLabels with
           | None =>
               logger LInfo
                 "Labels not supported for this account (getLabels missing)" ;;;
               ret (LabelsList []
                      (Some "No labels found or not supported for this account."))
           | Some getLabels =>
               let* found := (fun w => (getLabels (trace w) c, w)) in
               match found with
               | None | Some [] =>
                   logger LInfo "No labels found for account" ;;;
                   ret (LabelsList [] (Some "No labels found for this account."))
               | Some l =>
                   logger LInfo "Labels fetched successfully" ;;;
                   ret (LabelsList (label_list l) None)
               end
           end)
          (fun _ =>
             logger LError "Error fetching labels" ;;;
             ret (LabelsList []
                    (Some "No labels found or error fetching labels.")))
      else ret LabelsNotReady
  | None => ret LabelsNotReady
  end.

(** The answers of [GET /groups/:userId]: 400, 200 with the groups, or
    500 with an error text. *)
Inductive GroupsReply :=
| GroupsNotReady
| GroupsList (groups : list GroupItem)
| GroupsFailed (error : string).

(** [GET /groups/:userId] (lines 296-321).  [client_getChats] is what
    [client.getChats()] answers; the call is a query and is not recorded
    in the trace. *)
Definition groups
    (client_getChats : list Effect -> Client -> Completion (list Chat))
    (userId : string) : M GroupsReply :=
  let* client := getSession userId in
  let* status := getSessionStatus userId in
  match client with
  | Some c =>
      if Status_eqb status ready then
        try_catch
          (updateActivity userId ;;;
           let* chats := (fun w => (client_getChats (trace w) c, w)) in
           logger LInfo "Groups fetched" ;;;
           ret (GroupsList (group_list chats)))
          (fun message =>
             logger LError "Error fetching groups" ;;;
             ret (GroupsFailed ("Failed to fetch groups: " +:+ message)))
      else ret GroupsNotReady
  | None => ret GroupsNotReady
  end.

(** The session exists and is [ready]: the test that opens the handlers
    of the WhatsApp endpoints. *)
Definition session_ready (userId : string) (w : World) : bool :=
  bool_decide (is_Some (sessions (sm w) !! userId))
  && Status_eqb (default no_session (sessionStatus (sm w) !! userId)) ready.
(** * Properties *)

#[local] Set Warnings "-clear-no-such-hyp".

(** ** Strings and number normalization *)

Lemma strip_non_digits_filter (s : string) :
  JsString.strip_non_digits s =
  string_of_list_ascii (filter (fun c => JsString.is_digit c = true) (list_ascii_of_string s)).
Proof.
  induction s as [|c r IH]; simpl; [reflexivity|].
  rewrite filter_cons. destruct (JsString.is_digit c) eqn:E.
  - rewrite decide_True by reflexivity. simpl. now rewrite IH.
  - rewrite decide_False by discriminate. exact IH.
Qed.

Lemma strip_non_digits_all_digits (s : string) :
  JsString.all_digits (JsString.strip_non_digits s) = true.
Proof.
  induction s as [|c r IH]; simpl; [reflexivity|].
  destruct (JsString.is_digit c) eqn:E; simpl; [rewrite E|]; exact IH.
Qed.

Lemma strip_non_digits_fixed (s : string) :
  JsString.all_digits s = true -> JsString.strip_non_digits s = s.
Proof.
  induction s as [|c r IH]; simpl; [reflexivity|].
  intros [Hc Hr]%andb_prop. rewrite Hc. now rewrite IH.
Qed.

(** C6. Number normalization: the result consists of digits only; it is
    the digits of the raw string, in order, with ["591"] in front exactly
    when the raw string has no ['+'], has eight digits and these do not
    start with ["591"]; with a ['+'] in the raw string nothing is put in
    front. *)
Theorem normalizeNumber_spec (originalNumber : string) :
  let digits := JsString.strip_non_digits originalNumber in
  digits =
    string_of_list_ascii
      (filter (fun c => JsString.is_digit c = true)
         (list_ascii_of_string originalNumber)) /\
  JsString.all_digits (normalizeNumber originalNumber) = true /\
  (JsString.includes_char "+" originalNumber = false ->
   String.length digits = 8%nat ->
   JsString.startsWith "591" digits = false ->
   normalizeNumber originalNumber = "591" +:+ digits) /\
  (JsString.includes_char "+" originalNumber = true ->
   normalizeNumber originalNumber = digits) /\
  (JsString.includes_char "+" originalNumber = false ->
   String.length digits <> 8%nat \/ JsString.startsWith "591" digits = true ->
   normalizeNumber originalNumber = digits).
Proof.
  cbv zeta. split; [apply strip_non_digits_filter|].
  unfold normalizeNumber.
  pose proof (strip_non_digits_all_digits originalNumber) as Hd.
  destruct (JsString.includes_char "+" originalNumber) eqn:Hplus; simpl.
  - repeat split; try discriminate; auto.
  - destruct (Nat.eqb_spec (String.length (JsString.strip_non_digits originalNumber)) 8)
      as [Hlen|Hlen];
    destruct (JsString.startsWith "591" (JsString.strip_non_digits originalNumber))
      eqn:Hpre; simpl; repeat split; auto; try discriminate; try congruence.
    + intros _ [H|H]; [contradiction|discriminate].
Qed.

Lemma normalizeNumber_spec_witness :
  normalizeNumber "7012-3456" = "59170123456" /\
  normalizeNumber "+591 70123456" = "59170123456" /\
  normalizeNumber "+1 (555) 010-9999" = "15550109999" /\
  normalizeNumber "59112345" = "59112345".
Proof.
  pose proof (normalizeNumber_spec "7012-3456") as (_ & _ & H1 & _ & _).
  pose proof (normalizeNumber_spec "+591 70123456") as (_ & _ & _ & H2 & _).
  pose proof (normalizeNumber_spec "+1 (555) 010-9999") as (_ & _ & _ & H3 & _).
  pose proof (normalizeNumber_spec "59112345") as (_ & _ & _ & _ & H4).
  split; [apply H1; reflexivity|].
  split; [apply H2; reflexivity|].
  split; [apply H3; reflexivity|].
  apply H4; [reflexivity|right; reflexivity].
Defined.

(** ** Worlds *)

Lemma World_eta (w : World) :
  mkWorld (sm w) (disk w) (trace w) (clock w) (next_client w) = w.
Proof. now destruct w. Qed.

Lemma SessionManager_eta (s : SessionManager) :
  mkSessionManager (sessions s) (qrCodes s) (sessionStatus s) (lastActivity s)
    (sessionLocks s) = s.
Proof. now destruct s. Qed.

(** ** Locks *)

(** C5. [acquireLock] never blocks: it answers [false], changing nothing,
    when a token exists for the id, and otherwise stores a token (the
    acquisition time) and answers [true].  Hence a second [acquireLock]
    right after the first answers [false], whatever the first answered,
    and after [releaseLock], which removes the token whether or not there
    is one and may be repeated, [acquireLock] answers [true]. *)
Theorem lock_exclusivity (userId : string) (w : World) :
  (is_Some (sessionLocks (sm w) !! userId) ->
   acquireLock userId w = (Normal false, w)) /\
  (sessionLocks (sm w) !! userId = None ->
   fst (acquireLock userId w) = Normal true /\
   sessionLocks (sm (snd (acquireLock userId w))) !! userId = Some (clock w) /\
   fst (acquireLock userId (snd (acquireLock userId w))) = Normal false) /\
  fst (acquireLock userId (snd (acquireLock userId w))) = Normal false /\
  (let released := snd (releaseLock userId w) in
   fst (releaseLock userId w) = Normal tt /\
   sessionLocks (sm released) !! userId = None /\
   sm (snd (releaseLock userId released)) = sm released /\
   fst (acquireLock userId released) = Normal true /\
   fst (acquireLock userId (snd (acquireLock userId released))) = Normal false).
Proof.
  assert (Hheld : forall w0, is_Some (sessionLocks (sm w0) !! userId) ->
                    acquireLock userId w0 = (Normal false, w0)).
  { intros w0 H. unfold acquireLock, bind, gets, ret. simpl.
    now rewrite bool_decide_eq_true_2. }
  assert (Hfree : forall w0, sessionLocks (sm w0) !! userId = None ->
            fst (acquireLock userId w0) = Normal true /\
            sessionLocks (sm (snd (acquireLock userId w0))) !! userId
              = Some (clock w0)).
  { intros w0 H. unfold acquireLock, bind, gets, ret, modify, Date_now. simpl.
    rewrite bool_decide_eq_false_2 by (rewrite H; apply is_Some_None).
    simpl. split; [reflexivity|]. apply lookup_insert_eq. }
  assert (Hagain : forall w0,
            fst (acquireLock userId (snd (acquireLock userId w0))) = Normal false).
  { intros w0. destruct (sessionLocks (sm w0) !! userId) as [t|] eqn:E.
    - rewrite (Hheld w0) by (rewrite E; eauto). simpl.
      rewrite (Hheld w0) by (rewrite E; eauto). reflexivity.
    - destruct (Hfree w0 E) as [_ H2]. rewrite Hheld; [reflexivity|].
      rewrite H2. eauto. }
  assert (Hrel : forall w0,
            sessionLocks (sm (snd (releaseLock userId w0))) !! userId = None).
  { intros w0. unfold releaseLock, bind, modify, emit. simpl.
    apply lookup_delete_eq. }
  split; [apply Hheld|]. split.
  { intros H. destruct (Hfree w H) as [H1 H2]. repeat split; auto. }
  split; [apply Hagain|]. cbv zeta.
  split; [reflexivity|]. split; [apply Hrel|]. split.
  { unfold releaseLock, bind, modify, emit, sessionLocks_delete. simpl.
    f_equal. apply delete_id. apply lookup_delete_eq. }
  split; [apply Hfree, Hrel|apply Hagain].
Qed.

Lemma lock_exclusivity_witness :
  fst (acquireLock "u1" (world_at 5)) = Normal true /\
  fst (acquireLock "u1" (snd (acquireLock "u1" (world_at 5)))) = Normal false /\
  acquireLock "u1" (snd (acquireLock "u1" (world_at 5)))
    = (Normal false, snd (acquireLock "u1" (world_at 5))).
Proof.
  pose proof (lock_exclusivity "u1" (world_at 5)) as (_ & Hfree & _).
  pose proof (lock_exclusivity "u1" (snd (acquireLock "u1" (world_at 5))))
    as (Hheld & _).
  destruct Hfree as (H1 & H2 & H3); [vm_compute; reflexivity|].
  split; [exact H1|]. split; [exact H3|].
  apply Hheld. vm_compute. eauto.
Defined.

(** ** [destroySession] *)

Lemma removeDir_eq (dirPath dirName : string) (w : World) :
  removeDir dirPath dirName w =
  (Normal tt,
   mkWorld (sm w) (disk w) (trace w ++ rm_effects dirPath (disk w))
     (clock w) (next_client w)).
Proof.
  unfold removeDir, bind, fs_existsSync, fs_rm, ret, rm_effects, emit, add_effect.
  destruct (bool_decide (dirPath ∈ disk w)); [reflexivity|].
  rewrite app_nil_r. now rewrite World_eta.
Qed.

Ltac run_monad :=
  unfold bind, ret, gets, modify, emit, logger, external, try_catch, Date_now,
    add_effect, set_sm in *; simpl in *.

Ltac norm_app := repeat (rewrite <- ?app_assoc; simpl).

Lemma destroySession_eq (env : Env) (userId : string) (w : World) :
  destroySession env userId w = (Normal tt, destroyed env userId w).
Proof.
  unfold destroySession, destroyed, teardown_effects.
  unfold bind at 1. unfold gets at 1. simpl.
  destruct (sessions (sm w) !! userId) as [c|] eqn:Hc.
  - destruct (status_includes [ready; authenticated] (sessionStatus (sm w) !! userId))
      eqn:Hst.
    + destruct (client_logout env (trace w) c) as [m|] eqn:Hlo.
      * destruct (client_destroy env (trace w ++ [ELogout c; ELog LWarn "Error during logout"]) c)
          eqn:Hde; run_monad; rewrite Hst; simpl; rewrite Hlo; simpl; norm_app;
          rewrite Hde; simpl; rewrite !removeDir_eq; simpl; norm_app; reflexivity.
      * destruct (client_destroy env (trace w ++ [ELogout c]) c)
          eqn:Hde; run_monad; rewrite Hst; simpl; rewrite Hlo; simpl; norm_app;
          rewrite Hde; simpl; rewrite !removeDir_eq; simpl; norm_app; reflexivity.
    + rewrite app_nil_r.
      destruct (client_destroy env (trace w) c)
          eqn:Hde; run_monad; rewrite Hst; simpl;
          rewrite Hde; simpl; rewrite !removeDir_eq; simpl; norm_app; reflexivity.
  - run_monad. rewrite !removeDir_eq. simpl. norm_app. reflexivity.
Qed.

Lemma JsMap_get_delete_eq {V} (k : string) (m : list (string * V)) :
  JsMap.get k (JsMap.delete k m) = None.
Proof.
  induction m as [|[k' v] r IH]; simpl; [reflexivity|].
  destruct (String.eqb k' k) eqn:E; [exact IH|]. simpl. now rewrite E.
Qed.

Lemma JsMap_get_delete_ne {V} (k k' : string) (m : list (string * V)) :
  k <> k' -> JsMap.get k' (JsMap.delete k m) = JsMap.get k' m.
Proof.
  intros Hne. induction m as [|[k0 v] r IH]; simpl; [reflexivity|].
  destruct (String.eqb_spec k0 k) as [->|Hk].
  - destruct (String.eqb_spec k k') as [->|_]; [contradiction|exact IH].
  - simpl. destruct (String.eqb k0 k'); [reflexivity|exact IH].
Qed.

Lemma JsMap_delete_absent {V} (k : string) (m : list (string * V)) :
  JsMap.get k m = None -> JsMap.delete k m = m.
Proof.
  induction m as [|[k' v] r IH]; simpl; [reflexivity|].
  destruct (String.eqb k' k); [discriminate|]. intros H. now rewrite IH.
Qed.

Lemma purge_absent (userId : string) (s : SessionManager) :
  no_record userId s -> purge userId s = s.
Proof.
  intros (H1 & H2 & H3 & H4 & H5). unfold purge.
  rewrite !delete_id by assumption. rewrite JsMap_delete_absent by assumption.
  apply SessionManager_eta.
Qed.

Lemma purge_no_record (userId : string) (s : SessionManager) :
  no_record userId (purge userId s).
Proof.
  unfold no_record, purge; simpl.
  rewrite !lookup_delete_eq, JsMap_get_delete_eq. repeat split.
Qed.

Lemma unknown_id_no_record (env : Env) (userId : string) (w : World) :
  unknown_id env userId w -> no_record userId (sm w).
Proof. unfold unknown_id, no_record. tauto. Qed.

Lemma rm_effects_absent (dirPath : string) (d : gset string) :
  dirPath ∉ d -> rm_effects dirPath d = [].
Proof. intros H. unfold rm_effects. now rewrite bool_decide_eq_false_2. Qed.

Lemma destroyed_unknown (env : Env) (userId : string) (w : World) :
  unknown_id env userId w -> destroyed env userId w = w.
Proof.
  intros H. pose proof (unknown_id_no_record env userId w H) as Hn.
  destruct H as (H1 & _ & _ & _ & _ & H6 & H7). unfold destroyed, teardown_effects.
  rewrite H1, purge_absent by assumption.
  rewrite !rm_effects_absent by assumption. simpl. rewrite app_nil_r.
  apply World_eta.
Qed.

Lemma destroyed_no_record (env : Env) (userId : string) (w : World) :
  no_record userId (sm (destroyed env userId w)).
Proof. apply purge_no_record. Qed.

(** The world of a session that has no record: [destroySession] adds the
    removal requests and nothing else. *)
Lemma destroyed_again (env : Env) (userId : string) (w : World) :
  no_record userId (sm w) ->
  destroyed env userId w =
  mkWorld (sm w) (disk w)
    (trace w ++ rm_effects (sessionAuthPath env userId) (disk w)
       ++ rm_effects (sessionCachePath env userId) (disk w))
    (clock w) (next_client w).
Proof.
  intros Hn. unfold destroyed, teardown_effects.
  destruct Hn as (H1 & Hrest). rewrite H1, purge_absent by (split; assumption).
  reflexivity.
Qed.

(** C9, as the code has it.  [destroySession] returns normally whatever
    the client answers; afterwards [getSessionStatus] gives [no_session]
    and the session, QR, status, activity and lock records of the id are
    gone.  The directories of the id are not gone when the call returns:
    [fs.rm] has been asked to remove those that exist, and the disk is as
    it was.  A second call right after the first returns normally too and
    leaves the same registry; it calls nothing on a client, but it asks
    [fs.rm] again for each directory of the id that is on disk.  On an id
    without any record the call changes no record and calls no client, and
    asks for the removal of the directories of the id that are on disk; it
    is a no-op when there are none.  Once both removals have come to their
    end, nothing is left of the id and a further call is a no-op. *)
Theorem destroySession_idempotent (env : Env) (userId : string) (w : World) :
  let auth := sessionAuthPath env userId in
  let cache := sessionCachePath env userId in
  let w1 := snd (destroySession env userId w) in
  let w2 := snd (destroySession env userId w1) in
  let w3 :=
    snd ((fs_rm_done auth "Session auth" None ;;;
          fs_rm_done cache "Session cache" None) w2) in
  fst (destroySession env userId w) = Normal tt /\
  getSessionStatus userId w1 = (Normal no_session, w1) /\
  no_record userId (sm w1) /\
  disk w1 = disk w /\
  trace w1 =
    (trace w ++ teardown_effects env userId w
       ++ rm_effects auth (disk w) ++ rm_effects cache (disk w))%list /\
  fst (destroySession env userId w1) = Normal tt /\
  sm w2 = sm w1 /\
  disk w2 = disk w1 /\
  trace w2 =
    (trace w1 ++ rm_effects auth (disk w) ++ rm_effects cache (disk w))%list /\
  (no_record userId (sm w) ->
   sm w1 = sm w /\
   trace w1 =
     (trace w ++ rm_effects auth (disk w) ++ rm_effects cache (disk w))%list) /\
  (unknown_id env userId w -> destroySession env userId w = (Normal tt, w)) /\
  unknown_id env userId w3 /\
  destroySession env userId w3 = (Normal tt, w3).
Proof.
  cbv zeta. rewrite !destroySession_eq. cbn [fst snd].
  pose proof (destroyed_no_record env userId w) as Hn.
  rewrite (destroyed_again env userId (destroyed env userId w) Hn).
  unfold bind, fs_rm_done. cbn [fst snd sm disk trace clock next_client].
  split; [reflexivity|]. split.
  { unfold getSessionStatus, gets. destruct Hn as (_ & _ & -> & _). reflexivity. }
  split; [exact Hn|]. split; [reflexivity|]. split; [reflexivity|].
  split; [reflexivity|]. split; [reflexivity|]. split; [reflexivity|].
  split; [reflexivity|]. split.
  { intros Hw. rewrite (destroyed_again env userId w Hw). split; reflexivity. }
  split; [intros H; now rewrite destroyed_unknown|].
  match goal with
  | |- unknown_id env userId ?w3 /\ _ =>
      assert (Hu : unknown_id env userId w3)
  end.
  { destruct Hn as (H1 & H2 & H3 & H4 & H5).
    unfold unknown_id. cbn [sm disk]. repeat split; try assumption.
    - intros [_ [Hb _]%elem_of_filter]%elem_of_filter.
      unfold below in Hb. now rewrite String.eqb_refl in Hb.
    - intros [Hb _]%elem_of_filter.
      unfold below in Hb. now rewrite String.eqb_refl in Hb. }
  split; [exact Hu|]. now rewrite destroyed_unknown.
Qed.

(** Session ["a"] of [world_ready_a], ready on client handle 0 with both
    directories on disk, destroyed twice in succession. *)
Lemma destroySession_idempotent_witness :
  let w1 := snd (destroySession env_ok "a" world_ready_a) in
  let w2 := snd (destroySession env_ok "a" w1) in
  no_record "a" (sm w1) /\
  sm w2 = sm w1 /\
  trace w1 =
    [ELogout 0%nat; EDestroy 0%nat;
     ERm "/app/src/.wwebjs_auth/session-a"; ERm "/app/src/.wwebjs_cache_a"] /\
  trace w2 =
    (trace w1 ++
     [ERm "/app/src/.wwebjs_auth/session-a"; ERm "/app/src/.wwebjs_cache_a"])%list.
Proof.
  pose proof (destroySession_idempotent env_ok "a" world_ready_a) as H.
  cbv zeta in *.
  destruct H as (_ & _ & Hn & _ & Ht1 & _ & Hs & _ & Ht2 & _).
  split; [exact Hn|]. split; [exact Hs|]. split.
  - rewrite Ht1. vm_compute. reflexivity.
  - rewrite Ht2. f_equal.
Defined.

(** C9 as stated fails on two points.  The second of two calls in
    succession is not free of effects: the directories of the session
    are still on disk when the first call returns, and the second call
    asks [fs.rm] to remove them again.  And on an id the registry does
    not know the call is not a no-op: after a restart there is no record
    of ["a"] and [getSessionStatus] gives [no_session], but the
    directories of the session are on disk, and [destroySession "a"] asks
    for their removal. *)
Lemma destroySession_requests_removals_again :
  let w1 := snd (destroySession env_ok "a" world_ready_a) in
  let w2 := snd (destroySession env_ok "a" w1) in
  let v1 := snd (destroySession env_ok "a" world_restarted) in
  trace w1 =
    [ELogout 0%nat; EDestroy 0%nat;
     ERm "/app/src/.wwebjs_auth/session-a"; ERm "/app/src/.wwebjs_cache_a"] /\
  bool_decide (sessionAuthPath env_ok "a" ∈ disk w1) = true /\
  bool_decide (sessionCachePath env_ok "a" ∈ disk w1) = true /\
  trace w2 =
    [ELogout 0%nat; EDestroy 0%nat;
     ERm "/app/src/.wwebjs_auth/session-a"; ERm "/app/src/.wwebjs_cache_a";
     ERm "/app/src/.wwebjs_auth/session-a"; ERm "/app/src/.wwebjs_cache_a"] /\
  sessions (sm world_restarted) !! "a" = None /\
  fst (getSessionStatus "a" world_restarted) = Normal no_session /\
  trace world_restarted = [] /\
  trace v1 =
    [ERm "/app/src/.wwebjs_auth/session-a"; ERm "/app/src/.wwebjs_cache_a"].
Proof. vm_compute. repeat split. Qed.

(** ** Starting a session *)

Lemma create_failed_eq (env : Env) (userId message : string) (w : World) :
  create_failed env userId message w =
  (Normal (init_failed message),
   destroyed env userId (add_effect (ELog LError "Error creating session") w)).
Proof.
  unfold create_failed, bind, logger, emit, ret. now rewrite destroySession_eq.
Qed.

(** [create_new] always returns: with a failure result and the id purged,
    or with a success result and the session on a fresh client handle. *)
Lemma create_new_cases (env : Env) (userId : string) (w : World) :
  exists r w',
    create_new env userId w = (Normal r, w') /\
    clock w' = clock w /\
    ((cr_success r = false /\ sm w' = purge userId (touched userId w)) \/
     (cr_success r = true /\
      sm w' = sessions_set userId (next_client w) (touched userId w))).
Proof.
  unfold create_new, try_catch.
  unfold bind at 1. unfold modify at 1.
  unfold bind at 1. unfold modify at 1.
  unfold bind at 1. unfold bind at 1. unfold Date_now at 1. unfold modify at 1.
  unfold bind at 1. unfold new_Client at 1. simpl.
  destruct (client_ctor env (trace w) userId) as [msg|].
  - rewrite create_failed_eq.
    do 2 eexists. split; [reflexivity|]. split; [reflexivity|]. left.
    split; reflexivity.
  - unfold bind at 1. unfold modify at 1.
    unfold bind at 1. unfold external at 1. simpl.
    destruct (client_initialize env _ (next_client w)) as [msg|].
    + rewrite create_failed_eq.
      do 2 eexists. split; [reflexivity|]. split; [reflexivity|]. left.
      split; [reflexivity|]. simpl. unfold purge, touched. simpl.
      now rewrite delete_insert_eq.
    + unfold bind, gets, ret. simpl.
      do 2 eexists. split; [reflexivity|]. split; [reflexivity|]. right.
      split; reflexivity.
Qed.

(** Up to [await client.initialize()]: the three writes, the new client
    in the registry and the call made on it; or, when the constructor
    throws, the [catch]. *)
Lemma create_new_begin_eq (env : Env) (userId : string) (w : World) :
  create_new_begin env userId w =
  match client_ctor env (trace w) userId with
  | Some message =>
      (Normal (inl (init_failed message)),
       destroyed env userId
         (add_effect (ELog LError "Error creating session")
            (set_sm (touched userId w) w)))
  | None =>
      (Normal (inr (next_client w)),
       mkWorld (sessions_set userId (next_client w) (touched userId w)) (disk w)
         (trace w ++ [ENewClient userId (next_client w); EInitialize (next_client w)])
         (clock w) (S (next_client w)))
  end.
Proof.
  unfold create_new_begin, try_catch.
  unfold bind at 1. unfold modify at 1.
  unfold bind at 1. unfold modify at 1.
  unfold bind at 1. unfold bind at 1. unfold Date_now at 1. unfold modify at 1.
  unfold bind at 1. unfold new_Client at 1. simpl.
  destruct (client_ctor env (trace w) userId) as [msg|].
  - unfold bind. rewrite create_failed_eq. reflexivity.
  - unfold bind, modify, emit, ret, add_effect. simpl.
    now rewrite <- app_assoc.
Qed.

(** From the settling of [initialize] on. *)
Lemma create_new_resume_eq (env : Env) (userId : string) (outcome : option string)
    (w : World) :
  create_new_resume env userId outcome w =
  match outcome with
  | None =>
      (Normal (mkCreateResult true (Some "Session initialization finished.") None
                 (sessionStatus (sm w) !! userId)), w)
  | Some message => create_failed env userId message w
  end.
Proof. destruct outcome; reflexivity. Qed.

(** The two halves make [create_new] when nothing happens between
    them. *)
Lemma create_new_split (env : Env) (userId : string) (w : World) :
  create_new env userId w =
  match create_new_begin env userId w with
  | (Normal (inr c), w1) =>
      create_new_resume env userId
        (client_initialize env (trace w ++ [ENewClient userId c]) c) w1
  | (Normal (inl r), w1) => (Normal r, w1)
  | (Thrown e, w1) => (Thrown e, w1)
  end.
Proof.
  rewrite create_new_begin_eq.
  unfold create_new, try_catch.
  unfold bind at 1. unfold modify at 1.
  unfold bind at 1. unfold modify at 1.
  unfold bind at 1. unfold bind at 1. unfold Date_now at 1. unfold modify at 1.
  unfold bind at 1. unfold new_Client at 1. simpl.
  destruct (client_ctor env (trace w) userId) as [msg|].
  - now rewrite create_failed_eq.
  - rewrite create_new_resume_eq.
    unfold bind at 1. unfold modify at 1.
    unfold bind at 1. unfold external at 1. simpl.
    destruct (client_initialize env _ (next_client w)) as [msg|].
    + unfold add_effect. simpl. now rewrite <- app_assoc.
    + unfold bind, gets, ret, add_effect. simpl. now rewrite <- app_assoc.
Qed.

(** ** Lifecycle events *)

Lemma JsMap_get_set_eq {V} (k : string) (v : V) (m : list (string * V)) :
  JsMap.get k (JsMap.set k v m) = Some v.
Proof.
  induction m as [|[k' v'] r IH]; simpl.
  - now rewrite String.eqb_refl.
  - destruct (String.eqb k' k) eqn:E; simpl; rewrite E; [reflexivity|exact IH].
Qed.

Lemma JsMap_get_set_ne {V} (k k' : string) (v : V) (m : list (string * V)) :
  k <> k' -> JsMap.get k' (JsMap.set k v m) = JsMap.get k' m.
Proof.
  intros Hne. induction m as [|[k0 v0] r IH]; simpl.
  - destruct (String.eqb_spec k k'); [contradiction|reflexivity].
  - destruct (String.eqb_spec k0 k) as [->|Hk]; simpl.
    + destruct (String.eqb_spec k k'); [contradiction|reflexivity].
    + destruct (String.eqb k0 k'); [reflexivity|exact IH].
Qed.

(** [destroySession] called and not awaited, on an id whose status is
    neither [ready] nor [authenticated]. *)
Lemma destroySession_begin_eq (env : Env) (userId : string) (w : World) :
  status_includes [ready; authenticated] (sessionStatus (sm w) !! userId) = false ->
  destroySession_begin env userId w =
  match sessions (sm w) !! userId with
  | Some c => (Normal (Some (at_destroy c)), add_effect (EDestroy c) w)
  | None =>
      (Normal None,
       mkWorld (purge userId (sm w)) (disk w)
         (trace w ++ rm_effects (sessionAuthPath env userId) (disk w)
            ++ rm_effects (sessionCachePath env userId) (disk w))
         (clock w) (next_client w))
  end.
Proof.
  intros Hst. unfold destroySession_begin.
  unfold bind at 1. unfold gets at 1. cbn [fst snd].
  destruct (sessions (sm w) !! userId) as [c|].
  - unfold bind at 1. unfold gets at 1. rewrite Hst. reflexivity.
  - unfold bind, modify, ret. rewrite !removeDir_eq. simpl.
    now rewrite <- app_assoc.
Qed.

(** The same call going on once [client.destroy()] has settled. *)
Lemma destroySession_resume_eq (env : Env) (userId : string) (c : Client)
    (outcome : option string) (w : World) :
  destroySession_resume env userId (at_destroy c) outcome w =
  (Normal None,
   mkWorld (purge userId (sm w)) (disk w)
     (trace w
        ++ match outcome with
           | Some _ => [ELog LError "Error destroying client"]
           | None => []
           end
        ++ rm_effects (sessionAuthPath env userId) (disk w)
        ++ rm_effects (sessionCachePath env userId) (disk w))
     (clock w) (next_client w)).
Proof.
  unfold destroySession_resume.
  destruct outcome; unfold bind, logger, emit, modify, ret;
    rewrite !removeDir_eq; simpl; now rewrite <- !app_assoc.
Qed.

(** C7, as the code has it.  A session that [createSession] starts is
    [initializing] with [lastActivity] the current time.  The handlers of
    [qr], [ready] and [authenticated] write the new status and set
    [lastActivity] of the session to the current time, and do nothing else
    to the session.  The handlers of [auth_failure] and [disconnected]
    write the status and call [destroySession] at once, without awaiting
    it, and never write a timestamp.  When the registry holds a client
    for the id, [destroy], not [logout], has been called on it when the
    handler returns, the status is the one written and [lastActivity] is
    what it was; when [destroy] has settled, however it did,
    [destroySession] goes on: the [lastActivity] entry is removed with the
    other records of the id, [getSessionStatus] gives [no_session], and
    the removal of the directories of the id is requested.  When the
    registry holds no client for the id, all this has happened when the
    handler returns, without a call on any client. *)
Theorem status_transitions (env : Env) (userId : string) (ev : ClientEvent) (w : World) :
  let run := handle_event env userId ev w in
  let w' := snd run in
  let auth := sessionAuthPath env userId in
  let cache := sessionCachePath env userId in
  (forall c w1,
     create_new_begin env userId w = (Normal (inr c), w1) ->
     sessionStatus (sm w1) !! userId = Some initializing /\
     JsMap.get userId (lastActivity (sm w1)) = Some (clock w)) /\
  match ev with
  | ev_auth_failure | ev_disconnected =>
      let noted :=
        match ev with
        | ev_auth_failure => add_effect (ELog LError "Authentication failed") w
        | _ => w
        end in
      match sessions (sm w) !! userId with
      | Some c =>
          fst run = Normal (Some (at_destroy c)) /\
          trace w' = (trace noted ++ [EDestroy c])%list /\
          sessionStatus (sm w') !! userId = Some (event_status ev) /\
          lastActivity (sm w') = lastActivity (sm w) /\
          sessions (sm w') = sessions (sm w) /\
          forall outcome : option string,
            let done := destroySession_resume env userId (at_destroy c) outcome w' in
            fst done = Normal None /\
            no_record userId (sm (snd done)) /\
            getSessionStatus userId (snd done) = (Normal no_session, snd done) /\
            lastActivity (sm (snd done)) = JsMap.delete userId (lastActivity (sm w)) /\
            trace (snd done) =
              (trace w'
                 ++ match outcome with
                    | Some _ => [ELog LError "Error destroying client"]
                    | None => []
                    end
                 ++ rm_effects auth (disk w) ++ rm_effects cache (disk w))%list
      | None =>
          fst run = Normal None /\
          no_record userId (sm w') /\
          getSessionStatus userId w' = (Normal no_session, w') /\
          lastActivity (sm w') = JsMap.delete userId (lastActivity (sm w)) /\
          trace w' =
            (trace noted ++ rm_effects auth (disk w) ++ rm_effects cache (disk w))%list
      end
  | _ =>
      fst run = Normal None /\
      sessionStatus (sm w') !! userId = Some (event_status ev) /\
      JsMap.get userId (lastActivity (sm w')) = Some (clock w) /\
      sessions (sm w') = sessions (sm w) /\
      sessionLocks (sm w') = sessionLocks (sm w) /\
      trace w' = trace w /\ disk w' = disk w
  end.
Proof.
  assert (Hterm : forall st w0, st = auth_failure \/ st = disconnected ->
    let marked := set_sm (sessionStatus_set userId st (sm w0)) w0 in
    let run := destroySession_begin env userId marked in
    match sessions (sm w0) !! userId with
    | Some c =>
        fst run = Normal (Some (at_destroy c)) /\
        trace (snd run) = (trace w0 ++ [EDestroy c])%list /\
        sessionStatus (sm (snd run)) !! userId = Some st /\
        lastActivity (sm (snd run)) = lastActivity (sm w0) /\
        sessions (sm (snd run)) = sessions (sm w0) /\
        forall outcome : option string,
          let done := destroySession_resume env userId (at_destroy c) outcome (snd run) in
          fst done = Normal None /\
          no_record userId (sm (snd done)) /\
          getSessionStatus userId (snd done) = (Normal no_session, snd done) /\
          lastActivity (sm (snd done)) = JsMap.delete userId (lastActivity (sm w0)) /\
          trace (snd done) =
            (trace (snd run)
               ++ match outcome with
                  | Some _ => [ELog LError "Error destroying client"]
                  | None => []
                  end
               ++ rm_effects (sessionAuthPath env userId) (disk w0)
               ++ rm_effects (sessionCachePath env userId) (disk w0))%list
    | None =>
        fst run = Normal None /\
        no_record userId (sm (snd run)) /\
        getSessionStatus userId (snd run) = (Normal no_session, snd run) /\
        lastActivity (sm (snd run)) = JsMap.delete userId (lastActivity (sm w0)) /\
        trace (snd run) =
          (trace w0 ++ rm_effects (sessionAuthPath env userId) (disk w0)
             ++ rm_effects (sessionCachePath env userId) (disk w0))%list
    end).
  { intros st w0 Hst. cbv zeta.
    rewrite destroySession_begin_eq.
    2:{ simpl. rewrite lookup_insert_eq. destruct Hst as [-> | ->]; reflexivity. }
    simpl sessions.
    destruct (sessions (sm w0) !! userId) as [c|]; cbn [fst snd].
    - split; [reflexivity|]. split; [reflexivity|]. split.
      { simpl. apply lookup_insert_eq. }
      split; [reflexivity|]. split; [reflexivity|].
      intros outcome. cbv zeta. rewrite destroySession_resume_eq. cbn [fst snd].
      split; [reflexivity|]. split; [apply purge_no_record|]. split.
      { unfold getSessionStatus, gets. cbn [sm].
        destruct (purge_no_record userId
                    (sm (add_effect (EDestroy c)
                           (set_sm (sessionStatus_set userId st (sm w0)) w0))))
          as (_ & _ & -> & _). reflexivity. }
      split; reflexivity.
    - split; [reflexivity|]. split; [apply purge_no_record|]. split.
      { unfold getSessionStatus, gets. cbn [sm].
        destruct (purge_no_record userId
                    (sm (set_sm (sessionStatus_set userId st (sm w0)) w0)))
          as (_ & _ & -> & _). reflexivity. }
      split; reflexivity. }
  cbv zeta. split.
  { intros c w1. rewrite create_new_begin_eq.
    destruct (client_ctor env (trace w) userId); [discriminate|].
    intros [= <- <-]. unfold touched. simpl.
    rewrite lookup_insert_eq, JsMap_get_set_eq. auto. }
  destruct ev; simpl handle_event.
  - unfold on_qr, updateActivity. run_monad. rewrite lookup_insert_eq, JsMap_get_set_eq.
    repeat split.
  - unfold on_ready, updateActivity. run_monad.
    rewrite lookup_insert_eq, JsMap_get_set_eq. repeat split.
  - unfold on_authenticated, updateActivity. run_monad.
    rewrite lookup_insert_eq, JsMap_get_set_eq. repeat split.
  - unfold on_auth_failure. unfold bind at 1. unfold logger, emit.
    unfold bind at 1. unfold modify.
    exact (Hterm auth_failure (add_effect (ELog LError "Authentication failed") w)
             (or_introl eq_refl)).
  - unfold on_disconnected. unfold bind at 1. unfold modify.
    exact (Hterm disconnected w (or_intror eq_refl)).
Qed.

(** Session ["a"], ready, is disconnected: the handler returns with
    [destroy] called on client handle 0 and the session still on record,
    last active at 100; once [destroy] has resolved the records are gone
    and the removal of both directories is requested. *)
Lemma status_transitions_witness :
  let run := handle_event env_ok "a" ev_disconnected world_ready_a in
  fst run = Normal (Some (at_destroy 0%nat)) /\
  trace (snd run) = [EDestroy 0%nat] /\
  lastActivity (sm (snd run)) = [("a", 100)] /\
  trace (snd (destroySession_resume env_ok "a" (at_destroy 0%nat) None (snd run))) =
    [EDestroy 0%nat;
     ERm "/app/src/.wwebjs_auth/session-a"; ERm "/app/src/.wwebjs_cache_a"].
Proof.
  pose proof (status_transitions env_ok "a" ev_disconnected world_ready_a) as H.
  cbv zeta in H. destruct H as (_ & H).
  change (sessions (sm world_ready_a) !! "a") with (Some 0%nat) in H.
  cbv beta iota in H.
  destruct H as (Hr & Ht & _ & Hl & _ & Hdone).
  destruct (Hdone None) as (_ & _ & _ & _ & Htd).
  cbv zeta. split; [exact Hr|]. split; [exact Ht|]. split; [exact Hl|].
  rewrite Htd, Ht. vm_compute. reflexivity.
Defined.

(** C7 as stated fails: the session ["a"] is ready, last active at 100,
    and the clock reads 200.  When the handler of [auth_failure], or of
    [disconnected], has returned, the status is the new one and
    [lastActivity] still reads 100, where the handler of [ready] leaves
    200; and once [destroy] has settled there is no [lastActivity] entry
    for the session at all. *)
Lemma terminal_transition_writes_no_timestamp :
  let after ev := snd (handle_event env_ok "a" ev world_ready_a) in
  sessionStatus (sm world_ready_a) !! "a" = Some ready /\
  JsMap.get "a" (lastActivity (sm world_ready_a)) = Some 100 /\
  clock world_ready_a = 200 /\
  JsMap.get "a" (lastActivity (sm (after ev_ready))) = Some 200 /\
  sessionStatus (sm (after ev_auth_failure)) !! "a" = Some auth_failure /\
  JsMap.get "a" (lastActivity (sm (after ev_auth_failure))) = Some 100 /\
  sessionStatus (sm (after ev_disconnected)) !! "a" = Some disconnected /\
  JsMap.get "a" (lastActivity (sm (after ev_disconnected))) = Some 100 /\
  JsMap.get "a"
    (lastActivity
       (sm (snd (destroySession_resume env_ok "a" (at_destroy 0%nat) None
                   (after ev_disconnected))))) = None.
Proof. vm_compute. repeat split. Qed.

(** ** Idle cleanup *)

Lemma for_of_destroySession (env : Env) (l : list string) (w : World) :
  for_of l (destroySession env) w = (Normal tt, destroyed_all env l w).
Proof.
  revert w. induction l as [|u r IH]; intros w; simpl; [reflexivity|].
  unfold bind. rewrite destroySession_eq. apply IH.
Qed.

(** The records of another id, when [destroySession] returns. *)
Lemma destroyed_other (env : Env) (u v : string) (w : World) :
  u <> v -> same_records env v w (destroyed env u w).
Proof.
  intros Hne. unfold same_records, destroyed, purge. simpl.
  rewrite !lookup_delete_ne by assumption.
  rewrite JsMap_get_delete_ne by assumption.
  repeat split; auto.
Qed.

Lemma same_records_trans (env : Env) (u : string) (w1 w2 w3 : World) :
  same_records env u w1 w2 -> same_records env u w2 w3 -> same_records env u w1 w3.
Proof.
  unfold same_records.
  intros (A1 & A2 & A3 & A4 & A5 & A6 & A7) (B1 & B2 & B3 & B4 & B5 & B6 & B7).
  repeat split; try congruence; tauto.
Qed.

Lemma same_records_entries (env : Env) (u : string) (w1 w2 : World) :
  same_records env u w1 w2 -> same_entries u (sm w1) (sm w2).
Proof. unfold same_records, same_entries. tauto. Qed.

Lemma same_entries_trans (u : string) (s1 s2 s3 : SessionManager) :
  same_entries u s1 s2 -> same_entries u s2 s3 -> same_entries u s1 s3.
Proof.
  unfold same_entries.
  intros (A1 & A2 & A3 & A4 & A5) (B1 & B2 & B3 & B4 & B5).
  repeat split; congruence.
Qed.

Lemma same_entries_no_record (u : string) (s1 s2 : SessionManager) :
  same_entries u s1 s2 -> no_record u s1 -> no_record u s2.
Proof.
  unfold same_entries, no_record.
  intros (A1 & A2 & A3 & A4 & A5) (B1 & B2 & B3 & B4 & B5).
  repeat split; congruence.
Qed.

Lemma destroyed_all_other (env : Env) (l : list string) (v : string) (w : World) :
  v ∉ l -> same_records env v w (destroyed_all env l w).
Proof.
  revert w. induction l as [|u r IH]; intros w Hv; simpl.
  - unfold same_records. tauto.
  - apply not_elem_of_cons in Hv as [Hvu Hvr].
    apply (same_records_trans env v w (destroyed env u w)).
    + apply destroyed_other. intros ->. now apply Hvu.
    + apply IH, Hvr.
Qed.

Lemma destroyed_all_no_record (env : Env) (l : list string) (v : string) (w : World) :
  no_record v (sm w) -> no_record v (sm (destroyed_all env l w)).
Proof.
  revert w. induction l as [|u r IH]; intros w Hv; simpl; [exact Hv|].
  apply IH. destruct (decide (u = v)) as [->|Hne].
  - apply destroyed_no_record.
  - eapply same_entries_no_record; [|exact Hv].
    eapply same_records_entries, destroyed_other, Hne.
Qed.

Lemma destroyed_all_swept (env : Env) (l : list string) (v : string) (w : World) :
  v ∈ l -> no_record v (sm (destroyed_all env l w)).
Proof.
  revert w. induction l as [|u r IH]; intros w Hv; simpl.
  - now apply elem_of_nil in Hv.
  - destruct (decide (u = v)) as [->|Hne].
    + apply destroyed_all_no_record, destroyed_no_record.
    + apply IH. apply elem_of_cons in Hv as [->|Hv]; [contradiction|exact Hv].
Qed.

Lemma destroyed_all_trace (env : Env) (l : list string) (w : World) :
  exists more, trace (destroyed_all env l w) = (trace w ++ more)%list.
Proof.
  revert w. induction l as [|u r IH]; intros w; simpl.
  - exists []. now rewrite app_nil_r.
  - destruct (IH (destroyed env u w)) as [more Hm]. rewrite Hm.
    unfold destroyed; simpl. eexists. rewrite <- app_assoc. reflexivity.
Qed.

Lemma destroyed_all_torn_down (env : Env) (l : list string) (v : string)
    (c : Client) (w : World) :
  v ∈ l -> sessions (sm w) !! v = Some c ->
  EDestroy c ∈ trace (destroyed_all env l w).
Proof.
  revert w. induction l as [|u r IH]; intros w Hv Hc; simpl.
  - now apply elem_of_nil in Hv.
  - destruct (decide (u = v)) as [->|Hne].
    + destruct (destroyed_all_trace env r (destroyed env v w)) as [more ->].
      apply elem_of_app; left. unfold destroyed; simpl.
      apply elem_of_app; right. apply elem_of_app; left.
      unfold teardown_effects. rewrite Hc.
      apply elem_of_app; right. apply elem_of_cons; left. reflexivity.
    + apply IH.
      * apply elem_of_cons in Hv as [->|Hv]; [contradiction|exact Hv].
      * destruct (destroyed_other env u v w Hne) as (<- & _). exact Hc.
Qed.

(** What [destroySession] asks [fs.rm] to remove. *)
Lemma destroyed_requests (env : Env) (u p : string) (w : World) :
  p ∈ disk w -> p = sessionAuthPath env u \/ p = sessionCachePath env u ->
  ERm p ∈ trace (destroyed env u w).
Proof.
  intros Hp Hu. unfold destroyed; simpl.
  apply elem_of_app; right. apply elem_of_app; right.
  unfold rm_effects. apply elem_of_app.
  destruct Hu as [-> | ->]; [left|right];
    rewrite bool_decide_eq_true_2 by exact Hp; apply elem_of_cons; now left.
Qed.

Lemma destroyed_all_requests (env : Env) (l : list string) (v p : string)
    (w : World) :
  v ∈ l -> p ∈ disk w -> p = sessionAuthPath env v \/ p = sessionCachePath env v ->
  ERm p ∈ trace (destroyed_all env l w).
Proof.
  revert w. induction l as [|u r IH]; intros w Hv Hp Hpath; simpl.
  - now apply elem_of_nil in Hv.
  - apply elem_of_cons in Hv as [->|Hv].
    + destruct (destroyed_all_trace env r (destroyed env u w)) as [more ->].
      apply elem_of_app; left. now apply destroyed_requests.
    + apply IH; auto.
Qed.

Lemma cleanup_tick_eq (cfg : Config) (env : Env) (w : World) :
  cleanup_tick cfg env w =
  (Normal tt,
   destroyed_all env
     (map fst (filter (fun e => idle cfg (clock w) e = true) (lastActivity (sm w)))) w).
Proof.
  unfold cleanup_tick, try_catch, cleanupInactiveSessions, bind, Date_now, gets.
  simpl. now rewrite for_of_destroySession.
Qed.

(** With the unified configuration, which has no [timeoutMinutes], the
    timeout is [NaN] and a tick removes nothing. *)
Lemma cleanup_tick_without_timeout (cfg : Config) (env : Env) (w : World) :
  timeoutMinutes (cfg_sessions cfg) = None ->
  cleanup_tick cfg env w = (Normal tt, w).
Proof.
  intros Hm. rewrite cleanup_tick_eq. f_equal.
  assert (filter (fun e => idle cfg (clock w) e = true) (lastActivity (sm w)) = []) as ->.
  { induction (lastActivity (sm w)) as [|e r IH]; [reflexivity|].
    assert (He : idle cfg (clock w) e = false) by (unfold idle; now rewrite Hm).
    rewrite filter_cons, decide_False by (rewrite He; discriminate). exact IH. }
  reflexivity.
Qed.

(** C8 fails on the configuration the program loads.  [index.js] and
    [sessionManager.js] require [config], the unified configuration,
    whose [sessions] object has no [timeoutMinutes]: the timeout of the
    sweep is [NaN] and no session is ever idle.  With the environment of
    [README-RENDER.md] (50 sessions, a timeout of 60 minutes, a sweep
    every 15 minutes) and the three sessions of [world_three] untouched
    for more than a day, a tick under that configuration changes nothing
    at all; under [config-render-pro.js], which defines [timeoutMinutes],
    the same tick destroys all three. *)
Lemma cleanup_tick_sweeps_nothing_as_shipped :
  let shipped := config_unified (Some 50) (Some 15) in
  let pro := config_render_pro (Some 50) (Some 60) (Some 15) in
  let w := advance 98000000 world_three in
  let swept := snd (cleanup_tick pro env_ok w) in
  timeoutMinutes (cfg_sessions shipped) = None /\
  cleanupIntervalMinutes (cfg_sessions shipped) = 15 /\
  lastActivity (sm w) = [("a", 100); ("b", 200); ("c", 1940000)] /\
  clock w = 100000000 /\
  cleanup_tick shipped env_ok w = (Normal tt, w) /\
  timeoutMinutes (cfg_sessions pro) = Some 60 /\
  size (sessions (sm swept)) = 0%nat /\
  lastActivity (sm swept) = [] /\
  client_calls (trace swept) =
    [ELogout 0%nat; EDestroy 0%nat; EDestroy 1%nat; ELogout 2%nat; EDestroy 2%nat].
Proof. vm_compute. repeat split. Qed.

(** X27.  The sweep itself, for a configuration that defines
    [timeoutMinutes] (as [config-render-free.js] and
    [config-render-pro.js] do).  A cleanup tick returns normally whatever
    the clients answer to [logout] and [destroy].  Every session whose
    [lastActivity] is older than the timeout is destroyed in that tick:
    its records are gone, [destroy] has been called on its client handle,
    and the removal of each of its directories that is on disk has been
    requested.  A session that is not idle keeps its entry in each of the
    five maps. *)
Theorem cleanup_tick_sweeps (cfg : Config) (env : Env) (m : Z) (w : World) :
  timeoutMinutes (cfg_sessions cfg) = Some m ->
  let w' := snd (cleanup_tick cfg env w) in
  fst (cleanup_tick cfg env w) = Normal tt /\
  (forall u t, (u, t) ∈ lastActivity (sm w) -> m * 60 * 1000 < clock w - t ->
     no_record u (sm w') /\
     (forall c, sessions (sm w) !! u = Some c -> EDestroy c ∈ trace w') /\
     (forall p, p ∈ disk w ->
        p = sessionAuthPath env u \/ p = sessionCachePath env u ->
        ERm p ∈ trace w')) /\
  (forall u,
     (forall t, (u, t) ∈ lastActivity (sm w) -> clock w - t <= m * 60 * 1000) ->
     same_entries u (sm w) (sm w')).
Proof.
  intros Hm. cbv zeta. rewrite cleanup_tick_eq. simpl.
  split; [reflexivity|]. split.
  - intros u t Hin Hidle.
    assert (Hu : u ∈ map fst (filter (fun e => idle cfg (clock w) e = true)
                               (lastActivity (sm w)))).
    { apply (list_elem_of_fmap_2 fst _ (u, t)).
      apply list_elem_of_filter. split; [|exact Hin].
      unfold idle. rewrite Hm. simpl. now apply Z.ltb_lt. }
    split; [now apply destroyed_all_swept|]. split.
    + intros c Hc. now apply destroyed_all_torn_down with (v := u).
    + intros p Hp Hpath. now apply destroyed_all_requests with (v := u).
  - intros u Hfresh. eapply same_records_entries, destroyed_all_other.
    intros Hu. apply list_elem_of_fmap in Hu as ([u' t] & -> & Hin).
    apply list_elem_of_filter in Hin as [Hidle Hin].
    unfold idle in Hidle. rewrite Hm in Hidle. simpl in *.
    apply Z.ltb_lt in Hidle. specialize (Hfresh t Hin). lia.
Qed.

(** The sweep for the three sessions of [world_three], with clients whose
    [logout] and [destroy] always throw: ["a"] and ["b"] are removed all
    the same, ["c"] stays. *)
Lemma cleanup_tick_sweeps_witness :
  let w' := snd (cleanup_tick (config_max 50) env_teardown_throws world_three) in
  no_record "a" (sm w') /\ no_record "b" (sm w') /\
  same_entries "c" (sm world_three) (sm w') /\
  (EDestroy 0%nat ∈ trace w') /\ (EDestroy 1%nat ∈ trace w').
Proof.
  pose proof (cleanup_tick_sweeps (config_max 50) env_teardown_throws 20
                world_three eq_refl) as H.
  cbv zeta in *. destruct H as (_ & Hidle & Hfresh).
  destruct (Hidle "a" 100) as (Ha & Hda & _);
    [vm_compute; repeat constructor|vm_compute; reflexivity|].
  destruct (Hidle "b" 200) as (Hb & Hdb & _);
    [vm_compute; repeat constructor|vm_compute; reflexivity|].
  split; [exact Ha|]. split; [exact Hb|]. split.
  - apply Hfresh. intros t Ht.
    simpl in Ht. rewrite !elem_of_cons, elem_of_nil in Ht.
    destruct Ht as [Ht|[Ht|[Ht|[]]]]; inversion Ht. vm_compute. discriminate.
  - split; [apply Hda|apply Hdb]; vm_compute; reflexivity.
Defined.

(** ** The dispatch loop *)

Section DispatchLoop.

Context (env : Env) (client : Client) (message : option string)
        (media : option MessageMedia) (mensajesPorNumero : list Json)
        (total : nat) (sendDelay : Z).

Local Abbreviation attempt_ := (attempt env client media).
Local Abbreviation send_one_ :=
  (send_one env client message media mensajesPorNumero total sendDelay).
Local Abbreviation send_loop_ :=
  (send_loop env client message media mensajesPorNumero total sendDelay).

Lemma resolved_numbers_app (a b : list Effect) :
  resolved_numbers (a ++ b) = (resolved_numbers a ++ resolved_numbers b)%list.
Proof. apply omap_app. Qed.

(** Resolution finds no id: the recipient is recorded with
    [not_valid_reason], nothing is sent. *)
Lemma attempt_not_registered (originalNumber numberOnly : string)
    (currentMessage : Json) (t : Tally) (w : World) :
  client_getNumberId env (trace w) client numberOnly = Normal None ->
  attempt_ originalNumber numberOnly currentMessage t w =
  (Normal (count_failed originalNumber not_valid_reason t),
   add_effect (ELog LWarn "Number not registered")
     (add_effect (EGetNumberId client numberOnly) w)).
Proof.
  intros H. unfold attempt, try_catch, bind, getNumberId.
  rewrite H. reflexivity.
Qed.

(** Resolution finds an id, there is no media and the message is empty:
    the recipient is counted as sent and [sendMessage] is not called. *)
Lemma attempt_nothing_to_send (originalNumber numberOnly chatId : string)
    (currentMessage : Json) (t : Tally) (w : World) :
  client_getNumberId env (trace w) client numberOnly = Normal (Some chatId) ->
  media = None -> Js.truthy currentMessage = false ->
  attempt_ originalNumber numberOnly currentMessage t w =
  (Normal (count_sent t), add_effect (EGetNumberId client numberOnly) w).
Proof.
  intros H -> Hm. unfold attempt, try_catch, bind, getNumberId.
  rewrite H, Hm. reflexivity.
Qed.

Lemma send_calls_app (a b : list Effect) :
  send_calls (a ++ b) = (send_calls a ++ send_calls b)%list.
Proof. apply omap_app. Qed.

(** Resolution finds an id and the send, if there is one, succeeds: the
    recipient is counted as sent. *)
Lemma attempt_sent (originalNumber numberOnly chatId : string)
    (currentMessage : Json) (t : Tally) (w : World) :
  client_getNumberId env (trace w) client numberOnly = Normal (Some chatId) ->
  (forall p, payload_for media currentMessage = Some p ->
     client_sendMessage env (trace w ++ [EGetNumberId client numberOnly])
       client chatId p = None) ->
  exists w',
    attempt_ originalNumber numberOnly currentMessage t w
      = (Normal (count_sent t), w') /\
    resolved_numbers (trace w') = (resolved_numbers (trace w) ++ [numberOnly])%list /\
    send_calls (trace w') =
      (send_calls (trace w) ++
       match payload_for media currentMessage with
       | Some p => [(chatId, p)]
       | None => []
       end)%list.
Proof.
  intros H Hsend. unfold attempt, try_catch, bind, getNumberId.
  rewrite H. unfold payload_for in *. unfold sendMessage, external.
  destruct media as [m|]; simpl.
  - rewrite (Hsend _ eq_refl). simpl. eexists. split; [reflexivity|]. simpl.
    rewrite !resolved_numbers_app, !send_calls_app. simpl.
    rewrite !app_nil_r. split; reflexivity.
  - destruct (Js.truthy currentMessage); simpl.
    + rewrite (Hsend _ eq_refl). simpl. eexists. split; [reflexivity|]. simpl.
      rewrite !resolved_numbers_app, !send_calls_app. simpl.
      rewrite !app_nil_r. split; reflexivity.
    + unfold ret. eexists. split; [reflexivity|]. simpl.
      rewrite !resolved_numbers_app, !send_calls_app. simpl.
      rewrite !app_nil_r. split; reflexivity.
Qed.

(** Resolution finds an id and the send throws: the recipient is counted
    as failed, with the message of the error as reason. *)
Lemma attempt_send_throws (originalNumber numberOnly chatId msg : string)
    (p : Payload) (currentMessage : Json) (t : Tally) (w : World) :
  client_getNumberId env (trace w) client numberOnly = Normal (Some chatId) ->
  payload_for media currentMessage = Some p ->
  client_sendMessage env (trace w ++ [EGetNumberId client numberOnly])
    client chatId p = Some msg ->
  exists w',
    attempt_ originalNumber numberOnly currentMessage t w
      = (Normal (count_failed originalNumber (Js.str_or (Some msg) "Send failed") t),
         w').
Proof.
  intros H Hp Hsend. unfold attempt, try_catch, bind, getNumberId.
  rewrite H. unfold payload_for in Hp. unfold sendMessage, external.
  destruct media as [m|]; simpl.
  - injection Hp as <-. rewrite Hsend. simpl. eexists. reflexivity.
  - destruct (Js.truthy currentMessage); [|discriminate].
    injection Hp as <-. simpl. rewrite Hsend. simpl. eexists. reflexivity.
Qed.

(** Whatever the client answers, the attempt returns normally, has called
    [getNumberId] once, and has counted the recipient once: as sent, or as
    failed with an entry for it at the end of the failure list. *)
Lemma attempt_total (originalNumber numberOnly : string)
    (currentMessage : Json) (t : Tally) (w : World) :
  exists t' w',
    attempt_ originalNumber numberOnly currentMessage t w = (Normal t', w') /\
    (t' = count_sent t \/ exists reason, t' = count_failed originalNumber reason t) /\
    resolved_numbers (trace w') = (resolved_numbers (trace w) ++ [numberOnly])%list /\
    sm w' = sm w.
Proof.
  unfold attempt, try_catch, bind, getNumberId.
  destruct (client_getNumberId env (trace w) client numberOnly) as [[chatId|]|e].
  - unfold sendMessage, external.
    destruct media as [m|]; simpl.
    + destruct (client_sendMessage env _ client chatId _); simpl;
        do 2 eexists; (split; [reflexivity|]); simpl;
        rewrite !resolved_numbers_app; simpl; rewrite ?app_nil_r; eauto.
    + destruct (Js.truthy currentMessage); simpl.
      * destruct (client_sendMessage env _ client chatId _); simpl;
          do 2 eexists; (split; [reflexivity|]); simpl;
          rewrite !resolved_numbers_app; simpl; rewrite ?app_nil_r; eauto.
      * do 2 eexists; (split; [reflexivity|]); simpl;
          rewrite !resolved_numbers_app; simpl; rewrite ?app_nil_r; eauto.
  - simpl. do 2 eexists; (split; [reflexivity|]); simpl;
      rewrite !resolved_numbers_app; simpl; rewrite ?app_nil_r; eauto.
  - simpl. do 2 eexists; (split; [reflexivity|]); simpl;
      rewrite !resolved_numbers_app; simpl; rewrite ?app_nil_r; eauto.
Qed.

(** One turn of the loop on a recipient that is a string. *)
Lemma send_one_string (i : nat) (s : string) (t : Tally) (w : World) :
  exists t' w',
    send_one_ i (JStr s) t w = (Normal t', w') /\
    (t' = count_sent t \/ exists reason, t' = count_failed s reason t) /\
    resolved_numbers (trace w') =
      (resolved_numbers (trace w) ++ [normalizeNumber s])%list /\
    sm w' = sm w.
Proof.
  destruct (attempt_total s (normalizeNumber s)
              (message_for mensajesPorNumero message i) t w)
    as (t' & w1 & Ha & Ht & Hr & Hs).
  unfold send_one, bind. rewrite Ha.
  destruct (Z.of_nat i <? Z.of_nat total - 1); simpl.
  - do 2 eexists. split; [reflexivity|]. simpl.
    rewrite resolved_numbers_app, Hr. simpl. rewrite app_nil_r. auto.
  - do 2 eexists. split; [reflexivity|]. auto.
Qed.

(** A recipient that is not a string aborts the turn. *)
Lemma send_one_not_string (i : nat) (raw : Json) (t : Tally) (w : World) :
  (forall s, raw <> JStr s) ->
  exists e, send_one_ i raw t w = (Thrown e, w).
Proof.
  intros H. destruct raw; try (eexists; reflexivity).
  now destruct (H s).
Qed.

Lemma send_loop_cons (raw : Json) (r : list Json) (i : nat) (t : Tally) (w : World) :
  send_loop_ i (raw :: r) t w =
  match send_one_ i raw t w with
  | (Normal t1, w1) => send_loop_ (S i) r t1 w1
  | (Thrown e, w1) => (Thrown e, w1)
  end.
Proof. reflexivity. Qed.

Lemma send_loop_app (a b : list Json) (i : nat) (t : Tally) (w : World) :
  send_loop_ i (a ++ b) t w =
  match send_loop_ i a t w with
  | (Normal t1, w1) => send_loop_ (i + length a) b t1 w1
  | (Thrown e, w1) => (Thrown e, w1)
  end.
Proof.
  revert i t w. induction a as [|raw r IH]; intros i t w.
  - simpl. unfold ret. now rewrite Nat.add_0_r.
  - rewrite <- app_comm_cons, !send_loop_cons.
    destruct (send_one_ i raw t w) as [[t1|e] w1]; [|reflexivity].
    rewrite IH. simpl. now rewrite Nat.add_succ_r.
Qed.

(** Over recipients that are all strings the loop returns normally; each
    recipient is resolved once, in input order, and is counted once. *)
Lemma send_loop_strings (l : list string) (i : nat) (t : Tally) (w : World) :
  exists t' w',
    send_loop_ i (JStr <$> l) t w = (Normal t', w') /\
    (enviados t' + fallidos t' = enviados t + fallidos t + length l)%nat /\
    (exists later,
       failedNumbers t' = (failedNumbers t ++ later)%list /\
       (fallidos t' = fallidos t + length later)%nat /\
       forall f, f ∈ later -> fn_number f ∈ l) /\
    resolved_numbers (trace w') =
      (resolved_numbers (trace w) ++ map normalizeNumber l)%list /\
    sm w' = sm w.
Proof.
  revert i t w. induction l as [|s r IH]; intros i t w.
  - simpl. exists t, w. split; [reflexivity|]. split; [lia|]. split.
    + exists []. rewrite app_nil_r. split; [reflexivity|]. split; [simpl; lia|].
      intros f Hf. now apply elem_of_nil in Hf.
    + now rewrite app_nil_r.
  - destruct (send_one_string i s t w) as (t1 & w1 & H1 & Hc & Hr1 & Hs1).
    destruct (IH (S i) t1 w1) as (t' & w' & H2 & Hsum & (later & Hl & Hf & Hin) & Hr2 & Hs2).
    exists t', w'. rewrite fmap_cons, send_loop_cons, H1. split; [exact H2|].
    rewrite Hr2, Hr1, <- app_assoc, Hs2, Hs1. simpl.
    destruct Hc as [->|[reason ->]]; simpl in *.
    + split; [lia|]. split; [|auto]. exists later.
      split; [exact Hl|]. split; [lia|].
      intros f Hfin. apply elem_of_cons. right. now apply Hin.
    + split; [lia|]. split; [|auto].
      exists (mkFailedNumber s reason :: later).
      split; [now rewrite Hl, <- app_assoc|]. split; [simpl; lia|].
      intros f Hfin. apply elem_of_cons in Hfin as [->|Hfin].
      * apply elem_of_cons. now left.
      * apply elem_of_cons. right. now apply Hin.
Qed.

(** Whatever the recipients are: if the loop runs to its end, every
    recipient has been counted once. *)
Lemma send_loop_counts (l : list Json) (i : nat) (t t' : Tally) (w w' : World) :
  send_loop_ i l t w = (Normal t', w') ->
  (enviados t' + fallidos t' = enviados t + fallidos t + length l)%nat /\
  (length (failedNumbers t') + fallidos t = length (failedNumbers t) + fallidos t')%nat.
Proof.
  revert i t w. induction l as [|raw r IH]; intros i t w.
  - simpl. unfold ret. intros [= <- <-]. lia.
  - rewrite send_loop_cons. destruct raw as [| | |s| |];
      try (simpl; unfold throw; discriminate).
    destruct (send_one_string i s t w) as (t1 & w1 & H1 & Hc & _).
    rewrite H1. intros H. apply IH in H.
    destruct Hc as [->|[reason ->]]; simpl in *;
      rewrite ?length_app in *; simpl in *; lia.
Qed.

(** C10, as the code has it.  A recipient whose resolution yields an id
    is counted as sent unless its [sendMessage] call throws, in which case
    it is counted as failed with the error's message.  With no media and
    an empty message there is no [sendMessage] call at all, and the
    recipient is counted as sent.  Each turn of the loop counts its
    recipient once, as sent or as failed; so when the loop has run to its
    end, which it always does over recipients that are strings,
    [enviados + fallidos] is the number of recipients. *)
Theorem resolved_recipient_counts_as_sent
    (originalNumber numberOnly chatId : string) (currentMessage : Json)
    (l : list string) (numbersRaw : list Json) (i : nat) (t : Tally) (w : World) :
  (client_getNumberId env (trace w) client numberOnly = Normal (Some chatId) ->
   (forall p, payload_for media currentMessage = Some p ->
      client_sendMessage env (trace w ++ [EGetNumberId client numberOnly])
        client chatId p = None) ->
   exists w',
     attempt_ originalNumber numberOnly currentMessage t w
       = (Normal (count_sent t), w') /\
     enviados (count_sent t) = S (enviados t) /\
     fallidos (count_sent t) = fallidos t /\
     send_calls (trace w') =
       (send_calls (trace w) ++
        match payload_for media currentMessage with
        | Some p => [(chatId, p)]
        | None => []
        end)%list) /\
  (media = None -> Js.truthy currentMessage = false ->
   payload_for media currentMessage = None) /\
  (client_getNumberId env (trace w) client numberOnly = Normal (Some chatId) ->
   forall p msg,
     payload_for media currentMessage = Some p ->
     client_sendMessage env (trace w ++ [EGetNumberId client numberOnly])
       client chatId p = Some msg ->
     exists w',
       attempt_ originalNumber numberOnly currentMessage t w
         = (Normal (count_failed originalNumber
                      (Js.str_or (Some msg) "Send failed") t), w')) /\
  (exists t' w',
     send_one_ i (JStr originalNumber) t w = (Normal t', w') /\
     ((enviados t' = S (enviados t) /\ fallidos t' = fallidos t /\
       failedNumbers t' = failedNumbers t) \/
      (enviados t' = enviados t /\ fallidos t' = S (fallidos t) /\
       exists reason,
         failedNumbers t' =
           (failedNumbers t ++ [mkFailedNumber originalNumber reason])%list))) /\
  (exists t' w',
     send_loop_ 0 (JStr <$> l) tally0 w = (Normal t', w') /\
     (enviados t' + fallidos t')%nat = List.length l /\
     List.length (failedNumbers t') = fallidos t') /\
  (forall t' w',
     send_loop_ 0 numbersRaw tally0 w = (Normal t', w') ->
     (enviados t' + fallidos t')%nat = List.length numbersRaw /\
     List.length (failedNumbers t') = fallidos t').
Proof.
  split; [|split; [|split; [|split; [|split]]]].
  - intros Hres Hsend.
    destruct (attempt_sent originalNumber numberOnly chatId currentMessage t w
                Hres Hsend) as (w' & Ha & _ & Hs).
    exists w'. auto.
  - intros -> Hm. unfold payload_for. now rewrite Hm.
  - intros Hres p msg Hp Hthrow.
    exact (attempt_send_throws originalNumber numberOnly chatId msg p
             currentMessage t w Hres Hp Hthrow).
  - destruct (send_one_string i originalNumber t w) as (t' & w' & H & Hc & _).
    exists t', w'. split; [exact H|].
    destruct Hc as [->|[reason ->]]; simpl; eauto 10.
  - destruct (send_loop_strings l 0 tally0 w)
      as (t' & w' & H & Hsum & (later & Hl & Hf & _) & _).
    exists t', w'. split; [exact H|]. simpl in *. split; [lia|].
    rewrite Hl, Hf. reflexivity.
  - intros t' w' H. apply send_loop_counts in H. simpl in H. lia.
Qed.

(** C2. However the earlier recipients fared, a recipient for which
    [getNumberId] finds no id is recorded with [not_valid_reason] (the
    text "Not a valid WhatsApp number"), nothing is sent to it, and the
    loop goes on with the next recipient, whatever follows.  Over
    recipients that are strings it then returns normally: [getNumberId]
    has been called for every recipient, earlier and later, in input
    order, every recipient is counted once, and the entry stays in the
    failure list. *)
Theorem unresolved_recipient_is_recorded_and_batch_continues
    (before after : list string) (s : string) (i : nat) (t : Tally) (w : World) :
  exists t1 w1,
    send_loop_ i (JStr <$> before) t w = (Normal t1, w1) /\
    (client_getNumberId env (trace w1) client (normalizeNumber s) = Normal None ->
     exists w2 t3 w3 later,
       send_one_ (i + List.length before) (JStr s) t1 w1
         = (Normal (count_failed s not_valid_reason t1), w2) /\
       send_calls (trace w2) = send_calls (trace w1) /\
       (forall rest : list Json,
          send_loop_ i ((JStr <$> before) ++ JStr s :: rest)%list t w =
          send_loop_ (S (i + List.length before)) rest
            (count_failed s not_valid_reason t1) w2) /\
       send_loop_ (S (i + List.length before)) (JStr <$> after)
         (count_failed s not_valid_reason t1) w2 = (Normal t3, w3) /\
       send_loop_ i (JStr <$> (before ++ s :: after)%list) t w = (Normal t3, w3) /\
       resolved_numbers (trace w3) =
         (resolved_numbers (trace w) ++
          map normalizeNumber (before ++ s :: after))%list /\
       (enviados t3 + fallidos t3
        = enviados t + fallidos t + List.length (before ++ s :: after)%list)%nat /\
       failedNumbers t3 =
         (failedNumbers t1 ++ mkFailedNumber s not_valid_reason :: later)%list /\
       fallidos t3 = (S (fallidos t1) + List.length later)%nat).
Proof.
  destruct (send_loop_strings before i t w)
    as (t1 & w1 & H1 & Hsum1 & _ & Hr1 & _).
  exists t1, w1. split; [exact H1|]. intros Hnone.
  pose proof (attempt_not_registered s (normalizeNumber s)
                (message_for mensajesPorNumero message (i + length before))
                t1 w1 Hnone) as Ha.
  destruct (send_one_ (i + length before) (JStr s) t1 w1) as [r2 w2] eqn:H2.
  assert (Hone : r2 = Normal (count_failed s not_valid_reason t1) /\
                 send_calls (trace w2) = send_calls (trace w1) /\
                 resolved_numbers (trace w2) =
                   (resolved_numbers (trace w1) ++ [normalizeNumber s])%list).
  { unfold send_one, bind in H2. rewrite Ha in H2.
    destruct (Z.of_nat (i + length before) <? Z.of_nat total - 1);
      simpl in H2; injection H2 as <- <-; simpl;
      rewrite ?send_calls_app, ?resolved_numbers_app; simpl;
      rewrite ?app_nil_r; auto. }
  destruct Hone as (-> & Hs2 & Hr2).
  destruct (send_loop_strings after (S (i + length before))
              (count_failed s not_valid_reason t1) w2)
    as (t3 & w3 & H3 & Hsum3 & (later & Hl & Hf & _) & Hr3 & _).
  exists w2, t3, w3, later.
  split; [reflexivity|]. split; [exact Hs2|]. split.
  { intros rest. now rewrite send_loop_app, H1, length_fmap, send_loop_cons, H2. }
  split; [exact H3|]. split.
  { rewrite fmap_app, send_loop_app, H1, length_fmap, fmap_cons, send_loop_cons, H2.
    exact H3. }
  split.
  { rewrite Hr3, Hr2, Hr1, map_app. simpl. now rewrite <- !app_assoc. }
  simpl in *. rewrite length_app. simpl. split; [lia|]. split.
  - rewrite Hl. now rewrite <- app_assoc.
  - lia.
Qed.

End DispatchLoop.

(** The text of the reason recorded for an unresolved recipient. *)
Lemma not_valid_reason_text : not_valid_reason = "Not a valid WhatsApp number".
Proof. reflexivity. Qed.

(** Three recipients, the second of which is not registered: two are
    sent, one has failed, and the failure list holds exactly the second
    recipient; all three were resolved, in order. *)
Lemma unresolved_recipient_witness :
  exists t3 w3,
    send_loop env_second_unknown 0%nat (Some "hola") None three_messages 3%nat 8000
      0%nat (JStr <$> three_numbers) tally0 (world_at 5) = (Normal t3, w3) /\
    enviados t3 = 2%nat /\ fallidos t3 = 1%nat /\
    failedNumbers t3 = [mkFailedNumber "70000002" "Not a valid WhatsApp number"] /\
    resolved_numbers (trace w3) = ["59170000001"; "59170000002"; "59170000003"] /\
    send_calls (trace w3) =
      [("59170000001@c.us", Content (JStr "hola"));
       ("59170000003@c.us", Content (JStr "hola"))].
Proof.
  destruct (unresolved_recipient_is_recorded_and_batch_continues
              env_second_unknown 0%nat (Some "hola") None three_messages 3%nat 8000
              ["70000001"] ["70000003"] "70000002" 0%nat tally0 (world_at 5))
    as (t1 & w1 & H1 & H).
  vm_compute in H1. injection H1 as <- <-.
  destruct H as (w2 & t3 & w3 & later & _ & _ & _ & _ & Hrun & _); [reflexivity|].
  exists t3, w3. split; [exact Hrun|].
  vm_compute in Hrun. injection Hrun as <- <-.
  vm_compute. repeat split.
Defined.

Lemma resolved_recipient_counts_as_sent_witness :
  exists w',
    attempt env_ok 0%nat None "70000001" "59170000001" (JStr "") tally0 (world_at 5)
      = (Normal (count_sent tally0), w') /\
    enviados (count_sent tally0) = 1%nat /\
    send_calls (trace w') = [].
Proof.
  destruct (resolved_recipient_counts_as_sent env_ok 0%nat None None [] 3%nat 8000
              "70000001" "59170000001" "59170000001@c.us" (JStr "")
              [] [] 0%nat tally0 (world_at 5)) as (H & Hnone & _).
  destruct H as (w' & Ha & He & _ & Hs); [reflexivity|intros p Hp|].
  - rewrite Hnone in Hp by reflexivity. discriminate.
  - exists w'. split; [exact Ha|]. split; [exact He|].
    rewrite Hs, Hnone by reflexivity. reflexivity.
Defined.

(** C10 as stated fails when the send throws: the number resolves, the
    text "hola" is handed to [sendMessage], which throws; the recipient
    is counted as failed, not as sent. *)
Lemma resolved_recipient_failed_when_send_throws :
  client_getNumberId env_send_throws [] 0%nat "59170000001"
    = Normal (Some "59170000001@c.us") /\
  fst (attempt env_send_throws 0%nat None "70000001" "59170000001" (JStr "hola")
         tally0 (world_at 5))
    = Normal (mkTally 0 1 [mkFailedNumber "70000001" "Evaluation failed"]) /\
  trace (snd (attempt env_send_throws 0%nat None "70000001" "59170000001"
                (JStr "hola") tally0 (world_at 5)))
    = [EGetNumberId 0%nat "59170000001";
       ESendMessage 0%nat "59170000001@c.us" (Content (JStr "hola"));
       ELog LError "Error sending message"].
Proof. vm_compute. repeat split. Qed.

(** ** Statements only add to the trace *)

Lemma grows_ret {A} (a : A) : grows (ret a).
Proof. intros w. exists []. simpl. now rewrite app_nil_r. Qed.

Lemma grows_throw {A} (e : string) : grows (@throw A e).
Proof. intros w. exists []. simpl. now rewrite app_nil_r. Qed.

Lemma grows_lift {A} (c : Completion A) : grows (lift c).
Proof. intros w. exists []. simpl. now rewrite app_nil_r. Qed.

Lemma grows_gets {A} (f : SessionManager -> A) : grows (gets f).
Proof. intros w. exists []. simpl. now rewrite app_nil_r. Qed.

Lemma grows_modify (f : SessionManager -> SessionManager) : grows (modify f).
Proof. intros w. exists []. simpl. now rewrite app_nil_r. Qed.

Lemma grows_Date_now : grows Date_now.
Proof. intros w. exists []. simpl. now rewrite app_nil_r. Qed.

Lemma grows_emit (e : Effect) : grows (emit e).
Proof. intros w. exists [e]. reflexivity. Qed.

Lemma grows_external (e : Effect) (answer : list Effect -> option string) :
  grows (external e answer).
Proof. intros w. exists [e]. unfold external. now destruct (answer (trace w)). Qed.

Lemma grows_bind {A B} (m : M A) (k : A -> M B) :
  grows m -> (forall a, grows (k a)) -> grows (bind m k).
Proof.
  intros Hm Hk w. unfold bind. destruct (Hm w) as [more1 H1].
  destruct (m w) as [[a|e] w1]; simpl in *.
  - destruct (Hk a w1) as [more2 H2]. exists (more1 ++ more2)%list.
    now rewrite H2, H1, app_assoc.
  - now exists more1.
Qed.

Lemma grows_try_catch {A} (m : M A) (h : string -> M A) :
  grows m -> (forall e, grows (h e)) -> grows (try_catch m h).
Proof.
  intros Hm Hh w. unfold try_catch. destruct (Hm w) as [more1 H1].
  destruct (m w) as [[a|e] w1]; simpl in *.
  - now exists more1.
  - destruct (Hh e w1) as [more2 H2]. exists (more1 ++ more2)%list.
    now rewrite H2, H1, app_assoc.
Qed.

Create HintDb grows.

#[local] Hint Resolve grows_ret grows_throw grows_lift grows_gets grows_modify
  grows_Date_now grows_emit grows_external : grows.

Ltac grows_step :=
  first [ apply grows_bind; [|intros ?]
        | apply grows_try_catch; [|intros ?]
        | solve [auto with grows] ].

Lemma grows_getNumberId (env : Env) (client : Client) (n : string) :
  grows (getNumberId env client n).
Proof. intros w. exists [EGetNumberId client n]. reflexivity. Qed.

Lemma grows_attempt (env : Env) (client : Client) (media : option MessageMedia)
    (o n : string) (cur : Json) (t : Tally) :
  grows (attempt env client media o n cur t).
Proof.
  unfold attempt, sendMessage, logger.
  apply grows_try_catch; [|intros ?; repeat grows_step].
  apply grows_bind; [apply grows_getNumberId|]. intros [chatId|].
  - destruct media; [|destruct (Js.truthy cur)]; repeat grows_step.
  - repeat grows_step.
Qed.

Lemma grows_send_one (env : Env) (client : Client) (message : option string)
    (media : option MessageMedia) (mens : list Json) (total : nat) (sendDelay : Z)
    (i : nat) (raw : Json) (t : Tally) :
  grows (send_one env client message media mens total sendDelay i raw t).
Proof.
  unfold send_one. destruct raw; try apply grows_throw.
  apply grows_bind; [apply grows_attempt|]. intros t'.
  destruct (Z.of_nat i <? Z.of_nat total - 1); repeat grows_step.
Qed.

Lemma grows_send_loop (env : Env) (client : Client) (message : option string)
    (media : option MessageMedia) (mens : list Json) (total : nat) (sendDelay : Z)
    (l : list Json) (i : nat) (t : Tally) :
  grows (send_loop env client message media mens total sendDelay i l t).
Proof.
  revert i t. induction l as [|raw r IH]; intros i t; simpl.
  - apply grows_ret.
  - apply grows_bind; [apply grows_send_one|]. intros t'. apply IH.
Qed.

(** ** The lock is released on every exit *)

Lemma releaseLock_eq (userId : string) (w : World) :
  releaseLock userId w =
  (Normal tt,
   add_effect (ELockReleased userId) (set_sm (sessionLocks_delete userId (sm w)) w)).
Proof. reflexivity. Qed.

Lemma unlink_upload_sync_eq (env : Env) (mediaFile : option MediaFile) (w : World) :
  unlink_upload_sync env mediaFile w =
  (completion_of (unlink_fails env mediaFile (trace w)), unlinked mediaFile w).
Proof.
  destruct mediaFile as [f|]; simpl.
  - unfold external, unlinked, add_effect. simpl.
    destruct (fs_unlinkSync env (trace w) (mf_path f)); reflexivity.
  - unfold ret, unlinked. simpl. now rewrite app_nil_r, World_eta.
Qed.

Lemma unlink_upload_eq (mediaFile : option MediaFile) (w : World) :
  exists w',
    unlink_upload mediaFile w = (Normal tt, w') /\
    trace w' = (trace w ++ unlink_effects mediaFile)%list /\ sm w' = sm w.
Proof.
  destruct mediaFile; simpl; eexists; (split; [reflexivity|]); simpl;
    rewrite ?app_nil_r; auto.
Qed.

(** A rejection after the lock was taken: the upload is removed, the lock
    released, and only then the answer given.  When [unlinkSync] throws,
    neither the release nor the answer is reached. *)
Lemma reject_eq (env : Env) (mediaFile : option MediaFile) (userId msg : string)
    (w : World) :
  (unlink_upload_sync env mediaFile ;;;
   releaseLock userId ;;;
   respond 400 (RError msg None))%js w =
  match unlink_fails env mediaFile (trace w) with
  | None =>
      (Normal tt,
       mkWorld (sessionLocks_delete userId (sm w)) (disk w)
         (trace w ++ unlink_sync_effects mediaFile ++
          [ELockReleased userId; ERespond 400 (RError msg None)])
         (clock w) (next_client w))
  | Some e => (Thrown e, unlinked mediaFile w)
  end.
Proof.
  unfold bind at 1. rewrite unlink_upload_sync_eq.
  destruct (unlink_fails env mediaFile (trace w)); [reflexivity|].
  unfold completion_of, bind, respond, releaseLock, bind, modify, emit,
    add_effect, set_sm, unlinked; simpl. now rewrite <- !app_assoc.
Qed.

(** The detached job always ends by removing the upload and releasing
    the lock, in that order, whatever happened in the loop. *)
Lemma background_releases (env : Env) (userId : string) (client : Client)
    (message : option string) (media : option MessageMedia) (mens : list Json)
    (total : nat) (sendDelay : Z) (mediaFile : option MediaFile)
    (numbersRaw : list Json) (w : World) :
  exists w' pre,
    background env userId client message media mens total sendDelay mediaFile
      numbersRaw w = (Normal tt, w') /\
    sessionLocks (sm w') !! userId = None /\
    trace w' =
      (trace w ++ pre ++ unlink_effects mediaFile ++ [ELockReleased userId])%list.
Proof.
  unfold background, try_finally.
  match goal with
  | |- context [try_catch ?b ?h w] =>
      assert (Hg : grows (try_catch b h));
      [|assert (Hn : fst (try_catch b h w) = Normal tt);
        [|destruct (Hg w) as [pre Hpre]; destruct (try_catch b h w) as [r w1]]]
  end.
  - apply grows_try_catch; [|intros ?; apply grows_emit].
    apply grows_bind.
    { unfold updateActivity. apply grows_bind; [apply grows_Date_now|].
      intros ?. apply grows_modify. }
    intros _. apply grows_bind; [apply grows_send_loop|]. intros ?. apply grows_emit.
  - unfold try_catch.
    match goal with |- context [?b w] => destruct (b w) as [[[]|e] wb] end;
      reflexivity.
  - simpl in Hn, Hpre. subst r.
    destruct (unlink_upload_eq mediaFile w1) as (w2 & H2 & Ht2 & Hs2).
    unfold bind. rewrite H2, releaseLock_eq. eexists. exists pre.
    split; [reflexivity|]. simpl. split; [apply lookup_delete_eq|].
    rewrite Ht2, Hpre. rewrite <- !app_assoc. reflexivity.
Qed.

Lemma parse_lists_world (env : Env) (req : Request) (w : World) :
  snd (parse_lists env req w) = w.
Proof.
  unfold parse_lists, bind, lift.
  destruct (JSON_parse env (Js.str_or (req_numbers req) "[]")); [|reflexivity].
  destruct (JSON_parse env (Js.str_or (req_mensajesPorNumero req) "[]"));
    [|reflexivity].
  destruct a; reflexivity.
Qed.

Lemma load_media_total (env : Env) (mediaFile : option MediaFile) (w : World) :
  exists media w' more,
    load_media env mediaFile w = (Normal media, w') /\
    trace w' = (trace w ++ more)%list /\ sm w' = sm w.
Proof.
  destruct mediaFile as [f|]; simpl.
  - unfold try_catch, bind.
    destruct (fs_readFileSync env (trace w) (mf_path f)); simpl;
      do 3 eexists; (split; [reflexivity|]); simpl;
      rewrite <- ?app_assoc; auto.
  - exists None, w, []. rewrite app_nil_r. auto.
Qed.

Lemma dispatch_locked_releases (cfg : Config) (env : Env) (req : Request)
    (userId : string) (client : Client) (w : World) :
  (match fst (parse_lists env req w) with
   | Normal (numbersRaw, _) =>
       (Js.opt_truthy (req_message req) || bool_decide (is_Some (req_file req)))
       && negb (List.length numbersRaw =? 0)%nat
   | Thrown _ => false
   end = false ->
   unlink_fails env (req_file req) (trace w) = None) ->
  exists w' pre,
    dispatch_locked cfg env req userId client w = (Normal tt, w') /\
    sessionLocks (sm w') !! userId = None /\
    ((exists msg,
        pre = [] /\
        trace w' =
          (trace w ++ pre ++ unlink_sync_effects (req_file req) ++
           [ELockReleased userId; ERespond 400 (RError msg None)])%list) \/
     (exists n,
        ERespond 200 (RInitiated n) ∈ pre /\
        trace w' =
          (trace w ++ pre ++ unlink_effects (req_file req) ++
           [ELockReleased userId])%list)).
Proof.
  intros Hrej.
  assert (Hreject : forall msg,
            unlink_fails env (req_file req) (trace w) = None ->
            exists w' pre,
              (unlink_upload_sync env (req_file req) ;;;
               releaseLock userId ;;;
               respond 400 (RError msg None))%js w = (Normal tt, w') /\
              sessionLocks (sm w') !! userId = None /\
              ((exists msg,
                  pre = [] /\
                  trace w' =
                    (trace w ++ pre ++ unlink_sync_effects (req_file req) ++
                     [ELockReleased userId; ERespond 400 (RError msg None)])%list) \/
               (exists n,
                  ERespond 200 (RInitiated n) ∈ pre /\
                  trace w' =
                    (trace w ++ pre ++ unlink_effects (req_file req) ++
                     [ELockReleased userId])%list))).
  { intros msg Hok. rewrite reject_eq, Hok. eexists. exists [].
    split; [reflexivity|]. split; [apply lookup_delete_eq|].
    left. exists msg. split; reflexivity. }
  unfold dispatch_locked. unfold bind at 1. unfold try_catch at 1.
  unfold bind at 1.
  pose proof (parse_lists_world env req w) as Hw.
  destruct (parse_lists env req w) as [[[numbersRaw mens]|e] w0];
    simpl in Hw; subst w0; simpl fst in Hrej.
  - unfold ret at 1.
    destruct (negb (Js.opt_truthy (req_message req)) &&
              negb (bool_decide (is_Some (req_file req)))) eqn:Hno.
    { apply Hreject, Hrej.
      apply andb_true_iff in Hno as [H1 H2].
      apply negb_true_iff in H1, H2. now rewrite H1, H2. }
    destruct (List.length numbersRaw =? 0)%nat eqn:Hlen.
    { apply Hreject, Hrej. simpl. rewrite Hlen. apply andb_false_r. }
    destruct (load_media_total env (req_file req) w) as (media & w1 & more & H1 & Ht1 & _).
    unfold bind at 1. rewrite H1.
    unfold bind at 1. unfold logger at 1. unfold emit at 1.
    unfold bind at 1. unfold respond at 1. unfold emit at 1.
    match goal with
    | |- context [background ?a ?b ?c ?d ?e ?f ?g ?h ?i ?j ?w0] =>
        destruct (background_releases a b c d e f g h i j w0)
          as (w' & pre & H & Hl & Ht)
    end.
    exists w', (more ++ ELog LInfo "Starting to send messages"
                  :: ERespond 200 (RInitiated (List.length numbersRaw))
                  :: pre)%list.
    split; [exact H|]. split; [exact Hl|].
    right. exists (List.length numbersRaw). split.
    + apply elem_of_app. right. apply elem_of_cons. right.
      apply elem_of_cons. left. reflexivity.
    + rewrite Ht. simpl. rewrite Ht1. rewrite <- !app_assoc. simpl.
      reflexivity.
  - destruct (Hreject "Invalid JSON in numbers or mensajesPorNumero field."
                (Hrej eq_refl)) as (w' & pre & H & Hrest).
    exists w', pre. split; [|exact Hrest].
    unfold bind in H |- *.
    destruct (unlink_upload_sync env (req_file req) w) as [[[]|?] w1];
      try discriminate.
    destruct (releaseLock userId w1) as [[[]|?] w2]; try discriminate.
    unfold respond, emit, ret in *. injection H as <-. reflexivity.
Qed.

Lemma takes_lock_true (req : Request) (userId : string) (client : Client)
    (w : World) :
  req_userId req = Some userId ->
  JsString.truthy userId = true ->
  sessions (sm w) !! userId = Some client ->
  sessionStatus (sm w) !! userId = Some ready ->
  sessionLocks (sm w) !! userId = None ->
  takes_lock req w = true.
Proof.
  intros Hu Ht Hc Hs Hl. unfold takes_lock. rewrite Hu, Ht, Hc, Hs, Hl.
  reflexivity.
Qed.

Lemma parse_lists_fst (env : Env) (req : Request) (w w' : World) :
  fst (parse_lists env req w) = fst (parse_lists env req w').
Proof.
  unfold parse_lists, bind, lift.
  destruct (JSON_parse env (Js.str_or (req_numbers req) "[]")); [|reflexivity].
  destruct (JSON_parse env (Js.str_or (req_mensajesPorNumero req) "[]"));
    [|reflexivity].
  destruct a; reflexivity.
Qed.

(** C3 fails when [fs.unlinkSync] throws on a rejection after the lock
    was taken (lines 404-405 and 416-417): the statement stands before
    [releaseLock] and outside any [try], so the handler is left by the
    exception, no answer is given, and the lock of the session is still
    held when the handler is left.  Session ["a"] is ready and free, the
    request carries an upload that the process may not remove, and its
    [numbers] field is the empty list, or is not JSON.  If the process
    goes on after the rejected promise of the handler, a later request
    for the session, made when the file system works again, is answered
    429. *)
Lemma lock_stays_held_when_unlinkSync_throws :
  let run :=
    send_messages (config_max 50) env_unlink_throws request_no_numbers
      world_ready_a in
  let run' :=
    send_messages (config_max 50) env_unlink_throws request_bad_json
      world_ready_a in
  let later :=
    send_messages (config_max 50) env_ok request_with_upload (snd run) in
  sessionLocks (sm world_ready_a) !! "a" = None /\
  fst (acquireLock "a" world_ready_a) = Normal true /\
  fst (parse_lists env_unlink_throws request_no_numbers world_ready_a)
    = Normal ([], []) /\
  fst run = Thrown "EPERM: operation not permitted, unlink" /\
  trace (snd run) =
    [ELog LInfo "Starting message send process";
     EUnlinkSync "uploads/media-4.png"] /\
  sessionLocks (sm (snd run)) !! "a" = Some 200 /\
  fst run' = Thrown "EPERM: operation not permitted, unlink" /\
  trace (snd run') =
    [ELog LInfo "Starting message send process";
     EUnlinkSync "uploads/media-2.png"] /\
  sessionLocks (sm (snd run')) !! "a" = Some 200 /\
  responses (trace (snd later)) =
    [(429%nat, RError "Session is busy, please try again later." None)].
Proof. vm_compute. repeat split. Qed.

(** X28.  The release of the lock, where it holds.  When the handler
    has taken the lock (the request names a session that is ready and not
    locked) and [unlinkSync] does not throw on a rejection, it returns
    normally and the lock is free again at the end, on every path.  On a
    rejection the upload is removed, then the lock is released, and only
    then the 400 answer is given.  Once the 200 answer is out, the job
    ends, whether its loop ran to the end or was aborted by an exception,
    by asking for the removal of the upload and then releasing the lock;
    nothing follows the release. *)
Theorem lock_released_on_every_exit (cfg : Config) (env : Env) (req : Request)
    (userId : string) (client : Client) (w : World) :
  req_userId req = Some userId ->
  JsString.truthy userId = true ->
  sessions (sm w) !! userId = Some client ->
  sessionStatus (sm w) !! userId = Some ready ->
  sessionLocks (sm w) !! userId = None ->
  (accepts env req w = false -> refusal_unlink env req w = None) ->
  exists w' pre,
    send_messages cfg env req w = (Normal tt, w') /\
    fst (acquireLock userId w) = Normal true /\
    sessionLocks (sm w') !! userId = None /\
    ((exists msg,
        trace w' =
          (trace w ++ pre ++ unlink_sync_effects (req_file req) ++
           [ELockReleased userId; ERespond 400 (RError msg None)])%list) \/
     (exists n,
        ERespond 200 (RInitiated n) ∈ pre /\
        trace w' =
          (trace w ++ pre ++ unlink_effects (req_file req) ++
           [ELockReleased userId])%list)).
Proof.
  intros Hu Ht Hc Hs Hl Hrej.
  assert (Hacq : forall w0, sessionLocks (sm w0) !! userId = None ->
            acquireLock userId w0 =
            (Normal true, set_sm (sessionLocks_set userId (clock w0) (sm w0)) w0)).
  { intros w0 H. unfold acquireLock, bind, gets, modify, Date_now, ret. simpl.
    rewrite bool_decide_eq_false_2 by (rewrite H; apply is_Some_None).
    reflexivity. }
  unfold accepts, passes_checks in Hrej.
  rewrite (takes_lock_true req userId client w Hu Ht Hc Hs Hl), andb_true_l in Hrej.
  unfold send_messages. rewrite Hu, Ht.
  unfold bind at 1. unfold logger at 1. unfold emit at 1.
  unfold bind at 1. unfold getSession at 1. unfold gets at 1. simpl.
  unfold bind at 1. unfold getSessionStatus at 1. unfold gets at 1. simpl.
  rewrite Hc, Hs. simpl.
  unfold bind at 1. rewrite Hacq by exact Hl.
  match goal with
  | |- context [dispatch_locked cfg env req userId client ?w0] =>
      destruct (dispatch_locked_releases cfg env req userId client w0)
        as (w' & pre & H & Hfree & Htrace);
      [rewrite (parse_lists_fst env req w0 w); exact Hrej|]
  end.
  exists w', (ELog LInfo "Starting message send process" :: pre).
  split; [exact H|]. split; [now rewrite Hacq|]. split; [exact Hfree|].
  simpl in Htrace.
  destruct Htrace as [(msg & -> & Htr)|(n & Hin & Htr)]; [left|right].
  - exists msg. rewrite Htr. now rewrite <- !app_assoc.
  - exists n. split; [apply elem_of_cons; now right|].
    rewrite Htr. now rewrite <- !app_assoc.
Qed.

(** Two runs on the ready session ["a"].  With recipients that are not
    strings the loop is aborted by a [TypeError] after the 200 answer;
    with a [numbers] field that is not JSON the request is rejected.  In
    both the lock is free at the end and the release follows the removal
    of the upload. *)
Lemma lock_released_on_every_exit_witness :
  let w1 := snd (send_messages (config_max 50) env_ok
                   request_numbers_not_strings world_ready_a) in
  let w2 := snd (send_messages (config_max 50) env_ok
                   request_bad_json world_ready_a) in
  sessionLocks (sm w1) !! "a" = None /\
  sessionLocks (sm w2) !! "a" = None /\
  trace w1 =
    [ELog LInfo "Starting message send process";
     EReadFileSync "uploads/media-1.png";
     ELog LInfo "Media file processed";
     ELog LInfo "Starting to send messages";
     ERespond 200 (RInitiated 2);
     ELog LError "Error in message sending process";
     EUnlink "uploads/media-1.png";
     ELockReleased "a"] /\
  trace w2 =
    [ELog LInfo "Starting message send process";
     EUnlinkSync "uploads/media-2.png";
     ELockReleased "a";
     ERespond 400
       (RError "Invalid JSON in numbers or mensajesPorNumero field." None)].
Proof.
  cbv zeta.
  destruct (lock_released_on_every_exit (config_max 50) env_ok
              request_numbers_not_strings "a" 0%nat world_ready_a)
    as (w1 & pre1 & H1 & _ & Hl1 & _); try (vm_compute; reflexivity).
  destruct (lock_released_on_every_exit (config_max 50) env_ok
              request_bad_json "a" 0%nat world_ready_a)
    as (w2 & pre2 & H2 & _ & Hl2 & _); try (vm_compute; reflexivity).
  rewrite H1, H2. simpl. split; [exact Hl1|]. split; [exact Hl2|].
  vm_compute in H1. injection H1 as <-.
  vm_compute in H2. injection H2 as <-.
  split; reflexivity.
Defined.

(** ** The report of a job *)

(** X1.  Over recipients that are strings the job always logs its
    report, and the report adds up: [enviados + fallidos] is the number
    of recipients and the failure list has [fallidos] entries. *)
Lemma background_report (env : Env) (userId : string) (client : Client)
    (message : option string) (media : option MessageMedia) (mens : list Json)
    (sendDelay : Z) (mediaFile : option MediaFile) (l : list string) (w : World) :
  exists w' pre e f failed,
    background env userId client message media mens (List.length l) sendDelay
      mediaFile (JStr <$> l) w = (Normal tt, w') /\
    trace w' =
      (trace w ++ pre ++ EReport e f (List.length l) failed ::
       unlink_effects mediaFile ++ [ELockReleased userId])%list /\
    (e + f)%nat = List.length l /\
    List.length failed = f.
Proof.
  destruct (send_loop_strings env client message media mens (List.length l)
              sendDelay l 0%nat (mkTally 0 0 [])
              (set_sm (lastActivity_set userId (clock w) (sm w)) w))
    as (t' & w1 & Hrun & Hsum & (later & Hl & Hf & _) & _ & _).
  destruct (grows_send_loop env client message media mens (List.length l)
              sendDelay (JStr <$> l) 0%nat (mkTally 0 0 [])
              (set_sm (lastActivity_set userId (clock w) (sm w)) w)) as [pre Hpre].
  rewrite Hrun in Hpre. simpl in Hpre.
  destruct (unlink_upload_eq mediaFile
              (add_effect (EReport (enviados t') (fallidos t') (List.length l)
                             (failedNumbers t')) w1)) as (w2 & H2 & Ht2 & _).
  exists (add_effect (ELockReleased userId)
            (set_sm (sessionLocks_delete userId (sm w2)) w2)),
         pre, (enviados t'), (fallidos t'), (failedNumbers t').
  split.
  - unfold background, try_finally, try_catch, bind, updateActivity, Date_now,
      modify. simpl. rewrite Hrun. unfold emit. rewrite H2, releaseLock_eq.
    reflexivity.
  - simpl in *. split.
    + rewrite Ht2. simpl. rewrite Hpre. rewrite <- !app_assoc. reflexivity.
    + split; [lia|]. rewrite Hl, Hf. reflexivity.
Qed.

(** ** Aggregation with a steady client *)

(** With a steady client the final counters are those of a plain count:
    the unresolved recipients are the failures, each recorded once, in
    input order, with [not_valid_reason]; all the others are sent. *)
Lemma send_loop_steady (env : Env) (client : Client) (message : option string)
    (media : option MessageMedia) (mens : list Json) (total : nat) (sendDelay : Z)
    (resolve : string -> option string) (l : list string) (i : nat) (t : Tally)
    (w : World) :
  steady env resolve ->
  exists w',
    send_loop env client message media mens total sendDelay i (JStr <$> l) t w =
    (Normal
       (mkTally
          (enviados t + (List.length l - List.length (unresolved resolve l)))
          (fallidos t + List.length (unresolved resolve l))
          (failedNumbers t ++
           map (fun s => mkFailedNumber s not_valid_reason) (unresolved resolve l))),
     w').
Proof.
  intros [Hres Hsend]. revert i t w.
  induction l as [|s r IH]; intros i t w.
  - exists w. simpl. unfold ret. rewrite app_nil_r, !Nat.add_0_r.
    now destruct t.
  - rewrite fmap_cons, send_loop_cons. unfold send_one, bind.
    pose proof (length_filter (fun s => resolve (normalizeNumber s) = None) r) as Hle.
    unfold unresolved in *. rewrite filter_cons.
    destruct (resolve (normalizeNumber s)) as [chatId|] eqn:Hs.
    + rewrite decide_False by discriminate.
      destruct (attempt_sent env client media s (normalizeNumber s) chatId
                  (message_for mens message i) t w) as (w1 & Ha & _).
      { rewrite Hres. now rewrite Hs. }
      { intros p _. apply Hsend. }
      rewrite Ha.
      destruct (Z.of_nat i <? Z.of_nat total - 1); simpl;
        match goal with
        | |- context [send_loop _ _ _ _ _ _ _ _ _ _ ?w0] =>
            destruct (IH (S i) (count_sent t) w0) as [w' ->]
        end; exists w'; simpl; do 2 f_equal; f_equal; lia.
    + rewrite decide_True by reflexivity.
      rewrite (attempt_not_registered env client media s (normalizeNumber s)
                 (message_for mens message i) t w)
        by (rewrite Hres; now rewrite Hs).
      destruct (Z.of_nat i <? Z.of_nat total - 1); simpl;
        match goal with
        | |- context [send_loop _ _ _ _ _ _ _ _ _ _ ?w0] =>
            destruct (IH (S i) (count_failed s not_valid_reason t) w0) as [w' ->]
        end; exists w'; simpl; rewrite <- app_assoc; simpl;
        do 2 f_equal; f_equal; lia.
Qed.

(** ** [createSession] *)

(** Below capacity, [createSession] on a session that is live changes
    nothing and answers with its status. *)
Lemma createSession_live_below_capacity (cfg : Config) (env : Env)
    (userId : string) (c : Client) (st : Status) (w : World) :
  Z.of_nat (size (sessions (sm w))) < maxSessions (cfg_sessions cfg) ->
  sessions (sm w) !! userId = Some c ->
  sessionStatus (sm w) !! userId = Some st ->
  status_includes live_statuses (Some st) = true ->
  createSession cfg env userId w =
  (Normal (mkCreateResult true (Some ("Session already " +:+ Status_to_string st))
             None (Some st)), w).
Proof.
  intros Hsize Hc Hst Hlive. unfold createSession, enforce_limit.
  unfold bind at 1. unfold bind at 1. unfold gets at 1. simpl.
  assert ((maxSessions (cfg_sessions cfg) <=? Z.of_nat (size (sessions (sm w)))) = false)
    as -> by (apply Z.leb_gt; exact Hsize).
  unfold bind, ret, gets. simpl. rewrite Hc, Hst, Hlive. reflexivity.
Qed.

(** More generally: if the session is still there after the limit check,
    the call answers with its status and changes nothing more. *)
Lemma createSession_live_after_limit (cfg : Config) (env : Env)
    (userId : string) (c : Client) (st : Status) (w w0 : World) :
  enforce_limit cfg env w = (Normal tt, w0) ->
  sessions (sm w0) !! userId = Some c ->
  sessionStatus (sm w0) !! userId = Some st ->
  status_includes live_statuses (Some st) = true ->
  createSession cfg env userId w =
  (Normal (mkCreateResult true (Some ("Session already " +:+ Status_to_string st))
             None (Some st)), w0).
Proof.
  intros Hev Hc Hst Hlive. unfold createSession.
  unfold bind at 1. rewrite Hev.
  unfold bind, ret, gets. simpl. rewrite Hc, Hst, Hlive. reflexivity.
Qed.

(** C4 fails when the registry is full and the session is the one the
    eviction picks.  With room for three sessions and three sessions
    running, ["a"] is ready on client handle 0 and is the least recently
    active; [createSession "a"] logs that handle out, destroys it, and
    starts the session again on the new handle 3, in status
    [initializing]. *)
Lemma createSession_replaces_ready_session_at_capacity :
  let r := createSession (config_max 3) env_ok "a" world_three in
  maxSessions (cfg_sessions (config_max 3)) = 3 /\
  size (sessions (sm world_three)) = 3%nat /\
  sessions (sm world_three) !! "a" = Some 0%nat /\
  sessionStatus (sm world_three) !! "a" = Some ready /\
  fst r = Normal (mkCreateResult true (Some "Session initialization finished.")
                    None (Some initializing)) /\
  sessions (sm (snd r)) !! "a" = Some 3%nat /\
  sessionStatus (sm (snd r)) !! "a" = Some initializing /\
  trace (snd r) =
    [ELogout 0%nat; EDestroy 0%nat; ENewClient "a" 3%nat; EInitialize 3%nat].
Proof. vm_compute. repeat split. Qed.

(** C1 fails when a call reads the time of the newest stamp.  With room
    for one session, ["a"] is created at time 5; at the same reading
    [getOldestSession] finds nobody older than now, so [createSession "b"]
    evicts nobody and the registry holds two sessions.  Likewise when the
    one session ["a"] of [world_ready_a] has just been touched, at time
    200, and ["b"] is created at that time. *)
Lemma createSession_exceeds_capacity_at_equal_times :
  let w1 := snd (createSession (config_max 1) env_ok "a" (world_at 5)) in
  let w2 := snd (createSession (config_max 1) env_ok "b" w1) in
  let v1 := snd (updateActivity "a" world_ready_a) in
  let v2 := snd (createSession (config_max 1) env_ok "b" v1) in
  maxSessions (cfg_sessions (config_max 1)) = 1 /\
  clock w1 = 5 /\
  lastActivity (sm w1) = [("a", 5)] /\
  size (sessions (sm w1)) = 1%nat /\
  fst (getOldestSession w1) = Normal None /\
  size (sessions (sm w2)) = 2%nat /\
  sessions (sm w2) !! "a" = Some 0%nat /\
  sessions (sm w2) !! "b" = Some 1%nat /\
  trace w2 =
    [ENewClient "a" 0%nat; EInitialize 0%nat;
     ENewClient "b" 1%nat; EInitialize 1%nat] /\
  lastActivity (sm v1) = [("a", 200)] /\
  clock v1 = 200 /\
  size (sessions (sm v2)) = 2%nat /\
  trace v2 = [ENewClient "b" 1%nat; EInitialize 1%nat].
Proof. vm_compute. repeat split. Qed.

(** *** The capacity invariant, when the clock moves between calls *)

Lemma JsMap_get_elem_of {V} (k : string) (v : V) (m : list (string * V)) :
  JsMap.get k m = Some v -> (k, v) ∈ m.
Proof.
  induction m as [|[k' v'] r IH]; simpl; [discriminate|].
  destruct (String.eqb_spec k' k) as [->|Hne].
  - intros [= ->]. apply elem_of_cons. now left.
  - intros H. apply elem_of_cons. right. now apply IH.
Qed.

Lemma JsMap_elem_of_get {V} (k : string) (v : V) (m : list (string * V)) :
  (k, v) ∈ m -> is_Some (JsMap.get k m).
Proof.
  induction m as [|[k' v'] r IH]; intros H.
  - now apply elem_of_nil in H.
  - simpl. destruct (String.eqb_spec k' k) as [->|Hne]; [eauto|].
    apply elem_of_cons in H as [[= -> ->]|H]; [contradiction|]. now apply IH.
Qed.

Lemma JsMap_elem_of_set {V} (k u : string) (v t : V) (m : list (string * V)) :
  (u, t) ∈ JsMap.set k v m -> (u, t) = (k, v) \/ (u, t) ∈ m.
Proof.
  induction m as [|[k' v'] r IH]; simpl; intros H.
  - apply elem_of_cons in H as [H|H]; [now left|now apply elem_of_nil in H].
  - destruct (String.eqb_spec k' k) as [->|Hne].
    + apply elem_of_cons in H as [H|H]; [now left|].
      right. apply elem_of_cons. now right.
    + apply elem_of_cons in H as [H|H].
      * right. apply elem_of_cons. now left.
      * destruct (IH H) as [E|E]; [now left|].
        right. apply elem_of_cons. now right.
Qed.

Lemma JsMap_elem_of_delete {V} (k u : string) (t : V) (m : list (string * V)) :
  (u, t) ∈ JsMap.delete k m -> (u, t) ∈ m.
Proof.
  induction m as [|[k' v'] r IH]; simpl; intros H; [exact H|].
  destruct (String.eqb k' k).
  - apply elem_of_cons. right. now apply IH.
  - apply elem_of_cons in H as [H|H]; apply elem_of_cons; [now left|].
    right. now apply IH.
Qed.

(** The scan of [getOldestSession]: it keeps an entry older than the
    seed, if there is one, and then the oldest of them. *)
Lemma oldest_scan (l : list (string * Z)) (acc : option string * Z) :
  let r := fold_left oldest_step l acc in
  snd r <= snd acc /\
  (forall u t, (u, t) ∈ l -> snd r <= t) /\
  (fst r = fst acc /\ snd r = snd acc \/
   exists o, fst r = Some o /\ (o, snd r) ∈ l /\ snd r < snd acc).
Proof.
  revert acc. induction l as [|[u t] r IH]; intros acc; simpl.
  - split; [lia|]. split; [|now left].
    intros u t H. now apply elem_of_nil in H.
  - assert (Hstep : oldest_step acc (u, t)
                    = if t <? snd acc then (Some u, t) else acc) by reflexivity.
    rewrite Hstep. clear Hstep.
    destruct (Z.ltb_spec t (snd acc)) as [Hlt|Hge].
    + destruct (IH (Some u, t)) as (H1 & H2 & H3). simpl in *.
      split; [lia|]. split.
      * intros u' t' Hin. apply elem_of_cons in Hin as [[= -> ->]|Hin];
          [exact H1|exact (H2 _ _ Hin)].
      * right. destruct H3 as [[Hf Hs]|(o & Hf & Hin & Hs)].
        -- exists u. rewrite Hf, Hs. split; [reflexivity|].
           split; [apply elem_of_cons; now left|exact Hlt].
        -- exists o. split; [exact Hf|]. split; [apply elem_of_cons; now right|lia].
    + destruct (IH acc) as (H1 & H2 & H3).
      split; [exact H1|]. split.
      * intros u' t' Hin. apply elem_of_cons in Hin as [[= -> ->]|Hin];
          [lia|exact (H2 _ _ Hin)].
      * destruct H3 as [H3|(o & Hf & Hin & Hs)]; [now left|].
        right. exists o. split; [exact Hf|].
        split; [apply elem_of_cons; now right|exact Hs].
Qed.

(** With an entry older than now, [getOldestSession] returns an id whose
    stamp is the smallest of all. *)
Lemma getOldestSession_oldest (w : World) (u0 : string) (t0 : Z) :
  (u0, t0) ∈ lastActivity (sm w) -> t0 < clock w ->
  exists o t_o,
    getOldestSession w = (Normal (Some o), w) /\
    (o, t_o) ∈ lastActivity (sm w) /\
    forall u t, (u, t) ∈ lastActivity (sm w) -> t_o <= t.
Proof.
  intros Hin Hlt. unfold getOldestSession, bind, Date_now, gets, ret. simpl.
  destruct (oldest_scan (lastActivity (sm w)) (None, clock w)) as (H1 & H2 & H3).
  simpl in *. destruct H3 as [[_ Hs]|(o & Hf & Ho & _)].
  - specialize (H2 u0 t0 Hin). lia.
  - exists o, (snd (fold_left oldest_step (lastActivity (sm w)) (None, clock w))).
    rewrite Hf. auto.
Qed.

Lemma destroyed_size_le (env : Env) (o : string) (w : World) :
  (size (sessions (sm (destroyed env o w))) <= size (sessions (sm w)))%nat.
Proof.
  unfold destroyed, purge. simpl. rewrite map_size_delete.
  destruct (sessions (sm w) !! o); simpl; lia.
Qed.

Lemma destroyed_size (env : Env) (o : string) (w : World) :
  is_Some (sessions (sm w) !! o) ->
  S (size (sessions (sm (destroyed env o w)))) = size (sessions (sm w)).
Proof.
  intros H. unfold destroyed, purge. simpl. rewrite map_size_delete_Some by exact H.
  apply map_size_ne_0_lookup_2 in H. lia.
Qed.

Lemma destroyed_registry (cfg : Config) (slack : Z) (env : Env) (o : string)
    (w : World) :
  registry_ok cfg slack w -> registry_ok cfg slack (destroyed env o w).
Proof.
  intros (Hdom & Hsize & Hstamps). split; [|split].
  - intros u. unfold destroyed, purge. simpl.
    destruct (decide (o = u)) as [->|Hne].
    + rewrite lookup_delete_eq, JsMap_get_delete_eq. split; intros []; discriminate.
    + rewrite lookup_delete_ne, JsMap_get_delete_ne by exact Hne. apply Hdom.
  - pose proof (destroyed_size_le env o w). lia.
  - intros u t Hin. apply (Hstamps u t).
    unfold destroyed, purge in Hin. simpl in Hin.
    now apply JsMap_elem_of_delete in Hin.
Qed.

Lemma create_new_registry (cfg : Config) (env : Env) (userId : string) (w : World) :
  registry_ok cfg 0 w ->
  sessions (sm w) !! userId = None ->
  Z.of_nat (size (sessions (sm w))) + 1 <= maxSessions (cfg_sessions cfg) ->
  JsString.truthy userId = true ->
  registry_ok cfg 0 (snd (create_new env userId w)).
Proof.
  intros (Hdom & Hsize & Hstamps) Hnone Hroom Htruthy.
  destruct (create_new_cases env userId w) as (r & w' & -> & Hclock & Hcases).
  simpl. unfold registry_ok. rewrite Hclock.
  assert (Hstamps' : forall u t,
            (u, t) ∈ JsMap.set userId (clock w) (lastActivity (sm w)) ->
            t + 0 <= clock w /\ JsString.truthy u = true).
  { intros u t Hin. apply JsMap_elem_of_set in Hin as [[= -> ->]|Hin].
    - split; [lia|exact Htruthy].
    - now apply Hstamps. }
  destruct Hcases as [[_ ->]|[_ ->]]; unfold purge, touched; simpl.
  - split; [|split].
    + intros u. destruct (decide (userId = u)) as [->|Hne].
      * rewrite lookup_delete_eq, JsMap_get_delete_eq. split; intros []; discriminate.
      * rewrite lookup_delete_ne, JsMap_get_delete_ne, JsMap_get_set_ne by exact Hne.
        apply Hdom.
    + rewrite map_size_delete_None by exact Hnone. lia.
    + intros u t Hin. apply Hstamps'. now apply JsMap_elem_of_delete in Hin.
  - split; [|split].
    + intros u. destruct (decide (userId = u)) as [->|Hne].
      * rewrite lookup_insert_eq, JsMap_get_set_eq. split; eauto.
      * rewrite lookup_insert_ne, JsMap_get_set_ne by exact Hne. apply Hdom.
    + rewrite map_size_insert_None by exact Hnone. lia.
    + exact Hstamps'.
Qed.

Lemma registry_ok_slack (cfg : Config) (w : World) :
  registry_ok cfg 1 w -> registry_ok cfg 0 w.
Proof.
  intros (Hdom & Hsize & Hstamps). split; [exact Hdom|]. split; [exact Hsize|].
  intros u t Hin. destruct (Hstamps u t Hin). split; [lia|assumption].
Qed.


(** The eviction of [createSession] (lines 43-52), from a registry whose
    stamps are all in the past: afterwards there is room for one more
    session; when the registry was full, the session that went is one with
    the smallest [lastActivity], and it is the only one that went. *)
Lemma eviction_makes_room (cfg : Config) (env : Env) (w : World) :
  registry_ok cfg 1 w ->
  0 < maxSessions (cfg_sessions cfg) ->
  exists w0,
    enforce_limit cfg env w = (Normal tt, w0) /\
    registry_ok cfg 1 w0 /\
    Z.of_nat (size (sessions (sm w0))) + 1 <= maxSessions (cfg_sessions cfg) /\
    clock w0 = clock w /\
    (Z.of_nat (size (sessions (sm w))) < maxSessions (cfg_sessions cfg) -> w0 = w) /\
    (maxSessions (cfg_sessions cfg) <= Z.of_nat (size (sessions (sm w))) ->
     exists o t_o,
       w0 = destroyed env o w /\
       (o, t_o) ∈ lastActivity (sm w) /\
       (forall u t, (u, t) ∈ lastActivity (sm w) -> t_o <= t) /\
       sessions (sm w0) = delete o (sessions (sm w)) /\
       S (size (sessions (sm w0))) = size (sessions (sm w))).
Proof.
  intros Hok Hmax. pose proof Hok as (Hdom & Hsize & Hstamps).
  unfold enforce_limit. unfold bind at 1. unfold gets at 1. simpl.
  destruct (Z.leb_spec (maxSessions (cfg_sessions cfg))
              (Z.of_nat (size (sessions (sm w))))) as [Hfull|Hroom].
  - assert (Hne : size (sessions (sm w)) <> 0%nat) by lia.
    apply map_size_ne_0_lookup_1 in Hne as [u0 Hu0].
    apply Hdom in Hu0 as [t0 Ht0]. apply JsMap_get_elem_of in Ht0.
    destruct (Hstamps u0 t0 Ht0) as [Hpast _].
    destruct (getOldestSession_oldest w u0 t0 Ht0) as (o & t_o & Hget & Hin & Hmin);
      [lia|].
    unfold bind. rewrite Hget.
    destruct (Hstamps o t_o Hin) as [_ ->]. rewrite destroySession_eq.
    exists (destroyed env o w). split; [reflexivity|].
    assert (Ho : is_Some (sessions (sm w) !! o))
      by (apply Hdom; now apply JsMap_elem_of_get with (v := t_o)).
    pose proof (destroyed_size env o w Ho) as Hs.
    split; [now apply destroyed_registry|]. split; [lia|]. split; [reflexivity|].
    split; [lia|]. intros _. exists o, t_o. repeat split; auto.
  - exists w. unfold ret. split; [reflexivity|]. split; [exact Hok|].
    split; [lia|]. split; [reflexivity|]. split; [reflexivity|]. lia.
Qed.

(** One [createSession] call keeps the registry within its cap, if every
    stamp in it is older than the current time. *)
Lemma createSession_registry (cfg : Config) (env : Env) (userId : string) (w : World) :
  registry_ok cfg 1 w ->
  0 < maxSessions (cfg_sessions cfg) ->
  JsString.truthy userId = true ->
  registry_ok cfg 0 (snd (createSession cfg env userId w)).
Proof.
  intros Hok Hmax Htruthy. unfold createSession.
  destruct (eviction_makes_room cfg env w Hok Hmax)
    as (w0 & Hev & Hok0 & Hroom0 & Hclock0 & _).
  unfold bind at 1. rewrite Hev.
  unfold bind at 1. unfold gets at 1. simpl.
  destruct (sessions (sm w0) !! userId) as [c|] eqn:Hc.
  - unfold bind at 1. unfold gets at 1. simpl.
    destruct (status_includes live_statuses (sessionStatus (sm w0) !! userId)).
    + simpl. now apply registry_ok_slack.
    + unfold bind. rewrite destroySession_eq.
      apply create_new_registry; [| | |exact Htruthy].
      * apply registry_ok_slack. now apply destroyed_registry.
      * unfold destroyed, purge. simpl. apply lookup_delete_eq.
      * pose proof (destroyed_size_le env userId w0). lia.
  - apply create_new_registry; auto. now apply registry_ok_slack.
Qed.


(** * Further properties *)

(** ** What a statement may add to the trace *)

Lemma adds_only_ret {A} (P : Effect -> Prop) (a : A) : adds_only P (ret a).
Proof. intros w. exists []. simpl. rewrite app_nil_r. auto. Qed.

Lemma adds_only_throw {A} (P : Effect -> Prop) (e : string) :
  adds_only P (@throw A e).
Proof. intros w. exists []. simpl. rewrite app_nil_r. auto. Qed.

Lemma adds_only_gets {A} (P : Effect -> Prop) (f : SessionManager -> A) :
  adds_only P (gets f).
Proof. intros w. exists []. simpl. rewrite app_nil_r. auto. Qed.

Lemma adds_only_modify (P : Effect -> Prop) (f : SessionManager -> SessionManager) :
  adds_only P (modify f).
Proof. intros w. exists []. simpl. rewrite app_nil_r. auto. Qed.

Lemma adds_only_Date_now (P : Effect -> Prop) : adds_only P Date_now.
Proof. intros w. exists []. simpl. rewrite app_nil_r. auto. Qed.

Lemma adds_only_emit (P : Effect -> Prop) (e : Effect) :
  P e -> adds_only P (emit e).
Proof. intros H w. exists [e]. simpl. auto. Qed.

Lemma adds_only_external (P : Effect -> Prop) (e : Effect)
    (answer : list Effect -> option string) :
  P e -> adds_only P (external e answer).
Proof.
  intros H w. exists [e]. unfold external.
  destruct (answer (trace w)); simpl; auto.
Qed.

Lemma adds_only_bind {A B} (P : Effect -> Prop) (m : M A) (k : A -> M B) :
  adds_only P m -> (forall a, adds_only P (k a)) -> adds_only P (bind m k).
Proof.
  intros Hm Hk w. unfold bind. destruct (Hm w) as (more1 & H1 & F1).
  destruct (m w) as [[a|e] w1]; simpl in *.
  - destruct (Hk a w1) as (more2 & H2 & F2). exists (more1 ++ more2)%list.
    rewrite H2, H1, app_assoc. split; [reflexivity|]. now apply Forall_app.
  - exists more1. auto.
Qed.

Lemma adds_only_try_catch {A} (P : Effect -> Prop) (m : M A) (h : string -> M A) :
  adds_only P m -> (forall e, adds_only P (h e)) -> adds_only P (try_catch m h).
Proof.
  intros Hm Hh w. unfold try_catch. destruct (Hm w) as (more1 & H1 & F1).
  destruct (m w) as [[a|e] w1]; simpl in *.
  - exists more1. auto.
  - destruct (Hh e w1) as (more2 & H2 & F2). exists (more1 ++ more2)%list.
    rewrite H2, H1, app_assoc. split; [reflexivity|]. now apply Forall_app.
Qed.

Lemma adds_only_try_finally {A} (P : Effect -> Prop) (m : M A) (fin : M unit) :
  adds_only P m -> adds_only P fin -> adds_only P (try_finally m fin).
Proof.
  intros Hm Hf w. unfold try_finally. destruct (Hm w) as (more1 & H1 & F1).
  destruct (m w) as [r w1]; simpl in *.
  destruct (Hf w1) as (more2 & H2 & F2).
  exists (more1 ++ more2)%list.
  destruct (fin w1) as [[[]|e] w2]; simpl in *;
    rewrite H2, H1, app_assoc; (split; [reflexivity|]); now apply Forall_app.
Qed.

Lemma adds_only_weaken {A} (P Q : Effect -> Prop) (m : M A) :
  (forall e, P e -> Q e) -> adds_only P m -> adds_only Q m.
Proof.
  intros HPQ Hm w. destruct (Hm w) as (more & H & F). exists more.
  split; [exact H|]. eapply Forall_impl; eauto.
Qed.

(** A reading that keeps none of the effects of [more] reads nothing in
    it. *)
Lemma omap_none {X} (g : Effect -> option X) (P : Effect -> Prop) (more : list Effect) :
  (forall e, P e -> g e = None) -> Forall P more -> omap g more = [].
Proof.
  intros Hg. induction 1 as [|e r He _ IH]; [reflexivity|].
  simpl. rewrite (Hg e He). exact IH.
Qed.

Lemma loop_effect_job (userId : string) (client : Client)
    (media : option MessageMedia) (mediaFile : option MediaFile) (e : Effect) :
  loop_effect client media e -> job_effect userId client media mediaFile e.
Proof. destruct e; simpl; auto; contradiction. Qed.

Lemma job_effect_no_response (userId : string) (client : Client)
    (media : option MessageMedia) (mediaFile : option MediaFile) (e : Effect) :
  job_effect userId client media mediaFile e -> no_response e.
Proof. destruct e; simpl; auto. Qed.

Lemma upload_effect_no_response (e : Effect) : upload_effect e -> no_response e.
Proof. destruct e; simpl; auto. Qed.

Lemma adds_only_attempt (env : Env) (client : Client) (media : option MessageMedia)
    (o n : string) (cur : Json) (t : Tally) :
  adds_only (loop_effect client media) (attempt env client media o n cur t).
Proof.
  unfold attempt, sendMessage, logger.
  apply adds_only_try_catch.
  - apply adds_only_bind.
    { intros w. exists [EGetNumberId client n]. split; [reflexivity|].
      repeat constructor. }
    intros [chatId|].
    + apply adds_only_bind; [|intros; apply adds_only_ret].
      destruct media as [m|]; [|destruct (Js.truthy cur)].
      * apply adds_only_bind; [apply adds_only_external; simpl; auto|].
        intros _. apply adds_only_emit. exact I.
      * apply adds_only_bind; [apply adds_only_external; simpl; auto|].
        intros _. apply adds_only_emit. exact I.
      * apply adds_only_ret.
    + apply adds_only_bind; [apply adds_only_emit; exact I|].
      intros _. apply adds_only_ret.
  - intros e. apply adds_only_bind; [apply adds_only_emit; exact I|].
    intros _. apply adds_only_ret.
Qed.

Lemma adds_only_send_one (env : Env) (client : Client) (message : option string)
    (media : option MessageMedia) (mens : list Json) (total : nat) (sendDelay : Z)
    (i : nat) (raw : Json) (t : Tally) :
  adds_only (loop_effect client media)
    (send_one env client message media mens total sendDelay i raw t).
Proof.
  unfold send_one. destruct raw; try apply adds_only_throw.
  apply adds_only_bind; [apply adds_only_attempt|]. intros t'.
  apply adds_only_bind; [|intros; apply adds_only_ret].
  destruct (Z.of_nat i <? Z.of_nat total - 1);
    [apply adds_only_emit; exact I|apply adds_only_ret].
Qed.

Lemma adds_only_send_loop (env : Env) (client : Client) (message : option string)
    (media : option MessageMedia) (mens : list Json) (total : nat) (sendDelay : Z)
    (l : list Json) (i : nat) (t : Tally) :
  adds_only (loop_effect client media)
    (send_loop env client message media mens total sendDelay i l t).
Proof.
  revert i t. induction l as [|raw r IH]; intros i t; simpl.
  - apply adds_only_ret.
  - apply adds_only_bind; [apply adds_only_send_one|]. intros t'. apply IH.
Qed.

Lemma adds_only_background (env : Env) (userId : string) (client : Client)
    (message : option string) (media : option MessageMedia) (mens : list Json)
    (total : nat) (sendDelay : Z) (mediaFile : option MediaFile)
    (numbersRaw : list Json) :
  adds_only (job_effect userId client media mediaFile)
    (background env userId client message media mens total sendDelay mediaFile
       numbersRaw).
Proof.
  unfold background. apply adds_only_try_finally.
  - apply adds_only_try_catch; [|intros; apply adds_only_emit; exact I].
    apply adds_only_bind.
    { unfold updateActivity. apply adds_only_bind; [apply adds_only_Date_now|].
      intros. apply adds_only_modify. }
    intros _. apply adds_only_bind.
    { eapply adds_only_weaken; [apply loop_effect_job|].
      apply adds_only_send_loop. }
    intros t. apply adds_only_emit. exact I.
  - apply adds_only_bind.
    + unfold unlink_upload. destruct mediaFile;
        [apply adds_only_emit; reflexivity|apply adds_only_ret].
    + intros _. unfold releaseLock.
      apply adds_only_bind; [apply adds_only_modify|].
      intros _. apply adds_only_emit. reflexivity.
Qed.

(** ** Statements that change the trace at most *)

Lemma same_store_refl (w : World) : same_store w w.
Proof. repeat split. Qed.

Lemma same_store_trans (w1 w2 w3 : World) :
  same_store w1 w2 -> same_store w2 w3 -> same_store w1 w3.
Proof.
  intros (A1 & A2 & A3 & A4) (B1 & B2 & B3 & B4).
  repeat split; congruence.
Qed.

Lemma keeps_store_ret {A} (a : A) : keeps_store (ret a).
Proof. intros w. apply same_store_refl. Qed.

Lemma keeps_store_throw {A} (e : string) : keeps_store (@throw A e).
Proof. intros w. apply same_store_refl. Qed.

Lemma keeps_store_emit (e : Effect) : keeps_store (emit e).
Proof. intros w. repeat split. Qed.

Lemma keeps_store_external (e : Effect) (answer : list Effect -> option string) :
  keeps_store (external e answer).
Proof. intros w. unfold external. destruct (answer (trace w)); repeat split. Qed.

Lemma keeps_store_bind {A B} (m : M A) (k : A -> M B) :
  keeps_store m -> (forall a, keeps_store (k a)) -> keeps_store (bind m k).
Proof.
  intros Hm Hk w. unfold bind. pose proof (Hm w) as H1.
  destruct (m w) as [[a|e] w1]; simpl in *; [|exact H1].
  eapply same_store_trans; [exact H1|apply Hk].
Qed.

Lemma keeps_store_try_catch {A} (m : M A) (h : string -> M A) :
  keeps_store m -> (forall e, keeps_store (h e)) -> keeps_store (try_catch m h).
Proof.
  intros Hm Hh w. unfold try_catch. pose proof (Hm w) as H1.
  destruct (m w) as [[a|e] w1]; simpl in *; [exact H1|].
  eapply same_store_trans; [exact H1|apply Hh].
Qed.

Lemma keeps_store_attempt (env : Env) (client : Client) (media : option MessageMedia)
    (o n : string) (cur : Json) (t : Tally) :
  keeps_store (attempt env client media o n cur t).
Proof.
  unfold attempt, sendMessage, logger.
  apply keeps_store_try_catch.
  - apply keeps_store_bind; [intros w; repeat split|].
    intros [chatId|].
    + apply keeps_store_bind; [|intros; apply keeps_store_ret].
      destruct media as [m|]; [|destruct (Js.truthy cur)].
      * apply keeps_store_bind; [apply keeps_store_external|].
        intros _. apply keeps_store_emit.
      * apply keeps_store_bind; [apply keeps_store_external|].
        intros _. apply keeps_store_emit.
      * apply keeps_store_ret.
    + apply keeps_store_bind; [apply keeps_store_emit|].
      intros _. apply keeps_store_ret.
  - intros e. apply keeps_store_bind; [apply keeps_store_emit|].
    intros _. apply keeps_store_ret.
Qed.

Lemma keeps_store_send_one (env : Env) (client : Client) (message : option string)
    (media : option MessageMedia) (mens : list Json) (total : nat) (sendDelay : Z)
    (i : nat) (raw : Json) (t : Tally) :
  keeps_store (send_one env client message media mens total sendDelay i raw t).
Proof.
  unfold send_one. destruct raw; try apply keeps_store_throw.
  apply keeps_store_bind; [apply keeps_store_attempt|]. intros t'.
  apply keeps_store_bind; [|intros; apply keeps_store_ret].
  destruct (Z.of_nat i <? Z.of_nat total - 1);
    [apply keeps_store_emit|apply keeps_store_ret].
Qed.

Lemma keeps_store_send_loop (env : Env) (client : Client) (message : option string)
    (media : option MessageMedia) (mens : list Json) (total : nat) (sendDelay : Z)
    (l : list Json) (i : nat) (t : Tally) :
  keeps_store (send_loop env client message media mens total sendDelay i l t).
Proof.
  revert i t. induction l as [|raw r IH]; intros i t; simpl.
  - apply keeps_store_ret.
  - apply keeps_store_bind; [apply keeps_store_send_one|]. intros t'. apply IH.
Qed.

(** ** The pace of a job *)






(** ** The detached job *)

Lemma resolved_numbers_loop_free (l : list Effect) :
  Forall (fun e => match e with EGetNumberId _ _ => False | _ => True end) l ->
  resolved_numbers l = [].
Proof. apply omap_none. intros e. now destruct e. Qed.

Lemma reports_app (a b : list Effect) :
  reports (a ++ b) = (reports a ++ reports b)%list.
Proof. apply omap_app. Qed.

Lemma reports_loop (client : Client) (media : option MessageMedia)
    (more : list Effect) :
  Forall (loop_effect client media) more -> reports more = [].
Proof. apply omap_none. intros e. destruct e; simpl; tauto. Qed.


(** The world in which the loop of a job starts. *)
Lemma background_eq (env : Env) (userId : string) (client : Client)
    (message : option string) (media : option MessageMedia) (mens : list Json)
    (total : nat) (sendDelay : Z) (mediaFile : option MediaFile)
    (numbersRaw : list Json) (w : World) :
  background env userId client message media mens total sendDelay mediaFile
    numbersRaw w =
  let w0 := set_sm (lastActivity_set userId (clock w) (sm w)) w in
  let w1 :=
    match send_loop env client message media mens total sendDelay 0 numbersRaw
            (mkTally 0 0 []) w0 with
    | (Normal t, w') =>
        add_effect (EReport (enviados t) (fallidos t) total (failedNumbers t)) w'
    | (Thrown _, w') =>
        add_effect (ELog LError "Error in message sending process") w'
    end in
  (Normal tt,
   mkWorld (sessionLocks_delete userId (sm w1)) (disk w1)
     (trace w1 ++ unlink_effects mediaFile ++ [ELockReleased userId])
     (clock w1) (next_client w1)).
Proof.
  unfold background, try_finally, try_catch, bind, updateActivity, Date_now,
    modify, logger, emit. simpl.
  destruct (send_loop env client message media mens total sendDelay 0 numbersRaw
              (mkTally 0 0 []) _) as [[t|e] w']; simpl;
    destruct mediaFile; simpl; unfold add_effect, set_sm; simpl;
    rewrite <- ?app_assoc; reflexivity.
Qed.

(** X3.  The detached job stays within its session.  Whatever the
    recipients are and whatever the client answers, the job ends
    normally; it calls no client but the one it was given, sends the
    media with every message when there is one and plain text when there
    is none, asks for the removal of no file but its upload, releases no
    lock but its own and writes nothing on the HTTP response.  Of the
    registry it changes the activity stamp and the lock of its session
    and nothing else; the disk is left as it was. *)
Theorem job_stays_within_its_session (env : Env) (userId : string)
    (client : Client) (message : option string) (media : option MessageMedia)
    (mens : list Json) (total : nat) (sendDelay : Z)
    (mediaFile : option MediaFile) (numbersRaw : list Json) (w : World) :
  exists w' more,
    background env userId client message media mens total sendDelay mediaFile
      numbersRaw w = (Normal tt, w') /\
    trace w' = (trace w ++ more)%list /\
    Forall (job_effect userId client media mediaFile) more /\
    responses more = [] /\
    sm w' = sessionLocks_delete userId
              (lastActivity_set userId (clock w) (sm w)) /\
    disk w' = disk w.
Proof.
  destruct (adds_only_background env userId client message media mens total
              sendDelay mediaFile numbersRaw w) as (more & Ht & HF).
  pose proof (keeps_store_send_loop env client message media mens total sendDelay
                numbersRaw 0%nat (mkTally 0 0 [])
                (set_sm (lastActivity_set userId (clock w) (sm w)) w))
    as (Hs & Hd & _).
  rewrite background_eq in Ht |- *. cbv zeta in *.
  destruct (send_loop env client message media mens total sendDelay 0 numbersRaw
              (mkTally 0 0 []) _) as [[t|e] w1]; simpl in *;
    (eexists; exists more; split; [reflexivity|]; simpl;
     split; [exact Ht|]; split; [exact HF|]; split;
     [apply (omap_none _ (job_effect userId client media mediaFile));
      [intros x; destruct x; simpl; tauto|exact HF]
     |rewrite Hs, Hd; auto]).
Qed.


(** X4.  A recipient that is not a string aborts the job at that point:
    the recipients before it have been resolved, in order, and nothing
    after it is; no report is logged, the error is; the upload is still
    removed and the lock still released. *)
Theorem job_stops_at_first_non_string (env : Env) (userId : string)
    (client : Client) (message : option string) (media : option MessageMedia)
    (mens : list Json) (total : nat) (sendDelay : Z)
    (mediaFile : option MediaFile) (before : list string) (raw : Json)
    (rest : list Json) (w : World) :
  (forall s, raw <> JStr s) ->
  exists w' pre,
    background env userId client message media mens total sendDelay mediaFile
      ((JStr <$> before) ++ raw :: rest) w = (Normal tt, w') /\
    trace w' =
      (trace w ++ pre ++
       ELog LError "Error in message sending process" ::
       unlink_effects mediaFile ++ [ELockReleased userId])%list /\
    resolved_numbers pre = map normalizeNumber before /\
    reports pre = [] /\
    sessionLocks (sm w') !! userId = None.
Proof.
  intros Hraw. rewrite background_eq. cbv zeta.
  set (w0 := set_sm (lastActivity_set userId (clock w) (sm w)) w).
  rewrite send_loop_app.
  destruct (send_loop_strings env client message media mens total sendDelay
              before 0%nat (mkTally 0 0 []) w0)
    as (t1 & w1 & Hrun & _ & _ & Hres & _).
  destruct (adds_only_send_loop env client message media mens total sendDelay
              (JStr <$> before) 0%nat (mkTally 0 0 []) w0) as (pre & Hpre & HF).
  rewrite Hrun in Hpre |- *. simpl in Hpre.
  rewrite send_loop_cons.
  destruct (send_one_not_string env client message media mens total sendDelay
              (0 + List.length (JStr <$> before)) raw t1 w1 Hraw) as [e He].
  rewrite He. simpl.
  eexists. exists pre. split; [reflexivity|]. simpl.
  split; [rewrite Hpre; simpl; now rewrite <- !app_assoc|].
  split.
  - rewrite Hpre, resolved_numbers_app in Hres. simpl in Hres.
    now apply app_inv_head in Hres.
  - split; [exact (reports_loop client media pre HF)|apply lookup_delete_eq].
Qed.

(** ["70000001"] is resolved; the number [5] that follows it is not a
    string and ends the job before ["70000003"]. *)
Lemma job_stops_at_first_non_string_witness :
  exists w' pre,
    background env_ok "a" 0%nat (Some "hola") None [] 3%nat 8000 None
      ((JStr <$> ["70000001"]) ++ JNum 5 :: [JStr "70000003"]) world_ready_a
    = (Normal tt, w') /\
    trace w' =
      (trace world_ready_a ++ pre ++
       ELog LError "Error in message sending process" ::
       unlink_effects None ++ [ELockReleased "a"])%list /\
    resolved_numbers pre = map normalizeNumber ["70000001"] /\
    reports pre = [] /\
    sessionLocks (sm w') !! "a" = None.
Proof.
  apply (job_stops_at_first_non_string env_ok "a" 0%nat (Some "hola") None []
           3%nat 8000 None ["70000001"] (JNum 5) [JStr "70000003"] world_ready_a).
  intros s. discriminate.
Defined.

(** ** The handler of [POST /send-messages] *)

Lemma responses_app (a b : list Effect) :
  responses (a ++ b) = (responses a ++ responses b)%list.
Proof. apply omap_app. Qed.

Lemma responses_silent (more : list Effect) :
  Forall no_response more -> responses more = [].
Proof. apply omap_none. intros e. now destruct e. Qed.

Lemma responses_unlink_sync (mediaFile : option MediaFile) :
  responses (unlink_sync_effects mediaFile) = [].
Proof. now destruct mediaFile. Qed.

Lemma client_calls_app (a b : list Effect) :
  client_calls (a ++ b) = (client_calls a ++ client_calls b)%list.
Proof. apply omap_app. Qed.

Lemma client_calls_unlink_sync (mediaFile : option MediaFile) :
  client_calls (unlink_sync_effects mediaFile) = [].
Proof. now destruct mediaFile. Qed.

(** A refusal before the lock is taken: the upload is removed, then the
    answer is given; nothing else happens.  When [unlinkSync] throws, the
    answer is not reached. *)
Lemma refuse_eq (env : Env) (mediaFile : option MediaFile) (code : nat)
    (body : ResponseBody) (w : World) :
  (unlink_upload_sync env mediaFile ;;; respond code body)%js w =
  match unlink_fails env mediaFile (trace w) with
  | None =>
      (Normal tt,
       mkWorld (sm w) (disk w)
         (trace w ++ unlink_sync_effects mediaFile ++ [ERespond code body])
         (clock w) (next_client w))
  | Some e => (Thrown e, unlinked mediaFile w)
  end.
Proof.
  unfold bind at 1. rewrite unlink_upload_sync_eq.
  destruct (unlink_fails env mediaFile (trace w)); [reflexivity|].
  unfold completion_of, respond, emit, add_effect, unlinked; simpl.
  now rewrite <- !app_assoc.
Qed.

Lemma bind_emit {B} (e : Effect) (k : unit -> M B) (w : World) :
  bind (emit e) k w = k tt (add_effect e w).
Proof. reflexivity. Qed.

Lemma bind_gets {A B} (f : SessionManager -> A) (k : A -> M B) (w : World) :
  bind (gets f) k w = k (f (sm w)) w.
Proof. reflexivity. Qed.

Lemma acquireLock_eq (userId : string) (w : World) :
  acquireLock userId w =
  if bool_decide (is_Some (sessionLocks (sm w) !! userId)) then (Normal false, w)
  else (Normal true, set_sm (sessionLocks_set userId (clock w) (sm w)) w).
Proof.
  unfold acquireLock. rewrite bind_gets.
  destruct (bool_decide (is_Some (sessionLocks (sm w) !! userId))); reflexivity.
Qed.

Lemma sm_add_effect (e : Effect) (w : World) : sm (add_effect e w) = sm w.
Proof. reflexivity. Qed.

Ltac refuse_step :=
  etransitivity; [apply refuse_eq|]; unfold refusal_unlink, unlinked; simpl;
  match goal with
  | |- context [unlink_fails ?e ?m ?t] => destruct (unlink_fails e m t)
  end; simpl; now rewrite <- ?app_assoc.

(** The world a request that is refused before the lock leaves; [answer]
    is the refusal, when it is given. *)
Lemma send_messages_refused (cfg : Config) (env : Env) (req : Request) (w : World) :
  takes_lock req w = false ->
  send_messages cfg env req w =
  match refusal_unlink env req w with
  | None =>
      (Normal tt,
       mkWorld (sm w) (disk w)
         (trace w ++ ELog LInfo "Starting message send process" ::
          unlink_sync_effects (req_file req) ++
          [ERespond (fst (refusal req w)) (snd (refusal req w))])
         (clock w) (next_client w))
  | Some e =>
      (Thrown e,
       mkWorld (sm w) (disk w)
         (trace w ++ ELog LInfo "Starting message send process" ::
          unlink_sync_effects (req_file req))
         (clock w) (next_client w))
  end.
Proof.
  unfold takes_lock, refusal, send_messages, logger.
  rewrite bind_emit.
  destruct (req_userId req) as [userId|].
  2:{ intros _. refuse_step. }
  destruct (JsString.truthy userId).
  2:{ intros _. refuse_step. }
  unfold getSession, getSessionStatus. rewrite !bind_gets, !sm_add_effect.
  destruct (sessions (sm w) !! userId) as [c|] eqn:Hc.
  2:{ intros _. refuse_step. }
  rewrite (bool_decide_eq_true_2 _ (mk_is_Some _ _ eq_refl)). simpl andb.
  destruct (Status_eqb (default no_session (sessionStatus (sm w) !! userId)) ready).
  2:{ intros _. refuse_step. }
  simpl andb. intros Hl. apply negb_false_iff in Hl.
  unfold bind at 1. rewrite acquireLock_eq, sm_add_effect, Hl.
  refuse_step.
Qed.

Lemma send_messages_locked (cfg : Config) (env : Env) (req : Request) (w : World) :
  takes_lock req w = true ->
  exists userId client,
    req_userId req = Some userId /\
    sessions (sm w) !! userId = Some client /\
    sessionLocks (sm w) !! userId = None /\
    send_messages cfg env req w =
    dispatch_locked cfg env req userId client
      (set_sm (sessionLocks_set userId (clock w) (sm w))
         (add_effect (ELog LInfo "Starting message send process") w)).
Proof.
  unfold takes_lock, send_messages, logger.
  rewrite bind_emit.
  destruct (req_userId req) as [userId|]; [|discriminate].
  destruct (JsString.truthy userId); [|discriminate].
  unfold getSession, getSessionStatus. rewrite !bind_gets, !sm_add_effect.
  destruct (sessions (sm w) !! userId) as [c|] eqn:Hc.
  2:{ rewrite bool_decide_eq_false_2 by apply is_Some_None. discriminate. }
  rewrite (bool_decide_eq_true_2 _ (mk_is_Some _ _ eq_refl)). simpl andb.
  destruct (Status_eqb (default no_session (sessionStatus (sm w) !! userId)) ready);
    [|discriminate].
  simpl andb. intros Hl. apply negb_true_iff in Hl.
  exists userId, c. split; [reflexivity|]. split; [exact Hc|].
  split; [apply bool_decide_eq_false in Hl; now apply eq_None_not_Some|].
  unfold bind at 1. rewrite acquireLock_eq, sm_add_effect, Hl. reflexivity.
Qed.

(** Reading the upload: what it returns and what it leaves in the
    trace. *)
Lemma load_media_eq (env : Env) (mediaFile : option MediaFile) (w : World) :
  load_media env mediaFile w =
  match mediaFile with
  | None => (Normal None, w)
  | Some f =>
      match fs_readFileSync env (trace w) (mf_path f) with
      | Normal content =>
          (Normal (Some (mkMessageMedia (mf_mimetype f) content (mf_originalname f))),
           mkWorld (sm w) (disk w)
             (trace w ++ [EReadFileSync (mf_path f);
                          ELog LInfo "Media file processed"])
             (clock w) (next_client w))
      | Thrown _ =>
          (Normal None,
           mkWorld (sm w) (disk w)
             (trace w ++ [EReadFileSync (mf_path f);
                          ELog LError "Error processing media file";
                          EUnlink (mf_path f)])
             (clock w) (next_client w))
      end
  end.
Proof.
  destruct mediaFile as [f|]; [|reflexivity].
  unfold load_media, try_catch, bind, logger, emit, add_effect, ret. simpl.
  destruct (fs_readFileSync env (trace w) (mf_path f)); simpl;
    rewrite <- ?app_assoc; reflexivity.
Qed.

Lemma load_media_shape (env : Env) (mediaFile : option MediaFile) (w : World) :
  exists media w1 more,
    load_media env mediaFile w = (Normal media, w1) /\
    trace w1 = (trace w ++ more)%list /\
    Forall upload_effect more /\
    same_store w w1.
Proof.
  rewrite load_media_eq. destruct mediaFile as [f|].
  - destruct (fs_readFileSync env (trace w) (mf_path f));
      do 3 eexists; (split; [reflexivity|]); simpl;
      (split; [reflexivity|]); (split; [repeat constructor|repeat split]).
  - exists None, w, []. rewrite app_nil_r. repeat split. constructor.
Qed.

(** What follows the lock: a rejection, or the job started in the world
    the 200 answer leaves. *)
Lemma dispatch_locked_eq (cfg : Config) (env : Env) (req : Request)
    (userId : string) (client : Client) (w : World) :
  dispatch_locked cfg env req userId client w =
  let reject msg :=
    (unlink_upload_sync env (req_file req) ;;;
     releaseLock userId ;;;
     respond 400 (RError msg None))%js w in
  match fst (parse_lists env req w) with
  | Normal (numbersRaw, mens) =>
      if negb (Js.opt_truthy (req_message req))
         && negb (bool_decide (is_Some (req_file req)))
      then reject "Message or media file is required."
      else if (List.length numbersRaw =? 0)%nat
      then reject "No numbers selected to send to."
      else
        match load_media env (req_file req) w with
        | (Normal media, w1) =>
            background env userId client (req_message req) media mens
              (List.length numbersRaw) (chosen_delay cfg env req) (req_file req)
              numbersRaw
              (add_effect (ERespond 200 (RInitiated (List.length numbersRaw)))
                 (add_effect (ELog LInfo "Starting to send messages") w1))
        | (Thrown e, w1) => (Thrown e, w1)
        end
  | Thrown _ => reject "Invalid JSON in numbers or mensajesPorNumero field."
  end.
Proof.
  cbv zeta. unfold dispatch_locked. unfold bind at 1. unfold try_catch at 1.
  unfold bind at 1.
  pose proof (parse_lists_world env req w) as Hw.
  destruct (parse_lists env req w) as [[[numbersRaw mens]|e] w0];
    simpl in Hw; subst w0; simpl fst.
  - unfold ret at 1. cbv beta iota.
    destruct (negb (Js.opt_truthy (req_message req)) &&
              negb (bool_decide (is_Some (req_file req)))); [reflexivity|].
    destruct (List.length numbersRaw =? 0)%nat; [reflexivity|].
    unfold chosen_delay, bind at 1.
    destruct (load_media env (req_file req) w) as [[media|e] w1]; reflexivity.
  - unfold bind.
    destruct (unlink_upload_sync env (req_file req) w) as [[[]|e'] w1];
      reflexivity.
Qed.

Lemma Status_eqb_eq (a b : Status) : Status_eqb a b = true <-> a = b.
Proof. destruct a, b; simpl; split; (reflexivity || discriminate). Qed.

Lemma background_total (env : Env) (userId : string) (client : Client)
    (message : option string) (media : option MessageMedia) (mens : list Json)
    (total : nat) (sendDelay : Z) (mediaFile : option MediaFile)
    (numbersRaw : list Json) (w : World) :
  exists w' more,
    background env userId client message media mens total sendDelay mediaFile
      numbersRaw w = (Normal tt, w') /\
    trace w' = (trace w ++ more)%list /\
    Forall (job_effect userId client media mediaFile) more.
Proof.
  destruct (adds_only_background env userId client message media mens total
              sendDelay mediaFile numbersRaw w) as (more & Ht & HF).
  rewrite background_eq in Ht |- *. cbv zeta in *.
  eexists. exists more. split; [reflexivity|]. split; [exact Ht|exact HF].
Qed.

(** An accepted request: the upload is read, the 200 answer is given,
    and the job runs; nothing but the 200 answer is written on the
    response. *)
Lemma dispatch_locked_accepted (cfg : Config) (env : Env) (req : Request)
    (userId : string) (client : Client) (numbersRaw mens : list Json) (w : World) :
  fst (parse_lists env req w) = Normal (numbersRaw, mens) ->
  (Js.opt_truthy (req_message req) || bool_decide (is_Some (req_file req))) = true ->
  numbersRaw <> [] ->
  exists media w1 up w' more,
    load_media env (req_file req) w = (Normal media, w1) /\
    trace w1 = (trace w ++ up)%list /\ Forall upload_effect up /\
    dispatch_locked cfg env req userId client w = (Normal tt, w') /\
    trace w' =
      (trace w ++ up ++
       ELog LInfo "Starting to send messages" ::
       ERespond 200 (RInitiated (List.length numbersRaw)) :: more)%list /\
    Forall (job_effect userId client media (req_file req)) more.
Proof.
  intros Hp Hm Hn. rewrite dispatch_locked_eq. cbv zeta. rewrite Hp.
  apply orb_true_iff in Hm.
  assert (negb (Js.opt_truthy (req_message req)) &&
          negb (bool_decide (is_Some (req_file req))) = false) as ->.
  { destruct Hm as [-> | ->]; simpl; auto using andb_false_r. }
  assert ((List.length numbersRaw =? 0)%nat = false) as ->.
  { apply Nat.eqb_neq. destruct numbersRaw; [congruence|simpl; lia]. }
  destruct (load_media_shape env (req_file req) w) as (media & w1 & up & Hl & Hu & HFu & _).
  rewrite Hl.
  destruct (background_total env userId client (req_message req) media mens
              (List.length numbersRaw) (chosen_delay cfg env req) (req_file req)
              numbersRaw
              (add_effect (ERespond 200 (RInitiated (List.length numbersRaw)))
                 (add_effect (ELog LInfo "Starting to send messages") w1)))
    as (w' & more & Hb & Ht & HF).
  exists media, w1, up, w', more.
  split; [reflexivity|]. split; [exact Hu|]. split; [exact HFu|].
  split; [exact Hb|]. split; [|exact HF].
  rewrite Ht. simpl. rewrite Hu, <- !app_assoc. reflexivity.
Qed.

Lemma passes_checks_world (env : Env) (req : Request) (w w' : World) :
  passes_checks env req w = passes_checks env req w'.
Proof. unfold passes_checks. now rewrite (parse_lists_fst env req w w'). Qed.

(** A request that took the lock and does not pass the checks: the
    rejection, or the exception of [unlinkSync], which leaves the lock
    where it is. *)
Lemma dispatch_locked_rejected (cfg : Config) (env : Env) (req : Request)
    (userId : string) (client : Client) (w : World) :
  passes_checks env req w = false ->
  exists msg,
    dispatch_locked cfg env req userId client w =
    match unlink_fails env (req_file req) (trace w) with
    | None =>
        (Normal tt,
         mkWorld (sessionLocks_delete userId (sm w)) (disk w)
           (trace w ++ unlink_sync_effects (req_file req) ++
            [ELockReleased userId; ERespond 400 (RError msg None)])
           (clock w) (next_client w))
    | Some e => (Thrown e, unlinked (req_file req) w)
    end.
Proof.
  unfold passes_checks. intros Hp. rewrite dispatch_locked_eq. cbv zeta.
  destruct (fst (parse_lists env req w)) as [[numbersRaw mens]|e].
  2:{ eexists. apply reject_eq. }
  destruct (negb (Js.opt_truthy (req_message req)) &&
            negb (bool_decide (is_Some (req_file req)))) eqn:Hno.
  { eexists. apply reject_eq. }
  destruct (List.length numbersRaw =? 0)%nat eqn:Hlen.
  { eexists. apply reject_eq. }
  exfalso. apply andb_false_iff in Hp as [Hp|Hp]; [|discriminate].
  apply orb_false_iff in Hp as [H1 H2]. rewrite H1, H2 in Hno. discriminate.
Qed.

Lemma dispatch_locked_passes (cfg : Config) (env : Env) (req : Request)
    (w : World) :
  passes_checks env req w = true ->
  exists numbersRaw mens,
    fst (parse_lists env req w) = Normal (numbersRaw, mens) /\
    (Js.opt_truthy (req_message req) || bool_decide (is_Some (req_file req))) = true /\
    numbersRaw <> [].
Proof.
  unfold passes_checks.
  destruct (fst (parse_lists env req w)) as [[numbersRaw mens]|e]; [|discriminate].
  intros [Hm Hn]%andb_true_iff. exists numbersRaw, mens.
  split; [reflexivity|]. split; [exact Hm|].
  intros ->. discriminate.
Qed.

(** X5.  The handler of [POST /send-messages] answers at most once,
    whatever the request, the registry and the outside world are, the job
    it detaches included.  A request that is accepted is answered 200, and
    the handler and its job return normally.  A request that is not
    accepted is answered once, with 400 or 429 and an error body, unless
    [fs.unlinkSync] throws on its upload: then the handler is left by that
    exception and no answer is given. *)
Theorem send_messages_answers_once (cfg : Config) (env : Env) (req : Request)
    (w : World) :
  let run := send_messages cfg env req w in
  let answered := responses (trace (snd run)) in
  if accepts env req w then
    fst run = Normal tt /\
    exists n, answered = (responses (trace w) ++ [(200%nat, RInitiated n)])%list
  else
    match refusal_unlink env req w with
    | None =>
        fst run = Normal tt /\
        exists code msg st,
          answered = (responses (trace w) ++ [(code, RError msg st)])%list /\
          (code = 400%nat \/ code = 429%nat)
    | Some e => fst run = Thrown e /\ answered = responses (trace w)
    end.
Proof.
  cbv zeta. unfold accepts. destruct (takes_lock req w) eqn:Htl.
  - destruct (send_messages_locked cfg env req w Htl)
      as (userId & client & _ & _ & _ & ->).
    set (w0 := set_sm _ _).
    assert (Hr0 : responses (trace w0) = responses (trace w)).
    { subst w0. simpl. rewrite responses_app. simpl. now rewrite app_nil_r. }
    assert (Ht0 : trace w0 =
                  (trace w ++ [ELog LInfo "Starting message send process"])%list)
      by reflexivity.
    clearbody w0.
    rewrite andb_true_l, (passes_checks_world env req w w0).
    destruct (passes_checks env req w0) eqn:Hp.
    + destruct (dispatch_locked_passes cfg env req w0 Hp)
        as (numbersRaw & mens & Hparse & Hm & Hn).
      destruct (dispatch_locked_accepted cfg env req userId client numbersRaw
                  mens w0 Hparse Hm Hn)
        as (media & w1 & up & w' & more & _ & _ & HFu & Hd & Ht & HF).
      rewrite Hd. cbn [fst snd]. split; [reflexivity|].
      exists (List.length numbersRaw).
      rewrite Ht, !responses_app, Hr0.
      rewrite (responses_silent up)
        by (eapply Forall_impl; [exact HFu|apply upload_effect_no_response]).
      simpl.
      rewrite (responses_silent more)
        by (eapply Forall_impl; [exact HF|apply job_effect_no_response]).
      reflexivity.
    + destruct (dispatch_locked_rejected cfg env req userId client w0 Hp)
        as (msg & ->).
      unfold refusal_unlink. rewrite <- Ht0.
      destruct (unlink_fails env (req_file req) (trace w0)); cbn [fst snd].
      * split; [reflexivity|]. unfold unlinked. simpl.
        now rewrite responses_app, responses_unlink_sync, app_nil_r.
      * split; [reflexivity|]. exists 400%nat, msg, None. simpl.
        rewrite !responses_app, responses_unlink_sync, Hr0. simpl.
        split; [reflexivity|now left].
  - rewrite (send_messages_refused cfg env req w Htl). simpl andb. cbv iota.
    destruct (refusal_unlink env req w); cbn [fst snd].
    + split; [reflexivity|]. simpl.
      rewrite responses_app. simpl. rewrite responses_unlink_sync.
      now rewrite app_nil_r.
    + split; [reflexivity|]. simpl.
      rewrite responses_app. simpl. rewrite responses_app, responses_unlink_sync.
      simpl.
      unfold refusal. destruct (req_userId req) as [u|]; simpl; [|eauto 6].
      destruct (JsString.truthy u); simpl; [|eauto 6].
      destruct (bool_decide (is_Some (sessions (sm w) !! u))
                && Status_eqb (default no_session (sessionStatus (sm w) !! u)) ready);
        simpl; eauto 6.
Qed.

(** X6.  A request that does not get the lock (no id, no such session,
    session not ready, or session busy) leaves the registry, the locks,
    the disk and the client alone: [unlinkSync] is called on the upload
    and the refusal is answered, or, when [unlinkSync] throws, the
    handler is left by that exception without an answer.  The refusal is
    429 exactly when the session exists, is ready and is locked; it is
    400 otherwise. *)
Theorem refused_before_lock (cfg : Config) (env : Env) (req : Request) (w : World) :
  takes_lock req w = false ->
  exists code body,
    send_messages cfg env req w =
      match refusal_unlink env req w with
      | None =>
          (Normal tt,
           mkWorld (sm w) (disk w)
             (trace w ++ ELog LInfo "Starting message send process" ::
              unlink_sync_effects (req_file req) ++ [ERespond code body])
             (clock w) (next_client w))
      | Some e =>
          (Thrown e,
           mkWorld (sm w) (disk w)
             (trace w ++ ELog LInfo "Starting message send process" ::
              unlink_sync_effects (req_file req))
             (clock w) (next_client w))
      end /\
    (code = 429%nat \/ code = 400%nat) /\
    (code = 429%nat <->
     exists userId,
       req_userId req = Some userId /\ JsString.truthy userId = true /\
       is_Some (sessions (sm w) !! userId) /\
       sessionStatus (sm w) !! userId = Some ready /\
       is_Some (sessionLocks (sm w) !! userId)).
Proof.
  intros Htl. rewrite (send_messages_refused cfg env req w Htl).
  do 2 eexists. split; [reflexivity|].
  revert Htl. unfold takes_lock, refusal.
  destruct (req_userId req) as [u|]; simpl.
  2:{ intros _. split; [now right|]. split; [discriminate|].
      intros (? & ? & _). discriminate. }
  destruct (JsString.truthy u) eqn:Hu; simpl.
  2:{ intros _. split; [now right|]. split; [discriminate|].
      intros (u' & [= <-] & Hu' & _). congruence. }
  destruct (bool_decide (is_Some (sessions (sm w) !! u))) eqn:Hs; simpl.
  2:{ intros _. split; [now right|]. split; [discriminate|].
      intros (u' & [= <-] & _ & Hs' & _).
      apply bool_decide_eq_false in Hs. contradiction. }
  destruct (Status_eqb (default no_session (sessionStatus (sm w) !! u)) ready)
    eqn:Hst; simpl.
  2:{ intros _. split; [now right|]. split; [discriminate|].
      intros (u' & [= <-] & _ & _ & Hst' & _).
      rewrite Hst' in Hst. discriminate. }
  intros Hl. apply negb_false_iff, bool_decide_eq_true in Hl.
  split; [now left|]. split; [|reflexivity]. intros _.
  exists u. split; [reflexivity|]. split; [exact Hu|].
  split; [now apply bool_decide_eq_true in Hs|]. split; [|exact Hl].
  apply Status_eqb_eq in Hst.
  destruct (sessionStatus (sm w) !! u) as [s|]; simpl in Hst; [now subst|discriminate].
Qed.

(** Session ["a"] is ready and a job holds its lock.  A request for it
    is answered 429 once its upload is removed, and nothing else changes;
    when the upload cannot be removed the handler throws and the request
    gets no answer. *)
Lemma refused_before_lock_witness :
  (exists code body,
     send_messages (config_max 3) env_ok request_bad_json world_busy_a =
       (Normal tt,
        mkWorld (sm world_busy_a) (disk world_busy_a)
          (trace world_busy_a ++ ELog LInfo "Starting message send process" ::
           unlink_sync_effects (req_file request_bad_json) ++ [ERespond code body])
          (clock world_busy_a) (next_client world_busy_a)) /\
     code = 429%nat) /\
  send_messages (config_max 3) env_unlink_throws request_bad_json world_busy_a =
    (Thrown "EPERM: operation not permitted, unlink",
     mkWorld (sm world_busy_a) (disk world_busy_a)
       [ELog LInfo "Starting message send process";
        EUnlinkSync "uploads/media-2.png"]
       (clock world_busy_a) (next_client world_busy_a)).
Proof.
  split.
  - destruct (refused_before_lock (config_max 3) env_ok request_bad_json
                world_busy_a) as (code & body & Hrun & _ & Hcode);
      [vm_compute; reflexivity|].
    exists code, body. split; [exact Hrun|]. apply Hcode.
    exists "a". split; [reflexivity|]. split; [reflexivity|].
    split; [vm_compute; eauto|]. split; [vm_compute; reflexivity|].
    vm_compute; eauto.
  - destruct (refused_before_lock (config_max 3) env_unlink_throws
                request_bad_json world_busy_a) as (code & body & Hrun & _);
      [vm_compute; reflexivity|].
    exact Hrun.
Defined.

(** ** The lists of a request *)

Lemma message_for_message_for (mens : list Json) (message : option string)
    (i : nat) (later : option Json) :
  Js.or_undef (Some (message_for mens message i))
    (JStr (Js.str_or message "")) = message_for mens message i.
Proof.
  unfold message_for, Js.or_undef, Js.or.
  destruct (mens !! i) as [a|]; simpl.
  - destruct (Js.truthy a) eqn:Ha; [now rewrite Ha|].
    now destruct (Js.truthy (JStr (Js.str_or message ""))).
  - now destruct (JsString.truthy (Js.str_or message "")).
Qed.

(** X7.  When the two lists parse, the recipients are the array given in
    [numbers], there are as many messages as recipients whatever was
    given in [mensajesPorNumero], and the text the job uses for recipient
    [i] is [mensajesPorNumero[i] || message || ""] of the array given, or
    [message || ""] when what was given is not an array.  Parsing leaves
    the world as it is. *)
Theorem parse_lists_aligns_messages (env : Env) (req : Request)
    (numbers mens : list Json) (w w' : World) :
  parse_lists env req w = (Normal (numbers, mens), w') ->
  w' = w /\
  JSON_parse env (Js.str_or (req_numbers req) "[]") = Normal (JArr numbers) /\
  List.length mens = List.length numbers /\
  forall i, (i < List.length numbers)%nat ->
    message_for mens (req_message req) i =
    match JSON_parse env (Js.str_or (req_mensajesPorNumero req) "[]") with
    | Normal (JArr given) => message_for given (req_message req) i
    | _ => JStr (Js.str_or (req_message req) "")
    end.
Proof.
  unfold parse_lists, bind, lift.
  destruct (JSON_parse env (Js.str_or (req_numbers req) "[]")) as [n|];
    [|discriminate].
  destruct (JSON_parse env (Js.str_or (req_mensajesPorNumero req) "[]"))
    as [m|]; [|discriminate].
  destruct n as [| | | |ns|]; try discriminate.
  unfold ret. intros [= <- <- <-].
  split; [reflexivity|]. split; [reflexivity|].
  assert (Himap : forall (g : list Json),
            List.length (imap (fun index _ => message_for g (req_message req) index) ns)
              = List.length ns /\
            forall i, (i < List.length ns)%nat ->
              message_for
                (imap (fun index _ => message_for g (req_message req) index) ns)
                (req_message req) i = message_for g (req_message req) i).
  { intros g. split; [apply length_imap|]. intros i Hi.
    destruct (lookup_lt_is_Some_2 ns i Hi) as [x Hx].
    unfold message_for at 1. rewrite list_lookup_imap, Hx. simpl.
    apply (message_for_message_for g (req_message req) i None). }
  assert (Hconst : forall i, (i < List.length ns)%nat ->
            message_for (map (fun _ => JStr (Js.str_or (req_message req) "")) ns)
              (req_message req) i = JStr (Js.str_or (req_message req) "")).
  { intros i Hi. destruct (lookup_lt_is_Some_2 ns i Hi) as [x Hx].
    unfold message_for. change (@map Json Json) with (@fmap list _ Json Json).
    rewrite list_lookup_fmap, Hx. simpl. unfold Js.or.
    now destruct (Js.truthy (JStr (Js.str_or (req_message req) ""))). }
  destruct m as [| | | |given|];
    try (rewrite length_map, Nat.eqb_refl; split; [apply length_map|exact Hconst]).
  destruct (List.length given =? List.length ns)%nat eqn:Hlen.
  - apply Nat.eqb_eq in Hlen. split; [exact Hlen|reflexivity].
  - apply Himap.
Qed.

(** Two recipients, no list of messages: both get the text of the
    request. *)
Lemma parse_lists_aligns_messages_witness :
  exists mens,
    parse_lists env_ok request_numbers_not_strings (world_at 5)
      = (Normal ([JNum 1; JNum 2], mens), world_at 5) /\
    List.length mens = 2%nat /\
    message_for mens (Some "hola") 1 = JStr "hola".
Proof.
  exists [JStr "hola"; JStr "hola"].
  assert (H : parse_lists env_ok request_numbers_not_strings (world_at 5)
              = (Normal ([JNum 1; JNum 2], [JStr "hola"; JStr "hola"]), world_at 5))
    by (vm_compute; reflexivity).
  split; [exact H|].
  destruct (parse_lists_aligns_messages env_ok request_numbers_not_strings
              _ _ _ _ H) as (_ & _ & Hlen & Hmsg).
  split; [exact Hlen|].
  assert (Hi : (1 < List.length [JNum 1; JNum 2])%nat) by (simpl; lia).
  pose proof (Hmsg 1%nat Hi) as H1. vm_compute in H1 |- *. exact H1.
Defined.

(** ** An upload that cannot be read *)

Lemma unlinks_app (a b : list Effect) :
  unlinks (a ++ b) = (unlinks a ++ unlinks b)%list.
Proof. apply omap_app. Qed.

Lemma media_sends_app (a b : list Effect) :
  media_sends (a ++ b) = (media_sends a ++ media_sends b)%list.
Proof. apply omap_app. Qed.

(** The removals of the upload a job asks for: the one of its [finally]
    block, when there is an upload. *)
Lemma background_unlinks (env : Env) (userId : string) (client : Client)
    (message : option string) (media : option MessageMedia) (mens : list Json)
    (total : nat) (sendDelay : Z) (mediaFile : option MediaFile)
    (numbersRaw : list Json) (w : World) :
  unlinks (trace (snd (background env userId client message media mens total
                         sendDelay mediaFile numbersRaw w)))
  = (unlinks (trace w) ++ unlinks (unlink_effects mediaFile))%list.
Proof.
  rewrite background_eq. cbv zeta.
  destruct (adds_only_send_loop env client message media mens total sendDelay
              numbersRaw 0%nat (mkTally 0 0 [])
              (set_sm (lastActivity_set userId (clock w) (sm w)) w))
    as (pre & Hpre & HF).
  assert (Hu : unlinks pre = []).
  { apply (omap_none _ (loop_effect client media)); [|exact HF].
    intros e. destruct e; simpl; tauto. }
  destruct (send_loop env client message media mens total sendDelay 0 numbersRaw
              (mkTally 0 0 []) _) as [[t|e] w1]; simpl in *;
    rewrite !unlinks_app, Hpre, unlinks_app, Hu; simpl;
    rewrite !app_nil_r; reflexivity.
Qed.

(** X8.  When the upload of an accepted request cannot be read, the
    request is still answered 200 and the job runs without media: no
    send carries a media.  The removal of the upload is asked for twice,
    once when the read fails and once when the job ends. *)
Theorem unreadable_upload_is_dropped (cfg : Config) (env : Env) (req : Request)
    (userId : string) (client : Client) (f : MediaFile) (e : string)
    (numbersRaw mens : list Json) (w : World) :
  req_file req = Some f ->
  fs_readFileSync env (trace w) (mf_path f) = Thrown e ->
  fst (parse_lists env req w) = Normal (numbersRaw, mens) ->
  numbersRaw <> [] ->
  exists w',
    dispatch_locked cfg env req userId client w = (Normal tt, w') /\
    responses (trace w') =
      (responses (trace w) ++ [(200%nat, RInitiated (List.length numbersRaw))])%list /\
    media_sends (trace w') = media_sends (trace w) /\
    unlinks (trace w') = (unlinks (trace w) ++ [mf_path f; mf_path f])%list.
Proof.
  intros Hf Hread Hp Hn.
  destruct (dispatch_locked_accepted cfg env req userId client numbersRaw mens w Hp)
    as (media & w1 & up & w' & more & Hl & Hu & _ & Hd & Ht & HF);
    [rewrite Hf; apply orb_true_r|exact Hn|].
  rewrite load_media_eq, Hf, Hread in Hl. injection Hl as <- <-.
  simpl in Hu. apply app_inv_head in Hu. subst up.
  exists w'. split; [exact Hd|]. split; [|split].
  - rewrite Ht, !responses_app. simpl.
    rewrite (responses_silent more)
      by (eapply Forall_impl; [exact HF|apply job_effect_no_response]).
    reflexivity.
  - assert (Hm : media_sends more = []).
    { apply (omap_none _ (job_effect userId client None (req_file req)));
        [|exact HF].
      intros x. destruct x as [| | | | |c chat [m cap|c0]| | | | | | | | |];
        simpl; try tauto. intros [_ H]. discriminate. }
    rewrite Ht.
    change (ELog LInfo "Starting to send messages"
            :: ERespond 200 (RInitiated (List.length numbersRaw)) :: more)
      with ([ELog LInfo "Starting to send messages";
             ERespond 200 (RInitiated (List.length numbersRaw))] ++ more)%list.
    rewrite !media_sends_app, Hm. simpl. now rewrite !app_nil_r.
  - pose proof (background_unlinks env userId client (req_message req) None mens
                  (List.length numbersRaw) (chosen_delay cfg env req) (req_file req)
                  numbersRaw
                  (add_effect (ERespond 200 (RInitiated (List.length numbersRaw)))
                     (add_effect (ELog LInfo "Starting to send messages")
                        (mkWorld (sm w) (disk w)
                           (trace w ++ [EReadFileSync (mf_path f);
                                        ELog LError "Error processing media file";
                                        EUnlink (mf_path f)])
                           (clock w) (next_client w))))) as Hb.
    rewrite dispatch_locked_eq in Hd. cbv zeta in Hd. rewrite Hp in Hd.
    rewrite Hf in Hd. simpl negb in Hd. rewrite andb_false_r in Hd.
    assert ((List.length numbersRaw =? 0)%nat = false) as Hlen.
    { apply Nat.eqb_neq. destruct numbersRaw; [congruence|simpl; lia]. }
    rewrite Hlen, load_media_eq, Hread in Hd. rewrite Hf in Hb.
    rewrite Hd in Hb. simpl in Hb. rewrite Hb.
    rewrite !unlinks_app. simpl. now rewrite <- !app_assoc.
Qed.

(** The upload of [request_with_upload] cannot be read: its one
    recipient is still served, with text, and the removal of the upload
    is asked for twice. *)
Lemma unreadable_upload_is_dropped_witness :
  exists w',
    dispatch_locked (config_max 3) env_unreadable request_with_upload "a" 0%nat
      world_busy_a = (Normal tt, w') /\
    responses (trace w') = [(200%nat, RInitiated 1)] /\
    media_sends (trace w') = [] /\
    unlinks (trace w') = ["uploads/media-3.png"; "uploads/media-3.png"].
Proof.
  apply (unreadable_upload_is_dropped (config_max 3) env_unreadable
           request_with_upload "a" 0%nat
           (mkMediaFile "uploads/media-3.png" "image/png" "logo.png")
           "ENOENT: no such file or directory"
           [JStr "70000001"] [JStr "hola"] world_busy_a);
    [reflexivity|reflexivity|vm_compute; reflexivity|discriminate].
Defined.

(** ** The report of a job on a steady client *)

(** X9.  With a client that resolves numbers as [resolve] says and whose
    sends succeed, the job over string recipients ends with exactly this
    report: the failures are the recipients [resolve] does not know, in
    input order, each with the reason [not_valid_reason]; all the others
    are counted as sent; the total is the number of recipients.  The
    upload is removed and the lock released after the report. *)
Theorem job_report_with_steady_client (env : Env) (userId : string)
    (client : Client) (message : option string) (media : option MessageMedia)
    (mens : list Json) (sendDelay : Z) (mediaFile : option MediaFile)
    (resolve : string -> option string) (l : list string) (w : World) :
  steady env resolve ->
  exists w' pre,
    background env userId client message media mens (List.length l) sendDelay
      mediaFile (JStr <$> l) w = (Normal tt, w') /\
    trace w' =
      (trace w ++ pre ++
       EReport (List.length l - List.length (unresolved resolve l))
         (List.length (unresolved resolve l)) (List.length l)
         (map (fun s => mkFailedNumber s not_valid_reason) (unresolved resolve l))
       :: unlink_effects mediaFile ++ [ELockReleased userId])%list /\
    Forall (loop_effect client media) pre.
Proof.
  intros Hsteady. rewrite background_eq. cbv zeta.
  set (w0 := set_sm (lastActivity_set userId (clock w) (sm w)) w).
  destruct (send_loop_steady env client message media mens (List.length l)
              sendDelay resolve l 0%nat (mkTally 0 0 []) w0 Hsteady) as [w1 Hrun].
  destruct (adds_only_send_loop env client message media mens (List.length l)
              sendDelay (JStr <$> l) 0%nat (mkTally 0 0 []) w0) as (pre & Hpre & HF).
  rewrite Hrun in Hpre |- *. simpl in Hpre.
  eexists. exists pre. split; [reflexivity|]. split; [|exact HF].
  simpl. rewrite Hpre. simpl. now rewrite <- !app_assoc.
Qed.

(** Three recipients, the second unknown to the client: two sent, one
    failed. *)
Lemma job_report_with_steady_client_witness :
  exists w' pre,
    background env_second_unknown "a" 0%nat (Some "hola") None three_messages
      (List.length three_numbers) 8000 None (JStr <$> three_numbers) world_ready_a
    = (Normal tt, w') /\
    trace w' =
      (trace world_ready_a ++ pre ++
       EReport 2 1 3 [mkFailedNumber "70000002" not_valid_reason]
       :: unlink_effects None ++ [ELockReleased "a"])%list /\
    Forall (loop_effect 0%nat None) pre.
Proof.
  apply (job_report_with_steady_client env_second_unknown "a" 0%nat (Some "hola")
           None three_messages 8000 None resolve_but_second three_numbers
           world_ready_a).
  split; [|reflexivity].
  intros tr c n. unfold resolve_but_second. simpl.
  destruct (String.eqb n "59170000002"); reflexivity.
Defined.

(** ** [getOldestSession] *)

(** The scan keeps the first of the entries with the smallest stamp, if
    that stamp is below the seed. *)
Lemma oldest_scan_first (l : list (string * Z)) (acc : option string * Z) :
  (fold_left oldest_step l acc = acc /\
   forall u t, (u, t) ∈ l -> snd acc <= t) \/
  (exists pre o t_o post,
     l = (pre ++ (o, t_o) :: post)%list /\
     fold_left oldest_step l acc = (Some o, t_o) /\
     t_o < snd acc /\
     (forall u t, (u, t) ∈ pre -> t_o < t) /\
     (forall u t, (u, t) ∈ post -> t_o <= t)).
Proof.
  revert acc. induction l as [|[u t] r IH]; intros acc.
  - left. split; [reflexivity|]. intros u t H. now apply elem_of_nil in H.
  - simpl. assert (Hstep : oldest_step acc (u, t)
                    = if t <? snd acc then (Some u, t) else acc) by reflexivity.
    rewrite Hstep. clear Hstep.
    destruct (Z.ltb_spec t (snd acc)) as [Hlt|Hge].
    + right. destruct (IH (Some u, t)) as [[Hr Hall]|(pre & o & t_o & post & Hl & Hr & Ht & Hpre & Hpost)].
      * exists [], u, t, r. simpl in *. split; [reflexivity|]. split; [exact Hr|].
        split; [exact Hlt|]. split; [|exact Hall].
        intros ? ? H. now apply elem_of_nil in H.
      * exists ((u, t) :: pre), o, t_o, post. simpl in *.
        split; [now rewrite Hl|]. split; [exact Hr|]. split; [lia|].
        split; [|exact Hpost].
        intros u' t' H. apply elem_of_cons in H as [[= -> ->]|H];
          [exact Ht|exact (Hpre _ _ H)].
    + destruct (IH acc) as [[Hr Hall]|(pre & o & t_o & post & Hl & Hr & Ht & Hpre & Hpost)].
      * left. split; [exact Hr|].
        intros u' t' H. apply elem_of_cons in H as [[= -> ->]|H];
          [exact Hge|exact (Hall _ _ H)].
      * right. exists ((u, t) :: pre), o, t_o, post.
        split; [now rewrite Hl|]. split; [exact Hr|]. split; [exact Ht|].
        split; [|exact Hpost].
        intros u' t' H. apply elem_of_cons in H as [[= -> ->]|H];
          [lia|exact (Hpre _ _ H)].
Qed.

(** X10.  [getOldestSession] reads and changes nothing.  It answers
    [null] exactly when no activity stamp is strictly older than the
    current time; otherwise it answers the id of the first entry, in
    insertion order, among those with the smallest stamp. *)
Theorem getOldestSession_spec (w : World) :
  exists r,
    getOldestSession w = (Normal r, w) /\
    match r with
    | None => forall u t, (u, t) ∈ lastActivity (sm w) -> clock w <= t
    | Some o =>
        exists pre t_o post,
          lastActivity (sm w) = (pre ++ (o, t_o) :: post)%list /\
          t_o < clock w /\
          (forall u t, (u, t) ∈ pre -> t_o < t) /\
          (forall u t, (u, t) ∈ post -> t_o <= t)
    end.
Proof.
  unfold getOldestSession, bind, Date_now, gets, ret. simpl.
  eexists. split; [reflexivity|].
  destruct (oldest_scan_first (lastActivity (sm w)) (None, clock w))
    as [[-> Hall]|(pre & o & t_o & post & Hl & -> & Ht & Hpre & Hpost)]; simpl.
  - exact Hall.
  - exists pre, t_o, post. auto.
Qed.

(** ** [createSession] as a whole *)

Lemma enforce_limit_eq (cfg : Config) (env : Env) (w : World) :
  enforce_limit cfg env w =
  (Normal tt,
   match evicted cfg w with
   | Some o => destroyed env o w
   | None => w
   end).
Proof.
  unfold enforce_limit, evicted. rewrite bind_gets.
  destruct (maxSessions (cfg_sessions cfg) <=? Z.of_nat (size (sessions (sm w))));
    [|reflexivity].
  unfold bind, getOldestSession, bind, Date_now, gets, ret. simpl.
  destruct (fst (fold_left oldest_step (lastActivity (sm w)) (None, clock w)))
    as [o|]; [|reflexivity].
  destruct (JsString.truthy o); [apply destroySession_eq|reflexivity].
Qed.

(** [create_new] in closed form: the constructor throws, [initialize]
    rejects, or the session is registered. *)
Lemma create_new_eq (env : Env) (userId : string) (w : World) :
  create_new env userId w =
  match client_ctor env (trace w) userId with
  | Some msg =>
      (Normal (init_failed msg),
       destroyed env userId
         (add_effect (ELog LError "Error creating session")
            (set_sm (touched userId w) w)))
  | None =>
      let c := next_client w in
      let w1 :=
        mkWorld (sessions_set userId c (touched userId w)) (disk w)
          (trace w ++ [ENewClient userId c; EInitialize c]) (clock w) (S c) in
      match client_initialize env (trace w ++ [ENewClient userId c]) c with
      | Some msg =>
          (Normal (init_failed msg),
           destroyed env userId
             (add_effect (ELog LError "Error creating session") w1))
      | None =>
          (Normal (mkCreateResult true (Some "Session initialization finished.")
                     None (Some initializing)), w1)
      end
  end.
Proof.
  rewrite create_new_split, create_new_begin_eq.
  destruct (client_ctor env (trace w) userId) as [msg|]; [reflexivity|].
  rewrite create_new_resume_eq. cbv zeta.
  destruct (client_initialize env _ (next_client w)) as [msg|].
  - apply create_failed_eq.
  - simpl. now rewrite lookup_insert_eq.
Qed.

Lemma same_entries_refl (u : string) (s : SessionManager) : same_entries u s s.
Proof. unfold same_entries. tauto. Qed.

Lemma purge_other (u v : string) (s : SessionManager) :
  u <> v -> same_entries v s (purge u s).
Proof.
  intros Hne. unfold same_entries, purge. simpl.
  rewrite !lookup_delete_ne by assumption.
  rewrite JsMap_get_delete_ne by assumption. auto.
Qed.

(** The entries of another id do not change when the first three writes
    of [create_new] are made, nor when the client is registered. *)
Lemma touched_other (userId v : string) (w : World) :
  userId <> v ->
  same_entries v (sm w) (touched userId w) /\
  forall c, same_entries v (sm w) (sessions_set userId c (touched userId w)).
Proof.
  intros Hne. split; [|intros c]; unfold same_entries, touched; simpl;
    rewrite ?lookup_insert_ne by exact Hne;
    rewrite JsMap_get_set_ne by exact Hne; auto 10.
Qed.

Lemma create_new_other (env : Env) (userId v : string) (w : World) :
  userId <> v ->
  same_entries v (sm w) (sm (snd (create_new env userId w))).
Proof.
  intros Hne. rewrite create_new_eq. cbv zeta.
  destruct (touched_other userId v w Hne) as [Ht Hs].
  destruct (client_ctor env (trace w) userId) as [msg|].
  - eapply same_entries_trans; [exact Ht|]. now apply purge_other.
  - destruct (client_initialize env _ (next_client w)) as [msg|]; simpl.
    + eapply same_entries_trans; [apply Hs|]. now apply purge_other.
    + apply Hs.
Qed.

(** What follows the limit check. *)
Lemma createSession_eq (cfg : Config) (env : Env) (userId : string) (w : World) :
  createSession cfg env userId w =
  let w0 := match evicted cfg w with
            | Some o => destroyed env o w
            | None => w
            end in
  match sessions (sm w0) !! userId with
  | Some _ =>
      if status_includes live_statuses (sessionStatus (sm w0) !! userId)
      then (Normal
              (mkCreateResult true
                 (Some ("Session already " +:+
                        match sessionStatus (sm w0) !! userId with
                        | Some st => Status_to_string st
                        | None => "undefined"
                        end))
                 None (sessionStatus (sm w0) !! userId)), w0)
      else create_new env userId (destroyed env userId w0)
  | None => create_new env userId w0
  end.
Proof.
  cbv zeta. unfold createSession. unfold bind at 1. rewrite enforce_limit_eq.
  rewrite bind_gets.
  destruct (sessions _ !! userId); [|reflexivity].
  rewrite bind_gets.
  destruct (status_includes live_statuses _); [reflexivity|].
  unfold bind. now rewrite destroySession_eq.
Qed.

Lemma elem_of_dirs_on_disk (env : Env) (userId p : string) (d : gset string) :
  p ∈ dirs_on_disk env userId d <->
  p ∈ d /\ (p = sessionAuthPath env userId \/ p = sessionCachePath env userId).
Proof.
  unfold dirs_on_disk. rewrite list_elem_of_filter, !elem_of_cons, elem_of_nil.
  tauto.
Qed.

Lemma removals_app (a b : list Effect) :
  removals (a ++ b) = (removals a ++ removals b)%list.
Proof. apply omap_app. Qed.

Lemma removals_rm_effects (env : Env) (userId : string) (d : gset string) :
  removals (rm_effects (sessionAuthPath env userId) d
              ++ rm_effects (sessionCachePath env userId) d) =
  dirs_on_disk env userId d.
Proof.
  unfold dirs_on_disk, rm_effects. rewrite !filter_cons, filter_nil.
  repeat case_bool_decide; repeat case_decide; try contradiction; reflexivity.
Qed.

Lemma removals_teardown (env : Env) (userId : string) (w : World) :
  removals (teardown_effects env userId w) = [].
Proof.
  unfold teardown_effects. destruct (sessions (sm w) !! userId) as [c|]; [|reflexivity].
  destruct (status_includes _ _); simpl.
  - destruct (client_logout env (trace w) c); simpl;
      match goal with |- context [client_destroy ?e ?t ?c] =>
        destruct (client_destroy e t c) end; reflexivity.
  - destruct (client_destroy env _ c); reflexivity.
Qed.

(** The removals [destroySession] asks for. *)
Lemma removals_destroyed (env : Env) (userId : string) (w : World) :
  removals (trace (destroyed env userId w)) =
  (removals (trace w) ++ dirs_on_disk env userId (disk w))%list.
Proof.
  unfold destroyed. simpl.
  now rewrite !removals_app, removals_teardown, <- removals_app,
    removals_rm_effects.
Qed.

(** The removals [create_new] asks for: those of its [catch], if it
    runs. *)
Lemma removals_create_new (env : Env) (userId : string) (w : World) :
  let run := create_new env userId w in
  removals (trace (snd run)) =
  (removals (trace w)
     ++ if cr_success (match fst run with Normal r => r | Thrown _ => init_failed "" end)
        then [] else dirs_on_disk env userId (disk w))%list.
Proof.
  cbv zeta. rewrite create_new_eq. cbv zeta.
  destruct (client_ctor env (trace w) userId) as [msg|].
  - cbn [fst snd]. rewrite removals_destroyed. simpl.
    now rewrite removals_app, app_nil_r.
  - destruct (client_initialize env _ (next_client w)) as [msg|]; cbn [fst snd].
    + rewrite removals_destroyed. simpl.
      rewrite !removals_app. simpl. now rewrite !app_nil_r.
    + simpl. rewrite removals_app. simpl. now rewrite !app_nil_r.
Qed.

(** X11.  [createSession] around [await client.initialize()].  Up to the
    [await]: when the constructor of the client throws, the [catch] has
    run, the call is over with the failure result and no record is left of
    the id; otherwise the id is [initializing] on a fresh client handle,
    and [initialize] has been called on it.  From the moment [initialize]
    settles, whatever the handlers of the client and other requests have
    done to the registry in between, the call returns normally.  When
    [initialize] resolved, the call reports success with the status the
    registry holds for the id at that moment, which may be none, and
    changes nothing.  When it rejected, the call reports failure with
    status [init_error] and an error text that starts with
    ["Failed to initialize session: "], no record is left of the id, and
    the removal of each directory of the id that is on disk has been
    requested. *)
Theorem createSession_always_answers (env : Env) (userId : string)
    (outcome : option string) (w w1 : World) :
  let begun := create_new_begin env userId w in
  let run := create_new_resume env userId outcome w1 in
  match client_ctor env (trace w) userId with
  | Some msg =>
      fst begun = Normal (inl (init_failed msg)) /\
      no_record userId (sm (snd begun))
  | None =>
      fst begun = Normal (inr (next_client w)) /\
      sm (snd begun) = sessions_set userId (next_client w) (touched userId w) /\
      trace (snd begun) =
        (trace w ++ [ENewClient userId (next_client w);
                     EInitialize (next_client w)])%list
  end /\
  match outcome with
  | None =>
      run =
        (Normal (mkCreateResult true (Some "Session initialization finished.")
                   None (sessionStatus (sm w1) !! userId)), w1)
  | Some msg =>
      fst run = Normal (init_failed msg) /\
      no_record userId (sm (snd run)) /\
      getSessionStatus userId (snd run) = (Normal no_session, snd run) /\
      removals (trace (snd run)) =
        (removals (trace w1) ++ dirs_on_disk env userId (disk w1))%list
  end.
Proof.
  cbv zeta. rewrite create_new_begin_eq, create_new_resume_eq. split.
  - destruct (client_ctor env (trace w) userId) as [msg|]; cbn [fst snd].
    + split; [reflexivity|apply destroyed_no_record].
    + repeat split.
  - destruct outcome as [msg|]; [|reflexivity].
    rewrite create_failed_eq. cbn [fst snd].
    split; [reflexivity|]. split; [apply destroyed_no_record|]. split.
    + unfold getSessionStatus, gets.
      destruct (destroyed_no_record env userId
                  (add_effect (ELog LError "Error creating session") w1))
        as (_ & _ & -> & _). reflexivity.
    + rewrite removals_destroyed. simpl. rewrite removals_app. simpl.
      now rewrite app_nil_r.
Qed.

(** After the limit check, [createSession] leaves the other ids alone. *)
Lemma createSession_after_limit_other (cfg : Config) (env : Env)
    (userId v : string) (w : World) :
  v <> userId ->
  same_entries v
    (sm match evicted cfg w with
        | Some o => destroyed env o w
        | None => w
        end)
    (sm (snd (createSession cfg env userId w))).
Proof.
  intros Hv. rewrite createSession_eq. cbv zeta.
  set (w0 := match evicted cfg w with Some o => destroyed env o w | None => w end).
  assert (Hne : userId <> v) by congruence.
  destruct (sessions (sm w0) !! userId) as [c|];
    [|now apply create_new_other].
  destruct (status_includes live_statuses (sessionStatus (sm w0) !! userId));
    [apply same_entries_refl|].
  eapply same_entries_trans; [|now apply create_new_other].
  simpl. now apply purge_other.
Qed.

(** The removals one [createSession] call asks for: the directories of
    the evicted session, then those of its own id, once for each
    [destroySession] it runs on it. *)
Lemma removals_createSession (cfg : Config) (env : Env) (userId : string)
    (w : World) :
  exists k : nat,
    removals (trace (snd (createSession cfg env userId w))) =
    (removals (trace w)
       ++ match evicted cfg w with
          | Some o => dirs_on_disk env o (disk w)
          | None => []
          end
       ++ concat (replicate k (dirs_on_disk env userId (disk w))))%list.
Proof.
  rewrite createSession_eq. cbv zeta.
  set (w0 := match evicted cfg w with Some o => destroyed env o w | None => w end).
  assert (Hd : disk w0 = disk w) by (subst w0; now destruct (evicted cfg w)).
  assert (Hr : removals (trace w0) =
               (removals (trace w)
                  ++ match evicted cfg w with
                     | Some o => dirs_on_disk env o (disk w)
                     | None => []
                     end)%list).
  { subst w0. destruct (evicted cfg w) as [o|].
    - apply removals_destroyed.
    - now rewrite app_nil_r. }
  assert (Hnew : forall w2 (n : nat),
            disk w2 = disk w ->
            removals (trace w2) =
              (removals (trace w0)
                 ++ concat (replicate n (dirs_on_disk env userId (disk w))))%list ->
            exists k : nat,
              removals (trace (snd (create_new env userId w2))) =
              (removals (trace w)
                 ++ match evicted cfg w with
                    | Some o => dirs_on_disk env o (disk w)
                    | None => []
                    end
                 ++ concat (replicate k (dirs_on_disk env userId (disk w))))%list).
  { intros w2 n Hd2 Hr2.
    pose proof (removals_create_new env userId w2) as Hc. cbv zeta in Hc.
    rewrite Hc, Hr2, Hr, Hd2, <- !app_assoc.
    destruct (cr_success _).
    - exists n. now rewrite app_nil_r.
    - exists (S n). do 2 f_equal.
      replace (S n) with (n + 1)%nat by lia.
      rewrite replicate_add, concat_app. simpl. now rewrite app_nil_r. }
  destruct (sessions (sm w0) !! userId) as [c|].
  2:{ apply (Hnew w0 0%nat Hd). simpl. now rewrite app_nil_r. }
  destruct (status_includes live_statuses (sessionStatus (sm w0) !! userId)).
  { exists 0%nat. cbn [snd]. rewrite Hr. simpl. now rewrite app_nil_r. }
  apply (Hnew (destroyed env userId w0) 1%nat); [exact Hd|].
  rewrite removals_destroyed, Hd. simpl. now rewrite app_nil_r.
Qed.

(** X12.  [createSession] works on its own id and on the session the
    limit check evicts, and on nothing else: every other id keeps its
    client, QR code, status, activity stamp and lock.  On disk, the only
    removals it asks for are those of the directories that [path.join]
    gives for the evicted id and for its own id; for an id such as
    ["c/"] these are the directories of session ["c"]. *)
Theorem createSession_frame (cfg : Config) (env : Env) (userId v : string)
    (w : World) :
  v <> userId ->
  evicted cfg w <> Some v ->
  let w' := snd (createSession cfg env userId w) in
  same_entries v (sm w) (sm w') /\
  exists k : nat,
    removals (trace w') =
    (removals (trace w)
       ++ match evicted cfg w with
          | Some o => dirs_on_disk env o (disk w)
          | None => []
          end
       ++ concat (replicate k (dirs_on_disk env userId (disk w))))%list.
Proof.
  intros Hv He. cbv zeta. split; [|apply removals_createSession].
  eapply same_entries_trans;
    [|apply (createSession_after_limit_other cfg env userId v w Hv)].
  destruct (evicted cfg w) as [o|]; [|apply same_entries_refl].
  simpl. apply purge_other. congruence.
Qed.

(** Room for three sessions, three sessions running: creating ["d"]
    evicts ["a"] and leaves ["c"] alone.  The directories of the id
    ["c/"] are those of session ["c"]. *)
Lemma createSession_frame_witness :
  same_entries "c" (sm world_three)
    (sm (snd (createSession (config_max 3) env_ok "d" world_three))) /\
  sessionAuthPath env_ok "c/" = sessionAuthPath env_ok "c" /\
  sessionCachePath env_ok "c/" = sessionCachePath env_ok "c".
Proof.
  split; [|split; reflexivity].
  apply (createSession_frame (config_max 3) env_ok "d" "c" world_three);
    [discriminate|vm_compute; discriminate].
Defined.

Lemma world_three_registry_ok : registry_ok (config_max 3) 1 world_three.
Proof.
  split; [|split].
  - intros u.
    change (sessions (sm world_three))
      with ({["a" := 0%nat; "b" := 1%nat; "c" := 2%nat]} : gmap string Client).
    change (lastActivity (sm world_three))
      with [("a", 100); ("b", 200); ("c", 1940000)].
    destruct (decide ("a" = u)) as [<-|Ha]; [vm_compute; split; eauto|].
    destruct (decide ("b" = u)) as [<-|Hb]; [vm_compute; split; eauto|].
    destruct (decide ("c" = u)) as [<-|Hc]; [vm_compute; split; eauto|].
    rewrite !lookup_insert_ne, lookup_singleton_ne by assumption.
    cbn [JsMap.get].
    rewrite (proj2 (String.eqb_neq _ _) Ha), (proj2 (String.eqb_neq _ _) Hb),
      (proj2 (String.eqb_neq _ _) Hc).
    split; intros [x Hx]; discriminate.
  - vm_compute. discriminate.
  - intros u t H. simpl in H. rewrite !elem_of_cons, elem_of_nil in H.
    destruct H as [H|[H|[H|[]]]]; inversion H; subst; split;
      (reflexivity || (vm_compute; discriminate)).
Qed.

(** The trace of [createSession] starts with what the limit check
    adds. *)
Lemma createSession_trace_after_limit (cfg : Config) (env : Env)
    (userId : string) (w : World) :
  exists more,
    trace (snd (createSession cfg env userId w)) =
    (trace match evicted cfg w with
           | Some o => destroyed env o w
           | None => w
           end ++ more)%list.
Proof.
  rewrite createSession_eq. cbv zeta.
  set (w0 := match evicted cfg w with Some o => destroyed env o w | None => w end).
  assert (Hnew : forall w2 pre, trace w2 = (trace w0 ++ pre)%list ->
            exists more,
              trace (snd (create_new env userId w2)) = (trace w0 ++ more)%list).
  { intros w2 pre Hpre. rewrite create_new_eq. cbv zeta.
    destruct (client_ctor env (trace w2) userId) as [msg|].
    - unfold destroyed. simpl. rewrite Hpre. eexists.
      rewrite <- !app_assoc. reflexivity.
    - destruct (client_initialize env _ (next_client w2)) as [msg|].
      + unfold destroyed. simpl. rewrite Hpre. eexists.
        rewrite <- !app_assoc. reflexivity.
      + simpl. rewrite Hpre. eexists. rewrite <- !app_assoc. reflexivity. }
  destruct (sessions (sm w0) !! userId) as [c|].
  2:{ apply (Hnew w0 []). now rewrite app_nil_r. }
  destruct (status_includes live_statuses (sessionStatus (sm w0) !! userId)).
  { exists []. simpl. now rewrite app_nil_r. }
  apply (Hnew (destroyed env userId w0)
           (teardown_effects env userId w0
              ++ rm_effects (sessionAuthPath env userId) (disk w0)
              ++ rm_effects (sessionCachePath env userId) (disk w0))%list).
  reflexivity.
Qed.

(** X13.  At the session limit, with every activity stamp in the past,
    [createSession] evicts a session whose stamp is the smallest of all:
    [destroy] is called on its client handle and, unless it is the id
    being created, no record of it is left afterwards; the registry is
    within its limit again. *)
Theorem createSession_evicts_least_recently_active (cfg : Config) (env : Env)
    (userId : string) (w : World) :
  registry_ok cfg 1 w ->
  0 < maxSessions (cfg_sessions cfg) ->
  maxSessions (cfg_sessions cfg) <= Z.of_nat (size (sessions (sm w))) ->
  JsString.truthy userId = true ->
  let w' := snd (createSession cfg env userId w) in
  exists o t_o c,
    evicted cfg w = Some o /\
    ((o, t_o) ∈ lastActivity (sm w)) /\
    (forall u t, (u, t) ∈ lastActivity (sm w) -> t_o <= t) /\
    sessions (sm w) !! o = Some c /\
    (EDestroy c ∈ trace w') /\
    (o <> userId -> no_record o (sm w')) /\
    Z.of_nat (size (sessions (sm w'))) <= maxSessions (cfg_sessions cfg).
Proof.
  intros Hok Hmax Hfull Htruthy. cbv zeta.
  pose proof Hok as (Hdom & Hsize & Hstamps).
  assert (Hne : size (sessions (sm w)) <> 0%nat) by lia.
  apply map_size_ne_0_lookup_1 in Hne as [u0 Hu0].
  apply Hdom in Hu0 as [t0 Ht0]. apply JsMap_get_elem_of in Ht0.
  destruct (Hstamps u0 t0 Ht0) as [Hpast _].
  destruct (getOldestSession_oldest w u0 t0 Ht0) as (o & t_o & Hget & Hin & Hmin);
    [lia|].
  unfold getOldestSession, bind, Date_now, gets, ret in Hget. simpl in Hget.
  injection Hget as Hfold.
  assert (Hev : evicted cfg w = Some o).
  { unfold evicted. rewrite (proj2 (Z.leb_le _ _) Hfull), Hfold.
    now destruct (Hstamps o t_o Hin) as [_ ->]. }
  assert (Hc : is_Some (sessions (sm w) !! o))
    by (apply Hdom; now apply JsMap_elem_of_get with (v := t_o)).
  destruct Hc as [c Hc].
  exists o, t_o, c. split; [exact Hev|]. split; [exact Hin|]. split; [exact Hmin|].
  split; [exact Hc|]. split; [|split].
  - destruct (createSession_trace_after_limit cfg env userId w) as [more ->].
    rewrite Hev. apply elem_of_app; left. unfold destroyed; simpl.
    apply elem_of_app; right. apply elem_of_app; left.
    unfold teardown_effects. rewrite Hc.
    apply elem_of_app; right. apply elem_of_cons; left. reflexivity.
  - intros Ho.
    pose proof (createSession_after_limit_other cfg env userId o w Ho) as Hsame.
    rewrite Hev in Hsame.
    eapply same_entries_no_record; [exact Hsame|apply destroyed_no_record].
  - pose proof (createSession_registry cfg env userId w Hok Hmax Htruthy)
      as (_ & H & _). exact H.
Qed.

(** Room for three sessions, three sessions running, ["a"] the least
    recently active: creating ["d"] evicts ["a"]. *)
Lemma createSession_evicts_least_recently_active_witness :
  let w' := snd (createSession (config_max 3) env_ok "d" world_three) in
  evicted (config_max 3) world_three = Some "a" /\
  no_record "a" (sm w') /\
  (EDestroy 0%nat ∈ trace w') /\
  Z.of_nat (size (sessions (sm w'))) <= 3.
Proof.
  destruct (createSession_evicts_least_recently_active (config_max 3) env_ok "d"
              world_three world_three_registry_ok)
    as (o & t_o & c & Hev & _ & _ & Hc & Hd & Hun & Hsize);
    [reflexivity|vm_compute; discriminate|reflexivity|].
  cbv zeta in *.
  assert (Ho : o = "a") by (vm_compute in Hev; congruence). subst o.
  assert (c = 0%nat) by (vm_compute in Hc; congruence). subst c.
  split; [exact Hev|]. split; [apply Hun; discriminate|].
  split; [exact Hd|exact Hsize].
Defined.


(** ** Idle cleanup *)

Lemma JsMap_elem_of_delete_ne {V} (k u : string) (t : V) (m : list (string * V)) :
  (u, t) ∈ JsMap.delete k m -> u <> k.
Proof.
  induction m as [|[k' v'] r IH]; simpl; intros H.
  - now apply elem_of_nil in H.
  - destruct (String.eqb_spec k' k) as [->|Hne]; [now apply IH|].
    apply elem_of_cons in H as [[= -> ->]|H]; [exact Hne|now apply IH].
Qed.

Lemma destroyed_all_clock (env : Env) (l : list string) (w : World) :
  clock (destroyed_all env l w) = clock w.
Proof.
  revert w. induction l as [|u r IH]; intros w; simpl; [reflexivity|].
  now rewrite IH.
Qed.

Lemma destroyed_all_stamps (env : Env) (l : list string) (u : string) (t : Z)
    (w : World) :
  (u, t) ∈ lastActivity (sm (destroyed_all env l w)) ->
  (u, t) ∈ lastActivity (sm w) /\ u ∉ l.
Proof.
  revert w. induction l as [|k r IH]; intros w; simpl.
  - intros H. split; [exact H|]. apply not_elem_of_nil.
  - intros H. apply IH in H as [H Hr]. unfold destroyed, purge in H. simpl in H.
    split; [now apply JsMap_elem_of_delete in H|].
    apply not_elem_of_cons. split; [|exact Hr].
    now apply JsMap_elem_of_delete_ne in H.
Qed.

Lemma filter_idle_none (cfg : Config) (now : Z) (la : list (string * Z)) :
  (forall e, e ∈ la -> idle cfg now e = false) ->
  filter (fun e => idle cfg now e = true) la = [].
Proof.
  induction la as [|e r IH]; intros H; [reflexivity|].
  rewrite filter_cons, decide_False.
  - apply IH. intros e' He'. apply H. now apply elem_of_cons; right.
  - rewrite (H e) by (apply elem_of_cons; now left). discriminate.
Qed.

(** X14.  With the unified configuration, whatever the environment
    variables are, a cleanup tick destroys nothing and changes nothing:
    the object has no [timeoutMinutes], so the timeout is [NaN] and no
    session is ever found idle. *)
Theorem unified_config_never_sweeps (MAX_SESSIONS CLEANUP_INTERVAL_MINUTES : option Z)
    (env : Env) (w : World) :
  cleanup_tick (config_unified MAX_SESSIONS CLEANUP_INTERVAL_MINUTES) env w
  = (Normal tt, w).
Proof.
  rewrite cleanup_tick_eq, filter_idle_none; [reflexivity|].
  intros e _. reflexivity.
Qed.

(** X15.  After a cleanup tick no activity stamp that is left is older
    than the timeout, so a second tick at the same time changes
    nothing. *)
Theorem cleanup_tick_leaves_no_idle_session (cfg : Config) (env : Env) (w : World) :
  let w' := snd (cleanup_tick cfg env w) in
  (forall e, e ∈ lastActivity (sm w') -> idle cfg (clock w) e = false) /\
  cleanup_tick cfg env w' = (Normal tt, w').
Proof.
  cbv zeta. rewrite cleanup_tick_eq. simpl.
  set (l := map fst (filter (fun e => idle cfg (clock w) e = true)
                       (lastActivity (sm w)))).
  assert (H : forall e, e ∈ lastActivity (sm (destroyed_all env l w)) ->
                idle cfg (clock w) e = false).
  { intros [u t] He. apply destroyed_all_stamps in He as [Hin Hl].
    destruct (idle cfg (clock w) (u, t)) eqn:Hidle; [|reflexivity].
    exfalso. apply Hl. subst l.
    change u with (fst (u, t)). apply list_elem_of_fmap_2.
    apply list_elem_of_filter. split; [exact Hidle|exact Hin]. }
  split; [exact H|].
  rewrite cleanup_tick_eq, destroyed_all_clock, filter_idle_none by exact H.
  reflexivity.
Qed.

(** ** [getStats] *)

Lemma Status_to_string_inj (a b : Status) :
  Status_to_string a = Status_to_string b -> a = b.
Proof. destruct a, b; simpl; intros H; (reflexivity || discriminate). Qed.

Lemma foldl_count_status (values : list Status) (acc : gmap string nat)
    (st : Status) :
  foldl count_status acc values !! Status_to_string st =
  match List.length (filter (fun v => Status_eqb v st = true) values) with
  | O => acc !! Status_to_string st
  | S k => Some (default 0 (acc !! Status_to_string st) + S k)%nat
  end.
Proof.
  revert acc. induction values as [|v r IH]; intros acc; [reflexivity|].
  simpl foldl. rewrite IH, filter_cons. unfold count_status at 1 2.
  destruct (Status_eqb v st) eqn:Hv.
  - apply Status_eqb_eq in Hv. subst v.
    rewrite decide_True by reflexivity. rewrite lookup_insert_eq. simpl.
    destruct (List.length (filter (fun v => Status_eqb v st = true) r));
      f_equal; lia.
  - rewrite decide_False by discriminate.
    rewrite lookup_insert_ne; [reflexivity|].
    intros H. apply Status_to_string_inj in H. subst v.
    assert (Status_eqb st st = true) by now apply Status_eqb_eq.
    congruence.
Qed.

Lemma foldl_count_status_other (values : list Status) (acc : gmap string nat)
    (name : string) :
  (forall st, name <> Status_to_string st) ->
  foldl count_status acc values !! name = acc !! name.
Proof.
  intros Hname. revert acc. induction values as [|v r IH]; intros acc;
    [reflexivity|].
  simpl. rewrite IH. unfold count_status. apply lookup_insert_ne.
  intros H. apply (Hname v). now symmetry.
Qed.

Lemma length_filter_snd (st : Status) (l : list (string * Status)) :
  List.length (filter (fun v => Status_eqb v st = true) (l.*2)) =
  List.length (filter (fun kv => Status_eqb (snd kv) st = true) l).
Proof.
  induction l as [|[k v] r IH]; [reflexivity|].
  rewrite fmap_cons, !filter_cons. simpl.
  destruct (decide (Status_eqb v st = true)); simpl; now rewrite IH.
Qed.

(** X16.  [getStats] counts right, in whatever order the status map is
    walked: under the name of a status, [sessionsByStatus] holds the
    number of ids recorded with it, and has no entry when there is none;
    it has no other keys. *)
Theorem getStats_counts (cfg : Config) (values : list Status) (s : SessionManager) :
  values ≡ₚ (map_to_list (sessionStatus s)).*2 ->
  (forall st,
     sessionsByStatus (getStats cfg values s) !! Status_to_string st =
     if (with_status st s =? 0)%nat then None else Some (with_status st s)) /\
  (forall name, (forall st, name <> Status_to_string st) ->
     sessionsByStatus (getStats cfg values s) !! name = None).
Proof.
  intros Hperm. split.
  - intros st. unfold getStats, with_status. simpl.
    rewrite foldl_count_status, Hperm, length_filter_snd, lookup_empty.
    now destruct (List.length _).
  - intros name Hname. unfold getStats. simpl.
    now rewrite foldl_count_status_other, lookup_empty.
Qed.

(** In [world_three] two sessions are [ready] and one is [needs_scan]. *)
Lemma getStats_counts_witness :
  sessionsByStatus (getStats (config_max 3) [ready; needs_scan; ready]
                      (sm world_three)) !! "ready" = Some 2%nat /\
  sessionsByStatus (getStats (config_max 3) [ready; needs_scan; ready]
                      (sm world_three)) !! "disconnected" = None.
Proof.
  assert (Hperm : [ready; needs_scan; ready]
                  ≡ₚ (map_to_list (sessionStatus (sm world_three))).*2).
  { vm_compute. solve_Permutation. }
  destruct (getStats_counts (config_max 3) [ready; needs_scan; ready]
              (sm world_three) Hperm) as [Hcount _].
  split.
  - etransitivity; [exact (Hcount ready)|]. vm_compute. reflexivity.
  - etransitivity; [exact (Hcount disconnected)|]. vm_compute. reflexivity.
Defined.

(** ** Shutdown *)

Lemma for_of_try_destroySession (env : Env) (h : string -> M unit)
    (l : list string) (w : World) :
  for_of l (fun userId => try_catch (destroySession env userId) h) w =
  (Normal tt, destroyed_all env l w).
Proof.
  revert w. induction l as [|u r IH]; intros w; simpl; [reflexivity|].
  unfold bind, try_catch. rewrite destroySession_eq. apply IH.
Qed.

(** X17.  On [SIGTERM], in whatever order the session ids are walked, the
    handler reaches [process.exit(0)]; by then no session is registered,
    the client of every session that was registered has been destroyed, no
    record is left of these ids, and [fs.rm] has been asked to remove each
    of their directories that is on disk.  The removals are requests: the
    handler does not wait for them before it exits. *)
Theorem shutdown_closes_every_session (env : Env) (ids : list string) (w : World) :
  (forall u, u ∈ ids <-> is_Some (sessions (sm w) !! u)) ->
  exists w',
    shutdown env ids w = (Normal tt, w') /\
    sessions (sm w') = ∅ /\
    (forall u c, sessions (sm w) !! u = Some c ->
       EDestroy c ∈ trace w' /\ no_record u (sm w') /\
       forall p, p ∈ dirs_on_disk env u (disk w) -> ERm p ∈ trace w').
Proof.
  intros Hids. unfold shutdown, logger. rewrite bind_emit.
  rewrite for_of_try_destroySession.
  set (w0 := add_effect _ w).
  assert (Hs0 : sm w0 = sm w) by reflexivity.
  eexists. split; [reflexivity|]. split.
  - apply map_eq. intros u. rewrite lookup_empty.
    destruct (decide (u ∈ ids)) as [Hin|Hout].
    + now destruct (destroyed_all_swept env ids u w0 Hin) as (H & _).
    + destruct (destroyed_all_other env ids u w0 Hout) as (<- & _).
      rewrite Hs0. apply eq_None_not_Some. intros H. apply Hout, Hids, H.
  - intros u c Hc.
    assert (Hin : u ∈ ids) by (apply Hids; eauto).
    split; [|split; [now apply destroyed_all_swept|]].
    + apply (destroyed_all_torn_down env ids u c w0 Hin). now rewrite Hs0.
    + intros p [Hp Hpath]%elem_of_dirs_on_disk.
      now apply destroyed_all_requests with (v := u).
Qed.

(** The three sessions of [world_three] are closed. *)
Lemma shutdown_closes_every_session_witness :
  exists w',
    shutdown env_ok ["a"; "b"; "c"] world_three = (Normal tt, w') /\
    sessions (sm w') = ∅ /\
    (EDestroy 1%nat ∈ trace w') /\ no_record "b" (sm w').
Proof.
  destruct (shutdown_closes_every_session env_ok ["a"; "b"; "c"] world_three)
    as (w' & Hrun & Hempty & Hall).
  { intros u. destruct world_three_registry_ok as (Hdom & _).
    rewrite Hdom. unfold world_three. cbn [sm lastActivity JsMap.get].
    rewrite !elem_of_cons, elem_of_nil.
    destruct (String.eqb_spec "a" u) as [<-|Ha]; [split; eauto|].
    destruct (String.eqb_spec "b" u) as [<-|Hb]; [split; eauto|].
    destruct (String.eqb_spec "c" u) as [<-|Hc]; [split; eauto|].
    split; [intros [?|[?|[?|[]]]]; congruence|intros [x Hx]; discriminate]. }
  exists w'. split; [exact Hrun|]. split; [exact Hempty|].
  destruct (Hall "b" 1%nat eq_refl) as (Hd & Hn & _). split; assumption.
Defined.

(** ** The session endpoints *)

(** [createSession] always returns, and a failure is reported as
    [init_error]. *)
Lemma createSession_returns (cfg : Config) (env : Env) (userId : string)
    (w : World) :
  exists r w',
    createSession cfg env userId w = (Normal r, w') /\
    (cr_success r = false -> cr_status r = Some init_error).
Proof.
  rewrite createSession_eq. cbv zeta.
  assert (Hnew : forall w1,
            exists r w',
              create_new env userId w1 = (Normal r, w') /\
              (cr_success r = false -> cr_status r = Some init_error)).
  { intros w1. rewrite create_new_eq. cbv zeta.
    destruct (client_ctor env (trace w1) userId) as [msg|].
    - do 2 eexists. split; [reflexivity|]. reflexivity.
    - destruct (client_initialize env _ (next_client w1)) as [msg|];
        do 2 eexists; (split; [reflexivity|]); [reflexivity|discriminate]. }
  destruct (sessions _ !! userId) as [c|]; [|apply Hnew].
  destruct (status_includes live_statuses _); [|apply Hnew].
  do 2 eexists. split; [reflexivity|]. discriminate.
Qed.

(** X18.  [POST /start-session] never throws and never answers 500: the
    answer is 400, with the world untouched, exactly when the id is
    missing or empty, and 200 otherwise, a failed initialisation
    included, which is answered 200 with [success: false] and status
    [init_error]. *)
Theorem start_session_never_answers_500 (cfg : Config) (env : Env)
    (userId : option string) (w : World) :
  exists r w',
    start_session cfg env userId w = (Normal r, w') /\
    if Js.opt_truthy userId
    then rp_code r = 200%nat /\
         (exists u result,
            userId = Some u /\
            fst (createSession cfg env u
                   (add_effect (ELog LInfo "Starting session request") w))
              = Normal result /\
            r = reply_of_result result) /\
         (rp_success r = false -> rp_status r = Some init_error)
    else r = missing_userId /\ w' = w.
Proof.
  unfold start_session, Js.opt_truthy.
  destruct userId as [u|]; [|do 2 eexists; split; [reflexivity|auto]].
  destruct (JsString.truthy u); [|do 2 eexists; split; [reflexivity|auto]].
  unfold logger. rewrite bind_emit. unfold try_catch, bind.
  destruct (createSession_returns cfg env u
              (add_effect (ELog LInfo "Starting session request") w))
    as (result & w' & Hrun & Hres).
  rewrite Hrun. do 2 eexists. split; [reflexivity|]. simpl.
  split; [reflexivity|]. split; [|exact Hres].
  exists u, result. rewrite Hrun. auto.
Qed.

(** X19.  [POST /close-session] with an id always answers 200 with
    status [no_session], whether the session existed or not and whatever
    the client does when it is logged out and destroyed.  Afterwards no
    record is left of the id, and every other id has the entries it had
    in the five maps.  On disk, [fs.rm] has been asked to remove the
    directories that [path.join] gives for the id, those that exist, and
    nothing else; for an id such as ["c/"] these are the directories of
    session ["c"]. *)
Theorem close_session_closes (env : Env) (u : string) (w : World) :
  JsString.truthy u = true ->
  exists w',
    close_session env (Some u) w = (Normal session_closed, w') /\
    no_record u (sm w') /\
    (forall v, v <> u -> same_entries v (sm w) (sm w')) /\
    removals (trace w') = (removals (trace w) ++ dirs_on_disk env u (disk w))%list.
Proof.
  intros Hu. unfold close_session, logger. rewrite Hu, bind_emit.
  unfold try_catch, bind. rewrite destroySession_eq.
  eexists. split; [reflexivity|]. split; [apply destroyed_no_record|]. split.
  - intros v Hv. simpl. apply purge_other. congruence.
  - rewrite removals_destroyed. simpl. rewrite removals_app. simpl.
    now rewrite app_nil_r.
Qed.

(** Closing ["a"] in [world_three], with a client whose [logout] and
    [destroy] throw; and closing ["a/"] where session ["a"] is ready:
    the session stays registered and the removal of its directories is
    requested. *)
Lemma close_session_closes_witness :
  (exists w',
     close_session env_teardown_throws (Some "a") world_three
       = (Normal session_closed, w') /\
     no_record "a" (sm w') /\
     same_entries "c" (sm world_three) (sm w')) /\
  (exists w',
     close_session env_ok (Some "a/") world_ready_a = (Normal session_closed, w') /\
     sessions (sm w') !! "a" = Some 0%nat /\
     removals (trace w') =
       ["/app/src/.wwebjs_auth/session-a"; "/app/src/.wwebjs_cache_a"]).
Proof.
  split.
  - destruct (close_session_closes env_teardown_throws "a" world_three eq_refl)
      as (w' & Hrun & Hun & Hoth & _).
    exists w'. split; [exact Hrun|]. split; [exact Hun|].
    apply Hoth. discriminate.
  - destruct (close_session_closes env_ok "a/" world_ready_a eq_refl)
      as (w' & Hrun & _ & Hoth & Hrm).
    exists w'. split; [exact Hrun|]. split.
    + assert (Hne : "a" <> "a/") by discriminate.
      destruct (Hoth "a" Hne) as (Hs & _).
      exact (eq_trans (eq_sym Hs) eq_refl).
    + rewrite Hrm. vm_compute. reflexivity.
Defined.

(** The registry when the handler of an event has returned. *)
Lemma handle_event_sm (env : Env) (u : string) (ev : ClientEvent) (w : World) :
  sm (snd (handle_event env u ev w)) =
  match ev with
  | ev_qr qr =>
      lastActivity_set u (clock w)
        (sessionStatus_set u needs_scan (qrCodes_set u (Some qr) (sm w)))
  | ev_ready =>
      lastActivity_set u (clock w)
        (qrCodes_set u None (sessionStatus_set u ready (sm w)))
  | ev_authenticated =>
      lastActivity_set u (clock w)
        (qrCodes_set u None (sessionStatus_set u authenticated (sm w)))
  | ev_auth_failure | ev_disconnected =>
      let marked := sessionStatus_set u (event_status ev) (sm w) in
      if bool_decide (is_Some (sessions (sm w) !! u)) then marked
      else purge u marked
  end.
Proof.
  assert (Hterm : forall st w0, st = auth_failure \/ st = disconnected ->
    sm (snd (destroySession_begin env u
               (set_sm (sessionStatus_set u st (sm w0)) w0))) =
    if bool_decide (is_Some (sessions (sm w0) !! u))
    then sessionStatus_set u st (sm w0)
    else purge u (sessionStatus_set u st (sm w0))).
  { intros st w0 Hst. rewrite destroySession_begin_eq.
    2:{ simpl. rewrite lookup_insert_eq. destruct Hst as [-> | ->]; reflexivity. }
    simpl sessions. destruct (sessions (sm w0) !! u); reflexivity. }
  destruct ev; simpl handle_event.
  - reflexivity.
  - reflexivity.
  - reflexivity.
  - unfold on_auth_failure. unfold bind at 1. unfold logger, emit.
    unfold bind at 1. unfold modify.
    exact (Hterm auth_failure (add_effect (ELog LError "Authentication failed") w)
             (or_introl eq_refl)).
  - unfold on_disconnected. unfold bind at 1. unfold modify.
    exact (Hterm disconnected w (or_intror eq_refl)).
Qed.

(** X20.  The QR endpoint follows the lifecycle of the client.  After a
    [qr] event it serves the payload of that event; after [ready] it
    answers that the client is ready, with no payload; after
    [authenticated] it answers 202.  After [auth_failure] or
    [disconnected] it answers 404: with the status [auth_failure] or
    [disconnected] for as long as the [destroySession] that the handler
    started and did not await is waiting for the client, and with
    [no_session] once that call has purged the records, which it has done
    at once when the registry held no client for the id.  The endpoint
    changes nothing. *)
Theorem get_qr_after_event (env : Env) (u : string) (ev : ClientEvent) (w : World) :
  JsString.truthy u = true ->
  let w' := snd (handle_event env u ev w) in
  get_qr u w' =
    (Normal (qr_after ev (bool_decide (is_Some (sessions (sm w) !! u)))), w') /\
  forall (c : Client) (outcome : option string),
    fst (handle_event env u ev w) = Normal (Some (at_destroy c)) ->
    let w'' := snd (destroySession_resume env u (at_destroy c) outcome w') in
    get_qr u w'' = (Normal (qr_not_found no_session), w'').
Proof.
  intros Hu. cbv zeta. split.
  - unfold get_qr, getQRCode, getSessionStatus. rewrite Hu.
    rewrite !bind_gets, handle_event_sm.
    destruct ev as [qr| | | |]; simpl;
      rewrite ?lookup_insert_eq; simpl; try reflexivity.
    + destruct (JsString.truthy qr); reflexivity.
    + destruct (bool_decide (is_Some (sessions (sm w) !! u))); simpl;
        rewrite ?lookup_insert_eq, ?lookup_delete_eq; simpl;
        rewrite ?andb_false_r; reflexivity.
    + destruct (bool_decide (is_Some (sessions (sm w) !! u))); simpl;
        rewrite ?lookup_insert_eq, ?lookup_delete_eq; simpl;
        rewrite ?andb_false_r; reflexivity.
  - intros c outcome _. rewrite destroySession_resume_eq. cbn [snd].
    unfold get_qr, getQRCode, getSessionStatus. rewrite Hu.
    rewrite !bind_gets. cbn [sm].
    destruct (purge_no_record u (sm (snd (handle_event env u ev w))))
      as (_ & -> & -> & _). reflexivity.
Qed.

(** The code emitted for ["a"] is the code served for ["a"]; when ["a"]
    is disconnected the endpoint answers 404 with [disconnected], and
    with [no_session] once the client is destroyed. *)
Lemma get_qr_after_event_witness :
  let gone := snd (handle_event env_ok "a" ev_disconnected world_ready_a) in
  fst (get_qr "a" (snd (handle_event env_ok "a" (ev_qr "2@abc") world_ready_a)))
  = Normal (qr_code (Some (Some "2@abc"))) /\
  fst (get_qr "a" gone) = Normal (qr_not_found disconnected) /\
  fst (get_qr "a"
         (snd (destroySession_resume env_ok "a" (at_destroy 0%nat) None gone)))
  = Normal (qr_not_found no_session).
Proof.
  cbv zeta.
  destruct (get_qr_after_event env_ok "a" (ev_qr "2@abc") world_ready_a eq_refl)
    as [-> _].
  destruct (get_qr_after_event env_ok "a" ev_disconnected world_ready_a eq_refl)
    as [-> Hdone].
  rewrite (Hdone 0%nat None eq_refl).
  repeat split.
Defined.

(** ** Polling the status *)







(** ** From the request to the job *)






(** ** Labels and groups *)

Lemma trace_set_sm (s : SessionManager) (w : World) : trace (set_sm s w) = trace w.
Proof. reflexivity. Qed.

Lemma str_or_truthy (o : option string) (d : string) :
  JsString.truthy d = true -> JsString.truthy (Js.str_or o d) = true.
Proof.
  intros Hd. unfold Js.str_or. destruct o as [s|]; [|exact Hd].
  destruct (JsString.truthy s) eqn:Hs; [exact Hs|exact Hd].
Qed.

Lemma label_list_named (l : list Label) :
  Forall (fun i => JsString.truthy (li_name i) = true) (label_list l).
Proof.
  unfold label_list. apply Forall_forall. intros i Hi.
  apply list_elem_of_fmap in Hi as (lab & -> & _). simpl.
  apply str_or_truthy. reflexivity.
Qed.

Lemma label_list_ids (l : list Label) :
  map li_id (label_list l) = map label_id l.
Proof. unfold label_list. rewrite map_map. reflexivity. Qed.

Lemma group_list_ids (chats : list Chat) :
  map gi_id (group_list chats) =
  map chat_serialized (filter (fun chat => chat_isGroup chat = true) chats).
Proof. unfold group_list. rewrite map_map. reflexivity. Qed.

(** X24.  [GET /labels/:userId] never throws and never answers an error
    status but the 400 of a session that is missing or not [ready], which
    leaves the world as it was.  Past that test the activity of the
    session is stamped and the answer is 200: the labels of the client
    in its order, each with its id and a name that is never empty, or the
    empty list with a message when the client has no labels, has no
    [getLabels], or throws. *)
Theorem labels_answers
    (client_getLabels :
       option (list Effect -> Client -> Completion (option (list Label))))
    (userId : string) (w : World) :
  exists r w',
    labels client_getLabels userId w = (Normal r, w') /\
    if session_ready userId w
    then
      sm w' = lastActivity_set userId (clock w) (sm w) /\
      disk w' = disk w /\
      exists items message,
        r = LabelsList items message /\
        Forall (fun i => JsString.truthy (li_name i) = true) items /\
        (items = [] <-> is_Some message) /\
        (forall c getLabels found,
           sessions (sm w) !! userId = Some c ->
           client_getLabels = Some getLabels ->
           getLabels (trace w) c = Normal (Some found) ->
           map li_id items = map label_id found)
    else r = LabelsNotReady /\ w' = w.
Proof.
  unfold labels, session_ready, getSession, getSessionStatus.
  rewrite !bind_gets.
  destruct (sessions (sm w) !! userId) as [c|] eqn:Hc.
  2:{ rewrite bool_decide_eq_false_2 by apply is_Some_None.
      do 2 eexists. split; [reflexivity|]. simpl. auto. }
  rewrite (bool_decide_eq_true_2 _ (mk_is_Some _ _ eq_refl)). simpl andb.
  destruct (Status_eqb (default no_session (sessionStatus (sm w) !! userId)) ready).
  2:{ do 2 eexists. split; [reflexivity|]. auto. }
  unfold try_catch, updateActivity, bind, Date_now, modify, logger, emit, ret.
  simpl.
  destruct client_getLabels as [getLabels|].
  - cbv beta. rewrite ?trace_set_sm.
    destruct (getLabels (trace w) c) as [[[|lab found]|]|e] eqn:Hq.
    + do 2 eexists. split; [reflexivity|]. simpl.
      split; [reflexivity|]. split; [reflexivity|].
      do 2 eexists. split; [reflexivity|]. split; [constructor|].
      split; [split; eauto|].
      intros c' q found [= <-] [= <-] Hf. rewrite Hq in Hf.
      now injection Hf as <-.
    + do 2 eexists. split; [reflexivity|]. simpl.
      split; [reflexivity|]. split; [reflexivity|].
      do 2 eexists. split; [reflexivity|].
      split; [apply (label_list_named (lab :: found))|].
      split; [split; [discriminate|intros [? ?]; discriminate]|].
      intros c' q found' [= <-] [= <-] Hf. rewrite Hq in Hf.
      injection Hf as <-. apply (label_list_ids (lab :: found)).
    + do 2 eexists. split; [reflexivity|]. simpl.
      split; [reflexivity|]. split; [reflexivity|].
      do 2 eexists. split; [reflexivity|]. split; [constructor|].
      split; [split; eauto|].
      intros c' q found [= <-] [= <-] Hf. rewrite Hq in Hf. discriminate.
    + do 2 eexists. split; [reflexivity|]. simpl.
      split; [reflexivity|]. split; [reflexivity|].
      do 2 eexists. split; [reflexivity|]. split; [constructor|].
      split; [split; eauto|].
      intros c' q found [= <-] [= <-] Hf. rewrite Hq in Hf. discriminate.
  - do 2 eexists. split; [reflexivity|]. simpl.
    split; [reflexivity|]. split; [reflexivity|].
    do 2 eexists. split; [reflexivity|]. split; [constructor|].
    split; [split; eauto|]. intros c' q found _ [=].
Qed.

Lemma group_list_named (chats : list Chat) :
  Forall (fun g => JsString.truthy (gi_name g) = true) (group_list chats).
Proof.
  unfold group_list. apply Forall_forall. intros g Hg.
  apply list_elem_of_fmap in Hg as (chat & -> & _). simpl.
  apply str_or_truthy. reflexivity.
Qed.

(** X25.  [GET /groups/:userId] never throws.  It answers 400, leaving
    the world as it was, when the session is missing or not [ready].
    Past that test the activity of the session is stamped, and the answer
    is the group chats of the client, in its order, each with its id and
    a name that is never empty, private chats left out; or, when
    [getChats] throws, a 500 whose text is ["Failed to fetch groups: "]
    followed by the message of the exception. *)
Theorem groups_answers
    (client_getChats : list Effect -> Client -> Completion (list Chat))
    (userId : string) (w : World) :
  exists r w',
    groups client_getChats userId w = (Normal r, w') /\
    if session_ready userId w
    then
      sm w' = lastActivity_set userId (clock w) (sm w) /\
      disk w' = disk w /\
      forall c, sessions (sm w) !! userId = Some c ->
        match client_getChats (trace w) c with
        | Normal chats =>
            exists items,
              r = GroupsList items /\
              map gi_id items =
                map chat_serialized
                  (filter (fun chat => chat_isGroup chat = true) chats) /\
              Forall (fun g => JsString.truthy (gi_name g) = true) items
        | Thrown message =>
            r = GroupsFailed ("Failed to fetch groups: " +:+ message)
        end
    else r = GroupsNotReady /\ w' = w.
Proof.
  unfold groups, session_ready, getSession, getSessionStatus.
  rewrite !bind_gets.
  destruct (sessions (sm w) !! userId) as [c|] eqn:Hc.
  2:{ rewrite bool_decide_eq_false_2 by apply is_Some_None.
      do 2 eexists. split; [reflexivity|]. simpl. auto. }
  rewrite (bool_decide_eq_true_2 _ (mk_is_Some _ _ eq_refl)). simpl andb.
  destruct (Status_eqb (default no_session (sessionStatus (sm w) !! userId)) ready).
  2:{ do 2 eexists. split; [reflexivity|]. auto. }
  unfold try_catch, updateActivity, bind, Date_now, modify, logger, emit, ret.
  simpl. cbv beta. rewrite ?trace_set_sm.
  destruct (client_getChats (trace w) c) as [chats|e] eqn:Hq.
  - do 2 eexists. split; [reflexivity|]. simpl.
    split; [reflexivity|]. split; [reflexivity|].
    intros c' [= <-]. rewrite Hq. eexists. split; [reflexivity|].
    split; [apply group_list_ids|apply group_list_named].
  - do 2 eexists. split; [reflexivity|]. simpl.
    split; [reflexivity|]. split; [reflexivity|].
    intros c' [= <-]. rewrite Hq. reflexivity.
Qed.

(** ** What a request leaves behind *)



